(** * The IMAP server of the Networks repository (imapserver.py)

    A shallow embedding of [imapserver.py]: the address and envelope
    formatters, the per-connection session ([IMAPProtocol]) with its command
    dispatcher [dataReceived] and its handlers, and the properties of the
    specification that concern them.

    Strings are byte strings: a Python [str] is kept as its UTF-8 encoding,
    which is also what the server writes to the transport.  Characters
    outside ASCII are carried through unchanged; case mapping and the
    whitespace class are those of Python on ASCII. *)

From Stdlib Require Import ZArith Ascii String List Lia Bool.
From Stdlib Require Import DecimalString DecimalPos.
From stdpp Require Import base option list gmap strings fin_maps fin_sets sorting.

Local Open Scope Z_scope.

(** ** Characters and constant strings *)

Definition dquote : string := String "034"%char EmptyString.
Definition crlf : string := String "013"%char (String "010"%char EmptyString).
Definition newline : ascii := "010"%char.

(** [str.isspace] on ASCII: tab, LF, VT, FF, CR, the four separators
    0x1c-0x1f and the space. *)
Definition py_isspace (c : ascii) : bool :=
  match c with
  | "009" | "010" | "011" | "012" | "013"
  | "028" | "029" | "030" | "031" | " " => true
  | _ => false
  end%char.

Definition is_digit (c : ascii) : bool :=
  match Ascii.is_nat c with Some _ => true | None => false end.

Definition digit_val (c : ascii) : Z :=
  match Ascii.is_nat c with Some d => Z.of_nat d | None => 0 end.

Definition upper_char (c : ascii) : ascii :=
  let n := nat_of_ascii c in
  if ((97 <=? n) && (n <=? 122))%nat then ascii_of_nat (n - 32) else c.

Definition lower_char (c : ascii) : ascii :=
  let n := nat_of_ascii c in
  if ((65 <=? n) && (n <=? 90))%nat then ascii_of_nat (n + 32) else c.

(** ** Python string methods *)

Fixpoint str_map (f : ascii -> ascii) (s : string) : string :=
  match s with
  | EmptyString => EmptyString
  | String c s' => String (f c) (str_map f s')
  end.

(** [s.upper()] and [s.lower()]. *)
Definition upper : string -> string := str_map upper_char.
Definition lower : string -> string := str_map lower_char.

Definition is_empty (s : string) : bool :=
  match s with EmptyString => true | _ => false end.

(** [s.startswith(p)] *)
Fixpoint startswith (p s : string) : bool :=
  match p, s with
  | EmptyString, _ => true
  | String a p', String b s' => if Ascii.eqb a b then startswith p' s' else false
  | String _ _, EmptyString => false
  end.

(** [p in s] for strings. *)
Fixpoint contains (p s : string) : bool :=
  startswith p s ||
  match s with
  | EmptyString => false
  | String _ s' => contains p s'
  end.

(** [c in s] for a single character. *)
Fixpoint has_char (c : ascii) (s : string) : bool :=
  match s with
  | EmptyString => false
  | String a s' => Ascii.eqb a c || has_char c s'
  end.

(** [s.endswith(p)] *)
Definition endswith (p s : string) : bool :=
  startswith (String.rev p) (String.rev s).

Fixpoint lstrip_by (p : ascii -> bool) (s : string) : string :=
  match s with
  | EmptyString => EmptyString
  | String c s' => if p c then lstrip_by p s' else s
  end.

Fixpoint rstrip_by (p : ascii -> bool) (s : string) : string :=
  match s with
  | EmptyString => EmptyString
  | String c s' =>
      let r := rstrip_by p s' in
      if is_empty r && p c then EmptyString else String c r
  end.

Definition strip_by (p : ascii -> bool) (s : string) : string :=
  rstrip_by p (lstrip_by p s).

(** [s.strip()] *)
Definition strip : string -> string := strip_by py_isspace.

(** [s.strip(chars)] *)
Definition strip_chars (chars : string) : string -> string :=
  strip_by (fun c => has_char c chars).

(** [s.split()]: the maximal runs of characters that are not whitespace. *)
Fixpoint split_go (cur : option string) (s : string) : list string :=
  match s with
  | EmptyString => option_list (String.rev <$> cur)
  | String c s' =>
      if py_isspace c
      then option_list (String.rev <$> cur) ++ split_go None s'
      else split_go (Some (String c (default EmptyString cur))) s'
  end.

Definition split : string -> list string := split_go None.

(** [s.split(sep)] on a one-character separator: never the empty list. *)
Fixpoint split_on (sep : ascii) (s : string) : list string :=
  match s with
  | EmptyString => [EmptyString]
  | String c s' =>
      if Ascii.eqb c sep then EmptyString :: split_on sep s'
      else match split_on sep s' with
           | hd :: tl => String c hd :: tl
           | [] => [String c EmptyString]
           end
  end.

(** [s.split(sep, 1)] when [sep] occurs in [s]: what is before the first
    occurrence and what is after it. *)
Fixpoint split_first (sep : ascii) (s : string) : option (string * string) :=
  match s with
  | EmptyString => None
  | String c s' =>
      if Ascii.eqb c sep then Some (EmptyString, s')
      else match split_first sep s' with
           | Some (a, b) => Some (String c a, b)
           | None => None
           end
  end.

(** [sep.join(l)] *)
Fixpoint join (sep : string) (l : list string) : string :=
  match l with
  | [] => EmptyString
  | [x] => x
  | x :: l' => x +:+ sep +:+ join sep l'
  end.

(** [s.replace(dquote, backslash dquote)]: every double quote gets a
    backslash before it. *)
Fixpoint escape_quotes (s : string) : string :=
  match s with
  | EmptyString => EmptyString
  | String c s' =>
      if Ascii.eqb c "034"%char
      then String "\"%char (String c (escape_quotes s'))
      else String c (escape_quotes s')
  end.

(** [len(s.encode('utf-8'))] *)
Definition byte_len (s : string) : Z := Z.of_nat (String.length s).

(** [sorted(l)] on strings: by code point, which on UTF-8 is byte order. *)
Definition sorted (l : list string) : list string := merge_sort String.le l.

(** ** Python integers *)

(** [f'{n}'] for an int. *)
Definition str_of_Z (n : Z) : string := NilZero.string_of_int (Z.to_int n).

(** The digits of an [int()] literal: one digit at least, and single
    underscores only between two digits. *)
Fixpoint int_digits (s : string) (acc : Z) (after_digit : bool) : option Z :=
  match s with
  | EmptyString => if after_digit then Some acc else None
  | String c s' =>
      if is_digit c then int_digits s' (10 * acc + digit_val c) true
      else if Ascii.eqb c "_"%char
           then (if after_digit then int_digits s' acc false else None)
           else None
  end.

(** [int(s)] on ASCII digits: [None] stands for [ValueError].  Surrounding
    whitespace is dropped and one sign is allowed. *)
Definition py_int (s : string) : option Z :=
  match strip s with
  | String "-"%char d => Z.opp <$> int_digits d 0 false
  | String "+"%char d => int_digits d 0 false
  | d => int_digits d 0 false
  end.

(** ** Python lists *)

(** [l[i]] with Python's negative indices; [None] stands for [IndexError]. *)
Definition py_index {A} (l : list A) (i : Z) : option nat :=
  let n := Z.of_nat (length l) in
  if bool_decide (0 <= i < n) then Some (Z.to_nat i)
  else if bool_decide (- n <= i < 0) then Some (Z.to_nat (n + i))
  else None.

(** [enumerate(l, start)] *)
Fixpoint enumerate {A} (start : Z) (l : list A) : list (Z * A) :=
  match l with
  | [] => []
  | x :: l' => (start, x) :: enumerate (start + 1) l'
  end.

(** What [part.get_payload(decode=True).decode(charset or 'utf-8',
    errors='replace')] comes to: the text; or no payload, when [get_payload]
    gives [None], which has no [decode]; or an exception of the codecs, by
    the name of its class: the one that [decode] raises ([LookupError] for a
    charset that is unknown or is no text encoding, [UnicodeError] or
    [ValueError] from some codecs), or the [UnicodeEncodeError] that the
    decoded text raises when it holds a lone surrogate and is encoded as
    UTF-8, as the server does next with it: such a text has no bytes to
    stand for it here. *)
Inductive payload :=
  | PayloadText (text : string)
  | PayloadNone
  | PayloadRaises (error : string).

(** ** The email package, as the server uses it

    [email.message_from_string], the accessors of the parsed message and
    [email.utils.getaddresses] are library code: the server is modelled over
    any implementation of this interface. *)
Class EmailLib := {
  Message : Type;
  (** [message_from_string(raw, policy=default_policy)] *)
  message_from_string : string -> Message;
  (** [msg.get(name)]: [None] when the header is absent. *)
  msg_get : Message -> string -> option string;
  (** [msg.items()] *)
  msg_items : Message -> list (string * string);
  msg_is_multipart : Message -> bool;
  (** [msg.walk()] *)
  msg_walk : Message -> list Message;
  msg_get_content_type : Message -> string;
  msg_get_filename : Message -> option string;
  (** [part.get_payload(decode=True).decode(charset or 'utf-8', errors='replace')] *)
  msg_payload_text : Message -> payload;
  (** [getaddresses(fieldvalues)]: pairs (display name, address). *)
  getaddresses : list string -> list (string * string);
}.

(** Python truth of an optional string: [None] and the empty string are false. *)
Definition truthy (v : option string) : option string :=
  match v with
  | Some s => if is_empty s then None else Some s
  | None => None
  end.

Section Formatters.
Context `{EmailLib}.

(** One address of [parse_address_list]: the body of its loop. *)
Definition format_address (entry : string * string) : string :=
  let '(display_name, email_addr) := entry in
  let email_addr := strip email_addr in
  let display_name :=
    if is_empty display_name then
      match split_first "@" email_addr with
      | Some (local, domain) => local
      | None => email_addr
      end
    else display_name in
  let display_name := strip_chars (dquote +:+ " ") display_name in
  let display_name := dquote +:+ display_name +:+ dquote in
  match split_first "@" email_addr with
  | Some (local, domain) =>
      "(" +:+ display_name +:+ " NIL " +:+ dquote +:+ local +:+ dquote
          +:+ " " +:+ dquote +:+ domain +:+ dquote +:+ ")"
  | None => "NIL"
  end.

Definition parse_address_list (header_value : option string) : string :=
  match truthy header_value with
  | None => "NIL"
  | Some v =>
      match getaddresses [v] with
      | [] => "NIL"
      | addresses => "(" +:+ join " " (format_address <$> addresses) +:+ ")"
      end
  end.

(** The ten fields of the envelope, as [_build_envelope] computes them. *)
Record Envelope := {
  date_value : string;
  subject_value : string;
  from_list : string;
  sender_list : string;
  reply_to_list : string;
  to_list : string;
  cc_list : string;
  bcc_list : string;
  in_reply_to_value : string;
  msg_id : string;
}.

(** [now] is [email.utils.formatdate(time.time(), localtime=True)]. *)
Definition envelope_fields (msg : Message) (uid : Z) (now : string) : Envelope :=
  let from_l := parse_address_list (msg_get msg "From") in
  {| date_value :=
       match truthy (msg_get msg "Date") with
       | Some d => dquote +:+ escape_quotes d +:+ dquote
       | None => dquote +:+ now +:+ dquote
       end;
     subject_value :=
       match truthy (msg_get msg "Subject") with
       | Some s => dquote +:+ escape_quotes s +:+ dquote
       | None => "NIL"
       end;
     from_list := from_l;
     sender_list := "NIL";
     reply_to_list := from_l;
     to_list := parse_address_list (msg_get msg "To");
     cc_list := "NIL";
     bcc_list := "NIL";
     in_reply_to_value := "NIL";
     msg_id :=
       match truthy (msg_get msg "Message-ID") with
       | Some m => dquote +:+ escape_quotes m +:+ dquote
       | None => dquote +:+ "<msg" +:+ str_of_Z uid +:+ "@example.com>" +:+ dquote
       end |}.

Definition render_envelope (e : Envelope) : string :=
  "(" +:+ date_value e +:+ " " +:+ subject_value e +:+ " " +:+ from_list e
      +:+ " " +:+ sender_list e +:+ " " +:+ reply_to_list e +:+ " " +:+ to_list e
      +:+ " " +:+ cc_list e +:+ " " +:+ bcc_list e +:+ " " +:+ in_reply_to_value e
      +:+ " " +:+ msg_id e +:+ ")".

Definition _build_envelope (msg : Message) (uid : Z) (now : string) : string :=
  render_envelope (envelope_fields msg uid now).

(** The payload that is decoded, and what decoding it comes to. *)
Definition _extract_text (msg : Message) : payload :=
  if msg_is_multipart msg then
    match filter (fun part =>
                    bool_decide (msg_get_content_type part = "text/plain")
                    && negb (bool_decide (is_Some (truthy (msg_get_filename part)))))
                 (msg_walk msg) with
    | part :: _ => msg_payload_text part
    | [] => msg_payload_text msg
    end
  else msg_payload_text msg.

Definition _extract_headers (msg : Message) : string :=
  fold_left (fun headers kv => headers +:+ fst kv +:+ ": " +:+ snd kv +:+ crlf)
            (msg_items msg) EmptyString.
End Formatters.

(** ** The world of one connection *)

(** The fields of an [IMAPProtocol] object. *)
Record Session := {
  logged_in : bool;
  user_mail_dir : option string;
  msg_files : list string;
  msg_flags : gmap Z (gset string);
}.

(** The mail storage: each directory, by its path, with the bytes of each of
    its files by name.  The path [os.path.join(dir, name)] of a file is kept
    as the pair of its directory and its name; opening and removing fail only
    when the file is not there. *)
Abbreviation FS := (gmap string (gmap string string)).

(** What a command can touch: the session, the disk, the bytes written to
    the transport (one entry for each [transport.write]), whether the
    connection is still open, the factory's [mail_storage] and the time of
    day as [email.utils.formatdate] prints it. *)
Record World := {
  sess : Session;
  disk : FS;
  wire : list string;
  connected : bool;
  mail_storage : string;
  clock : string;
}.

Definition set_sess (s : Session) (w : World) : World :=
  {| sess := s; disk := disk w; wire := wire w; connected := connected w;
     mail_storage := mail_storage w; clock := clock w |}.
Definition set_disk (d : FS) (w : World) : World :=
  {| sess := sess w; disk := d; wire := wire w; connected := connected w;
     mail_storage := mail_storage w; clock := clock w |}.
Definition set_wire (o : list string) (w : World) : World :=
  {| sess := sess w; disk := disk w; wire := o; connected := connected w;
     mail_storage := mail_storage w; clock := clock w |}.
Definition set_connected (b : bool) (w : World) : World :=
  {| sess := sess w; disk := disk w; wire := wire w; connected := b;
     mail_storage := mail_storage w; clock := clock w |}.

Definition set_logged_in (b : bool) (s : Session) : Session :=
  {| logged_in := b; user_mail_dir := user_mail_dir s;
     msg_files := msg_files s; msg_flags := msg_flags s |}.
Definition set_user_mail_dir (d : option string) (s : Session) : Session :=
  {| logged_in := logged_in s; user_mail_dir := d;
     msg_files := msg_files s; msg_flags := msg_flags s |}.
Definition set_msg_files (l : list string) (s : Session) : Session :=
  {| logged_in := logged_in s; user_mail_dir := user_mail_dir s;
     msg_files := l; msg_flags := msg_flags s |}.
Definition set_msg_flags (m : gmap Z (gset string)) (s : Session) : Session :=
  {| logged_in := logged_in s; user_mail_dir := user_mail_dir s;
     msg_files := msg_files s; msg_flags := m |}.

(** [IMAPProtocol.__init__] *)
Definition new_session : Session :=
  {| logged_in := false; user_mail_dir := None; msg_files := []; msg_flags := ∅ |}.

(** ** Files *)

(** [os.path.join(a, b)] *)
Definition path_join (a b : string) : string :=
  if startswith "/" b then b
  else if is_empty a || endswith "/" a then a +:+ b
  else a +:+ "/" +:+ b.

Definition isdir (fs : FS) (dir : string) : bool :=
  bool_decide (is_Some (fs !! dir)).

(** [os.listdir(dir)], in no particular order. *)
Definition listdir (fs : FS) (dir : string) : list string :=
  match fs !! dir with
  | Some files => (map_to_list files).*1
  | None => []
  end.

(** The bytes of a file; [None] when the file is not there. *)
Definition read_file (fs : FS) (dir name : string) : option string :=
  fs !! dir ≫= (.!! name).

(** [os.remove(path)]: [None] when it raises. *)
Definition os_remove (fs : FS) (dir name : string) : option FS :=
  match fs !! dir with
  | Some files =>
      match files !! name with
      | Some _ => Some (<[dir := delete name files]> fs)
      | None => None
      end
  | None => None
  end.

(** The text of the [OSError] of a file that is not there. *)
Definition no_such_file (path : string) : string :=
  "[Errno 2] No such file or directory: '" +:+ path +:+ "'".

(** ** Reading a file as text

    [open(path, "r", encoding="utf-8").read()] decodes the bytes of the file
    as UTF-8, strictly, and gives every line end, [CR LF], [CR] or [LF], as
    [LF]. *)

(** A continuation byte of UTF-8: 0x80 to 0xBF. *)
Definition utf8_cont (c : ascii) : bool :=
  let n := nat_of_ascii c in ((128 <=? n) && (n <=? 191))%nat.

Definition hex_digit (n : nat) : ascii :=
  default "0"%char (list_ascii_of_string "0123456789abcdef" !! n).

(** [f"{e}"] for the [UnicodeDecodeError] of the bytes from [start] to [stop],
    excluded, of which [c] is the first. *)
Definition utf8_error_text (c : ascii) (start stop : nat) (reason : string) : string :=
  if (stop - start =? 1)%nat then
    "'utf-8' codec can't decode byte 0x"
      +:+ String (hex_digit (nat_of_ascii c / 16))
            (String (hex_digit (nat_of_ascii c mod 16)) EmptyString)
      +:+ " in position " +:+ str_of_Z (Z.of_nat start) +:+ ": " +:+ reason
  else
    "'utf-8' codec can't decode bytes in position " +:+ str_of_Z (Z.of_nat start)
      +:+ "-" +:+ str_of_Z (Z.of_nat (stop - 1)) +:+ ": " +:+ reason.

(** The error of decoding [s] as UTF-8, when there is one: [s] starts at
    position [pos] of the file.  The first byte of a character says how many
    follow; bytes 0x80 to 0xC1 and 0xF5 to 0xFF start none; the second byte
    is held to the range that leaves out over-long forms, surrogates and
    what lies beyond U+10FFFF. *)
Fixpoint utf8_error (pos : nat) (s : string) {struct s} : option string :=
  match s with
  | EmptyString => None
  | String c s1 =>
      let ch := nat_of_ascii c in
      let at_end := utf8_error_text c pos (pos + String.length s) "unexpected end of data" in
      let invalid n := utf8_error_text c pos (pos + n) "invalid continuation byte" in
      if (ch <? 128)%nat then utf8_error (S pos) s1
      else if (ch <? 194)%nat then Some (utf8_error_text c pos (S pos) "invalid start byte")
      else if (ch <? 224)%nat then
        match s1 with
        | EmptyString => Some at_end
        | String c2 s2 =>
            if negb (utf8_cont c2) then Some (invalid 1%nat)
            else utf8_error (pos + 2) s2
        end
      else if (ch <? 240)%nat then
        match s1 with
        | EmptyString => Some at_end
        | String c2 s2 =>
            if negb (utf8_cont c2)
               || (if (nat_of_ascii c2 <? 160)%nat then (ch =? 224)%nat else (ch =? 237)%nat)
            then Some (invalid 1%nat)
            else
              match s2 with
              | EmptyString => Some at_end
              | String c3 s3 =>
                  if negb (utf8_cont c3) then Some (invalid 2%nat)
                  else utf8_error (pos + 3) s3
              end
        end
      else if (ch <? 245)%nat then
        match s1 with
        | EmptyString => Some at_end
        | String c2 s2 =>
            if negb (utf8_cont c2)
               || (if (nat_of_ascii c2 <? 144)%nat then (ch =? 240)%nat else (ch =? 244)%nat)
            then Some (invalid 1%nat)
            else
              match s2 with
              | EmptyString => Some at_end
              | String c3 s3 =>
                  if negb (utf8_cont c3) then Some (invalid 2%nat)
                  else
                    match s3 with
                    | EmptyString => Some at_end
                    | String c4 s4 =>
                        if negb (utf8_cont c4) then Some (invalid 3%nat)
                        else utf8_error (pos + 4) s4
                    end
              end
        end
      else Some (utf8_error_text c pos (S pos) "invalid start byte")
  end.

(** The line ends of text mode: [CR LF] and [CR] are read as [LF]. *)
Fixpoint universal_newlines (s : string) : string :=
  match s with
  | EmptyString => EmptyString
  | String c s1 =>
      if Ascii.eqb c "013"%char then
        String "010"%char
          match s1 with
          | EmptyString => EmptyString
          | String c2 s2 =>
              if Ascii.eqb c2 "010"%char then universal_newlines s2
              else universal_newlines s1
          end
      else String c (universal_newlines s1)
  end.

(** [open(path, "r", encoding="utf-8").read()]: the text, on the right, or
    on the left the text of the exception: the file is not there, or its
    bytes are not UTF-8. *)
Definition open_read (fs : FS) (dir name : string) : string + string :=
  match read_file fs dir name with
  | None => inl (no_such_file (path_join dir name))
  | Some bytes =>
      match utf8_error 0 bytes with
      | Some error => inl error
      | None => inr (universal_newlines bytes)
      end
  end.

(** The text read, or the empty text when reading raised. *)
Definition text_or_empty (r : string + string) : string :=
  match r with inr text => text | inl _ => EmptyString end.

(** ** Commands as computations on the world

    A handler runs on the world and either returns or lets an exception
    escape; what it wrote and changed before the exception stays. *)

(** The exceptions of the server's own code: an index outside a list, a key
    missing from a dictionary, a path built on [None], [decode] called on
    [None]; and what the codecs raise on a payload, by the name of the
    class. *)
Inductive exn :=
  | IndexError
  | KeyError
  | TypeError
  | AttributeError
  | CodecError (error : string).

Inductive result (A : Type) :=
  | Ret (a : A)
  | Raise (e : exn).
Arguments Ret {A} a.
Arguments Raise {A} e.

Definition M (A : Type) : Type := World -> result A * World.

Definition ret {A} (a : A) : M A := fun w => (Ret a, w).
Definition raise {A} (e : exn) : M A := fun w => (Raise e, w).
Definition bind {A B} (m : M A) (k : A -> M B) : M B :=
  fun w => match m w with
           | (Ret a, w') => k a w'
           | (Raise e, w') => (Raise e, w')
           end.

Notation "'do' x <- m ; k" := (bind m (fun x => k))
  (at level 10, x pattern, m at level 100, k at level 200).
Notation "m ;; k" := (bind m (fun _ => k))
  (at level 100, k at level 200, right associativity).

Definition get_sess : M Session := fun w => (Ret (sess w), w).
Definition get_disk : M FS := fun w => (Ret (disk w), w).
Definition get_clock : M string := fun w => (Ret (clock w), w).
Definition get_storage : M string := fun w => (Ret (mail_storage w), w).
Definition modify_sess (f : Session -> Session) : M unit :=
  fun w => (Ret tt, set_sess (f (sess w)) w).
Definition put_disk (d : FS) : M unit := fun w => (Ret tt, set_disk d w).

(** [self.transport.write(s.encode())] *)
Definition write (s : string) : M unit :=
  fun w => (Ret tt, set_wire (wire w ++ [s]) w).

(** [self.transport.loseConnection()] *)
Definition loseConnection : M unit := fun w => (Ret tt, set_connected false w).

(** A value that raises when it is missing. *)
Definition expect {A} (e : exn) (o : option A) : M A :=
  match o with Some a => ret a | None => raise e end.

(** [for x in l: body(x)] *)
Fixpoint for_each {A} (l : list A) (body : A -> M unit) : M unit :=
  match l with
  | [] => ret tt
  | x :: l' => body x ;; for_each l' body
  end.

(** A loop that carries a local variable. *)
Fixpoint fold_each {A S} (l : list A) (acc : S) (body : S -> A -> M S) : M S :=
  match l with
  | [] => ret acc
  | x :: l' => do acc' <- body acc x; fold_each l' acc' body
  end.

(** [os.path.join(self.user_mail_dir, name)] with the directory unset raises
    [TypeError]; the model keeps the directory and the name apart. *)
Definition mail_dir : M string :=
  do s <- get_sess; expect TypeError (user_mail_dir s).

(** ** Regular expressions of the server *)

(** What [.*?] followed by a closing parenthesis matches from the start of
    [s]: the text before the first closing parenthesis, if no newline comes
    before it. *)
Fixpoint until_close (s : string) : option string :=
  match s with
  | EmptyString => None
  | String c s' =>
      if Ascii.eqb c ")"%char then Some EmptyString
      else if Ascii.eqb c newline then None
      else String c <$> until_close s'
  end.

(** Group 1 of [re.search(r'\((.*?)\)', s)]. *)
Fixpoint re_paren_group (s : string) : option string :=
  match s with
  | EmptyString => None
  | String c s' =>
      if Ascii.eqb c "("%char then
        match until_close s' with
        | Some g => Some g
        | None => re_paren_group s'
        end
      else re_paren_group s'
  end.

(** The longest prefix of [s] whose characters satisfy [p], and the rest. *)
Fixpoint span_by (p : ascii -> bool) (s : string) : string * string :=
  match s with
  | EmptyString => (EmptyString, EmptyString)
  | String c s' =>
      if p c then let '(a, b) := span_by p s' in (String c a, b)
      else (EmptyString, s)
  end.

(** [r'UID fetch (\S+)\s+\('] matched at the start of [s], ignoring case:
    the run of characters that are not whitespace is taken whole, as the
    whitespace after it must follow at once, and so is the whitespace. *)
Definition uid_fetch_match_here (s : string) : option string :=
  if startswith "uid fetch " (lower (String.substring 0 10 s)) then
    let '(g, r1) := span_by (fun c => negb (py_isspace c))
                            (String.substring 10 (String.length s - 10) s) in
    let '(ws, r2) := span_by py_isspace r1 in
    if is_empty g || is_empty ws then None
    else if startswith "(" r2 then Some g else None
  else None.

(** Group 1 of [re.search(r'UID fetch (\S+)\s+\(', s, re.IGNORECASE)]: the
    leftmost match. *)
Fixpoint re_uid_fetch_group (s : string) : option string :=
  match uid_fetch_match_here s with
  | Some g => Some g
  | None =>
      match s with
      | EmptyString => None
      | String _ s' => re_uid_fetch_group s'
      end
  end.

(** ** The server *)

(** The accounts: user name and password. *)
Definition USUARIOS : gmap string string :=
  <["santa@polonorte.com" := "password123"]>
  (<["santa@example.com" := "password123"]>
  (<["senoraClous@polonorte.com" := "password123"]> ∅)).

(** [{i + 1: set() for i in range(n)}] *)
Definition fresh_flags (n : nat) : gmap Z (gset string) :=
  list_to_map ((fun i => (i, ∅)) <$> seqZ 1 (Z.of_nat n)).

Definition must_authenticate (tag : string) : M unit :=
  write (tag +:+ " NO Debe autenticarse primero" +:+ crlf).

(** The sequence set of [UID FETCH]: a Python [range(start, stop)] or the
    one-element list. *)
Inductive UidSet :=
  | UidRange (start stop : Z)
  | UidList (l : list Z).

(** [uid in uids] *)
Definition uid_in (uid : Z) (uids : UidSet) : bool :=
  match uids with
  | UidRange start stop => bool_decide (start <= uid < stop)
  | UidList l => bool_decide (uid ∈ l)
  end.

(** The first part of [handle_uid_fetch]: the UIDs that [command] asks for,
    in a mailbox of [n] messages. *)
Definition uid_fetch_uids (command : string) (n : Z) : UidSet :=
  match re_uid_fetch_group command with
  | Some seq_set =>
      match split_first ":" seq_set with
      | Some (start_str, end_str) =>
          match py_int start_str,
                (if String.eqb end_str "*" then Some n else py_int end_str) with
          | Some start, Some stop => UidRange start (stop + 1)
          | _, _ => UidRange 1 (n + 1)
          end
      | None =>
          match py_int seq_set with
          | Some uid_val => UidList [uid_val]
          | None => UidRange 1 (n + 1)
          end
      end
  | None => UidRange 1 (n + 1)
  end.

Section Server.
Context `{EmailLib}.

Definition handle_capability (tag : string) : M unit :=
  write ("* CAPABILITY IMAP4rev1 AUTH=PLAIN" +:+ crlf) ;;
  write (tag +:+ " OK CAPABILITY completed" +:+ crlf).

Definition handle_status (tag mailbox items : string) : M unit :=
  do s <- get_sess;
  let num_msgs := Z.of_nat (length (msg_files s)) in
  let uidnext := num_msgs + 1 in
  write ("* STATUS " +:+ dquote +:+ mailbox +:+ dquote +:+ " (MESSAGES "
         +:+ str_of_Z num_msgs +:+ " UIDNEXT " +:+ str_of_Z uidnext
         +:+ " UNSEEN 0 RECENT 0)" +:+ crlf
         +:+ tag +:+ " OK STATUS completed" +:+ crlf).

Definition handle_login (tag username password : string) : M unit :=
  if bool_decide (USUARIOS !! username = Some password) then
    modify_sess (set_logged_in true) ;;
    match split_on "@" username with
    | [local_part; domain] =>
        do storage <- get_storage;
        let dir := path_join (path_join storage domain) local_part in
        modify_sess (set_user_mail_dir (Some dir)) ;;
        do fs <- get_disk;
        (if isdir fs dir then
           let files :=
             sorted (filter (fun f => endswith ".eml" (lower f)) (listdir fs dir)) in
           modify_sess (set_msg_files files) ;;
           modify_sess (set_msg_flags (fresh_flags (length files)))
         else
           modify_sess (set_msg_files []) ;;
           modify_sess (set_msg_flags ∅)) ;;
        write (tag +:+ " OK LOGIN completado" +:+ crlf)
    | _ => write (tag +:+ " NO Formato de usuario incorrecto" +:+ crlf)
    end
  else write (tag +:+ " NO LOGIN fallido" +:+ crlf).

Definition handle_select (tag mailbox : string) : M unit :=
  do s <- get_sess;
  if negb (logged_in s) then must_authenticate tag
  else
    let mailbox := upper (strip_chars dquote mailbox) in
    if String.eqb mailbox "INBOX" then
      let num_msgs := Z.of_nat (length (msg_files s)) in
      let uidnext := num_msgs + 1 in
      write ("* FLAGS (\Answered \Flagged \Draft \Deleted \Seen)" +:+ crlf) ;;
      write ("* " +:+ str_of_Z num_msgs +:+ " EXISTS" +:+ crlf) ;;
      write ("* OK [UIDVALIDITY 1] UIDs valid" +:+ crlf) ;;
      write ("* OK [UIDNEXT " +:+ str_of_Z uidnext +:+ "] Predicted next UID" +:+ crlf) ;;
      write (tag +:+ " OK [READ-WRITE] SELECT completed" +:+ crlf)
    else write (tag +:+ " NO Carpeta no encontrada" +:+ crlf).

(** The untagged answer of [FETCH] for one block of text. *)
Definition fetch_literal (msg_num : Z) (item content : string) : string :=
  "* " +:+ str_of_Z msg_num +:+ " FETCH (" +:+ item +:+ " {"
       +:+ str_of_Z (byte_len content) +:+ "}" +:+ crlf
       +:+ content +:+ crlf +:+ ")" +:+ crlf.

Definition handle_fetch (tag msg_num fetch_args : string) : M unit :=
  do s <- get_sess;
  if negb (logged_in s) then must_authenticate tag
  else
    match py_int msg_num with
    | None => write (tag +:+ " BAD Número de mensaje inválido" +:+ crlf)
    | Some msg_num =>
        let index := msg_num - 1 in
        if bool_decide (index < 0) || bool_decide (Z.of_nat (length (msg_files s)) <= index)
        then write (tag +:+ " NO Mensaje no encontrado" +:+ crlf)
        else
          do msg_filename <- expect IndexError (msg_files s !! Z.to_nat index);
          do dir <- mail_dir;
          do fs <- get_disk;
          match open_read fs dir msg_filename with
          | inl e => write (tag +:+ " NO Error al leer el mensaje: " +:+ e +:+ crlf)
          | inr raw_content =>
              let msg := message_from_string raw_content in
              let fetch_args := upper fetch_args in
              (if contains "RFC822" fetch_args || contains "BODY[]" fetch_args then
                 write (fetch_literal msg_num "RFC822" raw_content)
               else if contains "BODY[HEADER]" fetch_args then
                 write (fetch_literal msg_num "BODY[HEADER]" (_extract_headers msg))
               else if contains "BODY[TEXT]" fetch_args then
                 match _extract_text msg with
                 | PayloadText body => write (fetch_literal msg_num "BODY[TEXT]" body)
                 | PayloadNone => raise AttributeError
                 | PayloadRaises error => raise (CodecError error)
                 end
               else write (fetch_literal msg_num "RFC822" raw_content)) ;;
              write (tag +:+ " OK FETCH completed" +:+ crlf)
          end
    end.

(** The answer of [UID FETCH] for the message [uid] of text [raw_content]. *)
Definition uid_fetch_response (command_upper now : string) (uid : Z)
    (raw_content : string) : string :=
  let msg := message_from_string raw_content in
  let size := byte_len raw_content in
  if contains "BODY.PEEK[HEADER.FIELDS" command_upper then
    let headers := _extract_headers msg in
    let header_size := byte_len headers in
    let envelope := _build_envelope msg uid now in
    let internaldate := dquote +:+ "01-Jan-2020 00:00:00 +0000" +:+ dquote in
    "* " +:+ str_of_Z uid +:+ " FETCH (UID " +:+ str_of_Z uid +:+ " RFC822.SIZE "
         +:+ str_of_Z size +:+ " FLAGS () INTERNALDATE " +:+ internaldate
         +:+ " ENVELOPE " +:+ envelope
         +:+ " BODY.PEEK[HEADER.FIELDS (FROM TO CC BCC SUBJECT DATE MESSAGE-ID PRIORITY X-PRIORITY REFERENCES NEWGROUPS IN-REPLY-TO CONTENT-TYPE REPLY-TO)] {"
         +:+ str_of_Z header_size +:+ "}" +:+ crlf
         +:+ headers +:+ crlf +:+ ")" +:+ crlf
  else if contains "RFC822" command_upper then
    let envelope := _build_envelope msg uid now in
    "* " +:+ str_of_Z uid +:+ " FETCH (UID " +:+ str_of_Z uid +:+ " RFC822.SIZE "
         +:+ str_of_Z size +:+ " FLAGS () ENVELOPE " +:+ envelope +:+ " RFC822 {"
         +:+ str_of_Z size +:+ "}" +:+ crlf
         +:+ raw_content +:+ crlf +:+ ")" +:+ crlf
  else
    "* " +:+ str_of_Z uid +:+ " FETCH (UID " +:+ str_of_Z uid +:+ " FLAGS ())" +:+ crlf.

(** The body of the loop of [handle_uid_fetch], for the message at index
    [i]: nothing when its UID is not asked for; a file that cannot be read
    counts as empty. *)
Definition uid_fetch_one (command_upper : string) (uids : UidSet)
    (entry : Z * string) : M unit :=
  let '(i, msg_filename) := entry in
  let uid := i + 1 in
  if negb (uid_in uid uids) then ret tt
  else
    do dir <- mail_dir;
    do fs <- get_disk;
    let raw_content := text_or_empty (open_read fs dir msg_filename) in
    do now <- get_clock;
    write (uid_fetch_response command_upper now uid raw_content).

Definition handle_uid_fetch (tag command : string) : M unit :=
  do s <- get_sess;
  let command_upper := upper command in
  let uids := uid_fetch_uids command (Z.of_nat (length (msg_files s))) in
  for_each (enumerate 0 (msg_files s)) (uid_fetch_one command_upper uids) ;;
  write (tag +:+ " OK UID FETCH completed" +:+ crlf).

Definition handle_lsub (tag : string) : M unit :=
  do s <- get_sess;
  if negb (logged_in s) then must_authenticate tag
  else
    write ("* LSUB (\HasNoChildren) " +:+ dquote +:+ "/" +:+ dquote +:+ " INBOX" +:+ crlf) ;;
    write (tag +:+ " OK LSUB completed" +:+ crlf).

Definition handle_list (tag : string) : M unit :=
  do s <- get_sess;
  if negb (logged_in s) then must_authenticate tag
  else
    write ("* LIST (\HasNoChildren) " +:+ dquote +:+ "/" +:+ dquote +:+ " "
           +:+ dquote +:+ "INBOX" +:+ dquote +:+ crlf) ;;
    write (tag +:+ " OK LIST completed" +:+ crlf).

Definition handle_logout (tag : string) : M unit :=
  write ("* BYE IMAP4rev1 Server logging out" +:+ crlf) ;;
  write (tag +:+ " OK LOGOUT completed" +:+ crlf) ;;
  loseConnection.

Definition handle_noop (tag : string) : M unit :=
  write (tag +:+ " OK NOOP completed" +:+ crlf).

(** The first loop of [handle_expunge], for one message: its file is
    removed when its flags are there, not empty and hold the deletion
    flag, and its number is recorded when the removal went through. *)
Definition expunge_scan (flags : gmap Z (gset string))
    (indices_a_expungir : list Z) (entry : Z * string) : M (list Z) :=
  let '(i, msg_filename) := entry in
  match flags !! i with
  | Some fl =>
      if negb (bool_decide (fl = ∅)) && bool_decide ("\Deleted" ∈ fl) then
        do dir <- mail_dir;
        do fs <- get_disk;
        match os_remove fs dir msg_filename with
        | Some d => put_disk d ;; ret (indices_a_expungir ++ [i])
        | None => ret indices_a_expungir
        end
      else ret indices_a_expungir
  | None => ret indices_a_expungir
  end.

(** The second loop of [handle_expunge], for one recorded number:
    [del self.msg_files[indice - 1]] and [del self.msg_flags[indice]]. *)
Definition expunge_delete (indice : Z) : M unit :=
  do s <- get_sess;
  do idx <- expect IndexError (py_index (msg_files s) (indice - 1));
  modify_sess (fun s => set_msg_files (delete idx (msg_files s)) s) ;;
  do s <- get_sess;
  do _ <- expect KeyError (msg_flags s !! indice);
  modify_sess (fun s => set_msg_flags (delete indice (msg_flags s)) s).

Definition handle_expunge (tag : string) : M unit :=
  do s <- get_sess;
  if negb (logged_in s) then must_authenticate tag
  else
    do indices_a_expungir <-
      fold_each (enumerate 1 (msg_files s)) [] (expunge_scan (msg_flags s));
    for_each (merge_sort (flip Z.le) indices_a_expungir) expunge_delete ;;
    write (tag +:+ " OK EXPUNGE completed" +:+ crlf).

(** [self.msg_flags[n]] *)
Definition flags_at (n : Z) : M (gset string) :=
  do s <- get_sess; expect KeyError (msg_flags s !! n).

(** [self.msg_flags[n].update(flags)] and [difference_update(flags)]. *)
Definition flags_update (n : Z) (f : gset string -> gset string) : M unit :=
  do fl <- flags_at n;
  modify_sess (fun s => set_msg_flags (<[n := f fl]> (msg_flags s)) s).

Definition handle_store (tag msg_num store_args : string) : M unit :=
  do s <- get_sess;
  if negb (logged_in s) then must_authenticate tag
  else
    match py_int msg_num with
    | None => write (tag +:+ " BAD Número de mensaje inválido" +:+ crlf)
    | Some msg_num_int =>
        (if bool_decide (msg_flags s !! msg_num_int = None)
         then modify_sess (fun s => set_msg_flags (<[msg_num_int := ∅]> (msg_flags s)) s)
         else ret tt) ;;
        (if contains "+FLAGS" (upper store_args) then
           match re_paren_group store_args with
           | Some flags_str =>
               flags_update msg_num_int (fun fl => fl ∪ list_to_set (split flags_str))
           | None => ret tt
           end
         else if contains "-FLAGS" (upper store_args) then
           match re_paren_group store_args with
           | Some flags_str =>
               flags_update msg_num_int (fun fl => fl ∖ list_to_set (split flags_str))
           | None => ret tt
           end
         else ret tt) ;;
        do fl <- flags_at msg_num_int;
        let flags_response := join " " (sorted (elements fl)) in
        write ("* " +:+ str_of_Z msg_num_int +:+ " FETCH (FLAGS (" +:+ flags_response
               +:+ "))" +:+ crlf) ;;
        write (tag +:+ " OK STORE completed" +:+ crlf) ;;
        do fl <- flags_at msg_num_int;
        if bool_decide ("\Deleted" ∈ fl) then
          do s <- get_sess;
          do idx <- expect IndexError (py_index (msg_files s) (msg_num_int - 1));
          do msg_filename <- expect IndexError (msg_files s !! idx);
          do dir <- mail_dir;
          do fs <- get_disk;
          match os_remove fs dir msg_filename with
          | Some d => put_disk d
          | None => ret tt
          end ;;
          modify_sess (fun s => set_msg_files (delete idx (msg_files s)) s) ;;
          do _ <- flags_at msg_num_int;
          modify_sess (fun s => set_msg_flags (delete msg_num_int (msg_flags s)) s) ;;
          modify_sess (fun s => set_msg_flags (fresh_flags (length (msg_files s))) s)
        else ret tt
    end.

Definition handle_search (tag search_args : string) : M unit :=
  do s <- get_sess;
  if negb (logged_in s) then must_authenticate tag
  else
    write ("* SEARCH 1 2 3" +:+ crlf) ;;
    write (tag +:+ " OK SEARCH completed" +:+ crlf).

(** [dataReceived]: [data] is the decoded line.  The [print] calls of the
    server, here and in the handlers, write to the console and are left
    out. *)
Definition dataReceived (data : string) : M unit :=
  let command := strip data in
  let tokens := split command in
  match tokens with
  | [] => ret tt
  | tag :: _ =>
      let tok i := default EmptyString (tokens !! i) in
      let n := length tokens in
      let comando := if (1 <? n)%nat then upper (tok 1%nat) else EmptyString in
      if String.eqb comando "CAPABILITY" then handle_capability tag
      else if String.eqb comando "AUTHENTICATE" && (3 <=? n)%nat
              && String.eqb (upper (tok 2%nat)) "PLAIN" then
        write (tag +:+ " NO AUTHENTICATE PLAIN no soportado, use LOGIN" +:+ crlf)
      else if String.eqb comando "LOGIN" && (4 <=? n)%nat then
        handle_login tag (strip_chars dquote (tok 2%nat)) (strip_chars dquote (tok 3%nat))
      else if String.eqb comando "SELECT" && (3 <=? n)%nat then
        handle_select tag (tok 2%nat)
      else if String.eqb comando "FETCH" && (4 <=? n)%nat then
        handle_fetch tag (tok 2%nat) (join " " (drop 3 tokens))
      else if String.eqb comando "UID" && (4 <=? n)%nat then
        let subcomando := upper (tok 2%nat) in
        if String.eqb subcomando "FETCH" then handle_uid_fetch tag command
        else if String.eqb subcomando "STORE" then
          handle_store tag (tok 3%nat) (join " " (drop 4 tokens))
        else write (tag +:+ " BAD UID comando no reconocido" +:+ crlf)
      else if String.eqb comando "LSUB" then handle_lsub tag
      else if String.eqb comando "LIST" then handle_list tag
      else if String.eqb comando "STATUS" && (4 <=? n)%nat then
        handle_status tag (strip_chars dquote (tok 2%nat)) (join " " (drop 3 tokens))
      else if String.eqb comando "LOGOUT" then handle_logout tag
      else if String.eqb comando "NOOP" then handle_noop tag
      else if String.eqb comando "EXPUNGE" then handle_expunge tag
      else if String.eqb comando "STORE" && (4 <=? n)%nat then
        handle_store tag (tok 2%nat) (join " " (drop 3 tokens))
      else if String.eqb comando "SEARCH" then handle_search tag (join " " (drop 2 tokens))
      else write (tag +:+ " BAD Comando no reconocido" +:+ crlf)
  end.
End Server.

(** [connectionMade] on a fresh protocol object. *)
Definition connectionMade (storage : string) (fs : FS) (now : string) : World :=
  {| sess := new_session; disk := fs; wire := ["* OK IMAP4rev1 Service Ready" +:+ crlf];
     connected := true; mail_storage := storage; clock := now |}.

(** ** A plain stand-in for the email package

    Enough of a message parser to run the server on concrete mail: header
    lines [Name: value] up to the first line that is not one, no folding, no
    MIME parts; addresses are a comma-separated list of [addr] or
    [Name <addr>].
    The theorems below hold for every [EmailLib]; this one instantiates
    them on examples. *)
Module Plain.
Record message := { headers : list (string * string); body : string }.

Definition chomp (line : string) : string :=
  rstrip_by (fun c => Ascii.eqb c "013"%char) line.

Fixpoint parse_lines (lines : list string) (acc : list (string * string)) : message :=
  match lines with
  | [] => {| headers := acc; body := EmptyString |}
  | line :: rest =>
      match split_first ":" (chomp line) with
      | Some (name, value) => parse_lines rest (acc ++ [(name, strip value)])
      | None =>
          let text := if is_empty (chomp line) then rest else line :: rest in
          {| headers := acc; body := join (String newline EmptyString) text |}
      end
  end.

Definition parse (raw : string) : message :=
  parse_lines (split_on newline raw) [].

Definition get (m : message) (name : string) : option string :=
  snd <$> head (filter (fun kv => String.eqb (lower (fst kv)) (lower name)) (headers m)).

Definition address (piece : string) : string * string :=
  match split_first "<" piece with
  | Some (name, rest) =>
      match split_first ">" rest with
      | Some (addr, _) => (strip_chars (dquote +:+ " ") name, addr)
      | None => (EmptyString, strip piece)
      end
  | None => (EmptyString, strip piece)
  end.

Definition addresses (fieldvalues : list string) : list (string * string) :=
  address <$> filter (fun p => negb (is_empty (strip p)))
                     (split_on ","%char (join ", " fieldvalues)).

Definition lib : EmailLib :=
  {| Message := message;
     message_from_string := parse;
     msg_get := get;
     msg_items := headers;
     msg_is_multipart := fun _ => false;
     msg_walk := fun m => [m];
     msg_get_content_type := fun _ => "text/plain";
     msg_get_filename := fun _ => None;
     msg_payload_text := fun m => PayloadText (body m);
     getaddresses := addresses |}.
End Plain.

(** ** A mailbox to run examples on *)

Definition demo_mail : string :=
  "From: Santa <santa@polonorte.com>" +:+ crlf +:+ "To: a@b.com" +:+ crlf
  +:+ "Subject: Hi" +:+ crlf +:+ crlf +:+ "Hello".

Definition demo_dir : string := "var/mail/example.com/santa".

Definition demo_fs : FS :=
  <[demo_dir := <["1.eml" := demo_mail]> (<["2.eml" := "two"]> (<["3.eml" := "three"]> ∅))]> ∅.

(** A connection that has just been opened on the demo mailbox. *)
Definition demo_start : World :=
  connectionMade "var/mail" demo_fs "Wed, 04 Nov 2026 12:00:00 +0000".

(** The same connection after a successful LOGIN: three messages, no flags. *)
Definition demo_world : World :=
  {| sess := {| logged_in := true; user_mail_dir := Some demo_dir;
                msg_files := ["1.eml"; "2.eml"; "3.eml"];
                msg_flags := fresh_flags 3 |};
     disk := demo_fs;
     wire := ["* OK IMAP4rev1 Service Ready" +:+ crlf; "a0 OK LOGIN completado" +:+ crlf];
     connected := true; mail_storage := "var/mail";
     clock := "Wed, 04 Nov 2026 12:00:00 +0000" |}.

(** What a command writes: the part of the wire it adds. *)
Definition response_to (m : M unit) (w : World) : list string :=
  drop (length (wire w)) (wire (snd (m w))).

(** The commands that the dispatcher hands to a handler that starts with the
    [logged_in] test, given the verb in upper case and the tokens after it. *)
Definition needs_login (comando : string) (args : list string) : bool :=
  (String.eqb comando "SELECT" && (1 <=? length args)%nat)
  || (String.eqb comando "FETCH" && (2 <=? length args)%nat)
  || (String.eqb comando "UID" && (2 <=? length args)%nat
      && String.eqb (upper (default EmptyString (args !! 0%nat))) "STORE")
  || String.eqb comando "LSUB"
  || String.eqb comando "LIST"
  || String.eqb comando "EXPUNGE"
  || (String.eqb comando "STORE" && (2 <=? length args)%nat)
  || String.eqb comando "SEARCH".

(** The world after one more [transport.write]. *)
Definition wrote (s : string) (w : World) : World := set_wire (wire w ++ [s]) w.

(** How many times [c] occurs in [s]. *)
Fixpoint count_char (c : ascii) (s : string) : nat :=
  match s with
  | EmptyString => 0
  | String a s' => (if Ascii.eqb a c then 1 else 0) + count_char c s'
  end.

(** ** STORE, by its parts *)

(** What [+FLAGS (...)], [-FLAGS (...)] or neither makes of a flag set. *)
Definition store_change (store_args : string) (fl : gset string) : gset string :=
  if contains "+FLAGS" (upper store_args) then
    match re_paren_group store_args with
    | Some flags_str => fl ∪ list_to_set (split flags_str)
    | None => fl
    end
  else if contains "-FLAGS" (upper store_args) then
    match re_paren_group store_args with
    | Some flags_str => fl ∖ list_to_set (split flags_str)
    | None => fl
    end
  else fl.

(** The flag set of message [n] after [STORE n store_args]. *)
Definition stored_flags (n : Z) (store_args : string) (s : Session) : gset string :=
  store_change store_args (default ∅ (msg_flags s !! n)).

(** The untagged answer of STORE. *)
Definition store_flags_line (n : Z) (fl : gset string) : string :=
  "* " +:+ str_of_Z n +:+ " FETCH (FLAGS (" +:+ join " " (sorted (elements fl))
       +:+ "))" +:+ crlf.

(** The world once STORE has set the flags and answered. *)
Definition store_answered (tag : string) (n : Z) (store_args : string) (w : World) : World :=
  let fl := stored_flags n store_args (sess w) in
  wrote (tag +:+ " OK STORE completed" +:+ crlf)
    (wrote (store_flags_line n fl)
       (set_sess (set_msg_flags (<[n := fl]> (msg_flags (sess w))) (sess w)) w)).

(** The world once STORE has, after that, removed the file [msg_filename] of
    [dir] and taken the entry at index [idx] out of the list. *)
Definition store_deleted (tag : string) (n : Z) (store_args : string) (idx : nat)
    (dir msg_filename : string) (w : World) : World :=
  let files := delete idx (msg_files (sess w)) in
  set_sess {| logged_in := logged_in (sess w); user_mail_dir := user_mail_dir (sess w);
              msg_files := files; msg_flags := fresh_flags (length files) |}
    (set_disk (default (disk w) (os_remove (disk w) dir msg_filename))
       (store_answered tag n store_args w)).

(** The answer of STATUS for a mailbox of [num_msgs] messages. *)
Definition status_answer (tag mailbox : string) (num_msgs : Z) : string :=
  "* STATUS " +:+ dquote +:+ mailbox +:+ dquote +:+ " (MESSAGES "
    +:+ str_of_Z num_msgs +:+ " UIDNEXT " +:+ str_of_Z (num_msgs + 1)
    +:+ " UNSEEN 0 RECENT 0)" +:+ crlf
    +:+ tag +:+ " OK STATUS completed" +:+ crlf.

(** ** UID FETCH, by its parts *)

(** Every character of [s] satisfies [p]. *)
Fixpoint str_all (p : ascii -> bool) (s : string) : bool :=
  match s with
  | EmptyString => true
  | String c s' => p c && str_all p s'
  end.

(** A token of [split()]: no whitespace in it. *)
Definition is_token (s : string) : bool := str_all (fun c => negb (py_isspace c)) s.


(** The UIDs that UID FETCH answers for in a mailbox of [n] messages: those
    of 1..n that the sequence set of [command] holds, in order. *)
Definition emitted_uids (command : string) (n : nat) : list Z :=
  filter (fun uid => uid_in uid (uid_fetch_uids command (Z.of_nat n)))
         (seqZ 1 (Z.of_nat n)).

(** The text of message [uid] as UID FETCH reads it: empty when the file
    cannot be read. *)
Definition uid_fetch_text (w : World) (uid : Z) : string :=
  match msg_files (sess w) !! Z.to_nat (uid - 1) with
  | Some msg_filename =>
      text_or_empty
        (open_read (disk w) (default EmptyString (user_mail_dir (sess w))) msg_filename)
  | None => EmptyString
  end.

(** A session can read its messages: it has a mail directory, or no message. *)
Definition has_mail_dir (s : Session) : Prop :=
  msg_files s = [] \/ is_Some (user_mail_dir s).

(** ** Sessions that a connection can reach *)

(** No message of the list carries the deletion flag. *)
Definition no_pending_delete (s : Session) : Prop :=
  forall i fl,
    msg_flags s !! i = Some fl ->
    1 <= i <= Z.of_nat (length (msg_files s)) ->
    "\Deleted" ∉ fl.

(** What every session of a connection satisfies. *)
Definition session_inv (s : Session) : Prop :=
  has_mail_dir s
  /\ (logged_in s = true -> is_Some (user_mail_dir s))
  /\ no_pending_delete s.

(** The world around the connection: other processes change the disk, and
    time passes. *)
Definition set_env (fs : FS) (now : string) (w : World) : World :=
  {| sess := sess w; disk := fs; wire := wire w; connected := connected w;
     mail_storage := mail_storage w; clock := now |}.

Section Reachable.
Context `{EmailLib}.

(** The worlds of a connection: it starts with [connectionMade], every line
    received runs [dataReceived], also after an exception or a LOGOUT (a
    superset of what Twisted lets happen), and the disk and the clock may
    change at any time. *)
Inductive reachable : World -> Prop :=
  | reach_start storage fs now : reachable (connectionMade storage fs now)
  | reach_command w data : reachable w -> reachable (snd (dataReceived data w))
  | reach_env w fs now : reachable w -> reachable (set_env fs now w).
End Reachable.

(** A computation that leaves the session as it is. *)
Definition keeps_sess {A} (m : M A) : Prop :=
  forall w, sess (snd (m w)) = sess w.

(** A command that keeps [session_inv] and either leaves the message list as
    it is, or returns normally with a fresh flag mapping for the new list. *)
Definition tidy (m : M unit) : Prop :=
  forall w,
    session_inv (sess w) ->
    session_inv (sess (snd (m w)))
    /\ (msg_files (sess (snd (m w))) = msg_files (sess w)
        \/ (fst (m w) = Ret tt
            /\ msg_flags (sess (snd (m w)))
               = fresh_flags (length (msg_files (sess (snd (m w))))))).


(** ** Computations that do not look at the wire *)

(** A computation is [framed] when it neither reads nor rewrites what is
    already on the wire: run after more output, it does the same and leaves
    that output in front of its own. *)
Definition framed {A} (m : M A) : Prop :=
  forall w pre,
    m (set_wire (pre ++ wire w) w)
    = (fst (m w), set_wire (pre ++ wire (snd (m w))) (snd (m w))).

(** ** Lines and what they are dispatched to *)

(** The verb of a line, as [dataReceived] reads it: the second token in upper
    case, or the empty string when there is none. *)
Definition comando (data : string) : string :=
  match split (strip data) with
  | _ :: verb :: _ => upper verb
  | _ => EmptyString
  end.

(** The verbs that [dataReceived] tests for. *)
Definition verbs : list string :=
  ["CAPABILITY"; "AUTHENTICATE"; "LOGIN"; "SELECT"; "FETCH"; "UID"; "LSUB"; "LIST";
   "STATUS"; "LOGOUT"; "NOOP"; "EXPUNGE"; "STORE"; "SEARCH"].

(** The verbs that are only served with enough tokens on the line, with the
    least number of tokens, the tag and the verb among them. *)
Definition min_tokens (verb : string) : nat :=
  if String.eqb verb "AUTHENTICATE" then 3
  else if String.eqb verb "LOGIN" then 4
  else if String.eqb verb "SELECT" then 3
  else if String.eqb verb "FETCH" then 4
  else if String.eqb verb "UID" then 4
  else if String.eqb verb "STATUS" then 4
  else if String.eqb verb "STORE" then 4
  else 0.

Section Handled.
Context `{EmailLib}.

(** What [dataReceived] can run on a line, by the verb of the line. *)
Inductive handled : string -> M unit -> Prop :=
  | run_nothing : handled EmptyString (ret tt)
  | run_write verb s : handled verb (write s)
  | run_capability tag : handled "CAPABILITY" (handle_capability tag)
  | run_login tag u p : handled "LOGIN" (handle_login tag u p)
  | run_select tag mailbox : handled "SELECT" (handle_select tag mailbox)
  | run_fetch tag num args : handled "FETCH" (handle_fetch tag num args)
  | run_uid_fetch tag command : handled "UID" (handle_uid_fetch tag command)
  | run_uid_store tag num args : handled "UID" (handle_store tag num args)
  | run_lsub tag : handled "LSUB" (handle_lsub tag)
  | run_list tag : handled "LIST" (handle_list tag)
  | run_status tag mailbox items : handled "STATUS" (handle_status tag mailbox items)
  | run_logout tag : handled "LOGOUT" (handle_logout tag)
  | run_noop tag : handled "NOOP" (handle_noop tag)
  | run_expunge tag : handled "EXPUNGE" (handle_expunge tag)
  | run_store tag num args : handled "STORE" (handle_store tag num args)
  | run_search tag args : handled "SEARCH" (handle_search tag args).
End Handled.

(** A computation that leaves the part [f] of the world as it is. *)
Definition keeps_field {A B} (f : World -> B) (m : M A) : Prop :=
  forall w, f (snd (m w)) = f w.

(** A command that leaves every file as it is, or removes files that are
    messages of the session it runs on: a file reads as before, or it was a
    message in the mail directory of a logged-in session and is gone. *)
Definition disk_safe (m : M unit) : Prop :=
  forall w dir name,
    read_file (disk (snd (m w))) dir name = read_file (disk w) dir name
    \/ (read_file (disk (snd (m w))) dir name = None
        /\ logged_in (sess w) = true
        /\ user_mail_dir (sess w) = Some dir
        /\ name ∈ msg_files (sess w)).

(** The message list of a session is a snapshot in order: ascending, each
    name once and ending in [.eml] whatever the case of the letters, and
    every position has a flag entry. *)
Definition snapshot_ok (s : Session) : Prop :=
  StronglySorted String.le (msg_files s)
  /\ NoDup (msg_files s)
  /\ Forall (fun f => endswith ".eml" (lower f) = true) (msg_files s)
  /\ forall i, 1 <= i <= Z.of_nat (length (msg_files s)) -> is_Some (msg_flags s !! i).

(** A computation that writes something whenever it returns, and one that
    never takes anything off the wire. *)
Definition answers {A} (m : M A) : Prop :=
  forall w a, fst (m w) = Ret a ->
              (length (wire w) < length (wire (snd (m w))))%nat.

Definition grows {A} (m : M A) : Prop :=
  forall w, (length (wire w) <= length (wire (snd (m w))))%nat.

(** * Properties *)

(** ** The Python model on examples *)

Example split_demo :
  split "a1  UID fetch 2:* (FLAGS) " = ["a1"; "UID"; "fetch"; "2:*"; "(FLAGS)"].
Proof. reflexivity. Qed.

Example py_int_demo :
  (py_int "12", py_int "-3", py_int "1_0", py_int "1__0", py_int "x", py_int "")
  = (Some 12, Some (-3), Some 10, None, None, None).
Proof. reflexivity. Qed.

Example py_int_edges :
  (py_int " 5 ", py_int "+5", py_int "_1", py_int "1_", py_int "0x10", py_int "1:2")
  = (Some 5, Some 5, None, None, None, None).
Proof. reflexivity. Qed.

Example path_join_demo :
  (path_join (path_join "var/mail" "example.com") "santa", path_join "a/" "b",
   path_join EmptyString "b", path_join "a" "/b")
  = ("var/mail/example.com/santa", "a/b", "b", "/b").
Proof. reflexivity. Qed.

Example sorted_demo : sorted ["b.eml"; "a.eml"; "B.eml"] = ["B.eml"; "a.eml"; "b.eml"].
Proof. reflexivity. Qed.

Example str_of_Z_demo : (str_of_Z 0, str_of_Z 42, str_of_Z (-7)) = ("0", "42", "-7").
Proof. reflexivity. Qed.

Example re_paren_demo :
  (re_paren_group "+FLAGS (\Seen \Deleted)", re_paren_group "+FLAGS \Seen",
   re_paren_group "(a (b) c)", re_paren_group "()", re_paren_group "( x")
  = (Some "\Seen \Deleted", None, Some "a (b", Some EmptyString, None).
Proof. reflexivity. Qed.

Example re_uid_fetch_demo :
  (re_uid_fetch_group "a1 UID FETCH 2:* (FLAGS)",
   re_uid_fetch_group "a1 uid fetch 7 (UID)",
   re_uid_fetch_group "a1 UID FETCH 7 UID",
   re_uid_fetch_group "a1 UID  FETCH 7 (UID)",
   re_uid_fetch_group "xuid fetch 3 ( UID FETCH 1 (UID)",
   re_uid_fetch_group "a1 UID FETCH 1,3 (UID)")
  = (Some "2:*", Some "7", None, None, Some "3", Some "1,3").
Proof. reflexivity. Qed.

(** Text mode on bytes: line ends, and the errors of the UTF-8 decoder (an
    invalid first byte, a character cut short by the end of the file, a
    surrogate, a second byte that is none). *)
Example universal_newlines_demo :
  universal_newlines ("a" +:+ crlf +:+ "b" +:+ String "013" "c" +:+ String "010" "")
  = "a" +:+ String "010" "b" +:+ String "010" "c" +:+ String "010" "".
Proof. reflexivity. Qed.

Example utf8_error_demo :
  utf8_error 0 ("caf" +:+ String "195" (String "169" "")) = None
  /\ utf8_error 0 (String "255" "")
     = Some "'utf-8' codec can't decode byte 0xff in position 0: invalid start byte"
  /\ utf8_error 0 ("ab" +:+ String "226" (String "130" ""))
     = Some "'utf-8' codec can't decode bytes in position 2-3: unexpected end of data"
  /\ utf8_error 0 (String "237" (String "160" (String "128" "")))
     = Some "'utf-8' codec can't decode byte 0xed in position 0: invalid continuation byte"
  /\ utf8_error 0 ("x" +:+ String "195" "(")
     = Some "'utf-8' codec can't decode byte 0xc3 in position 1: invalid continuation byte".
Proof. split_and!; vm_compute; reflexivity. Qed.

Lemma demo_login :
  @dataReceived Plain.lib "a0 LOGIN santa@example.com password123" demo_start
  = (Ret tt, demo_world).
Proof. vm_compute. reflexivity. Qed.

Section Dispatch.
Context `{EmailLib}.

(** The verb that [dataReceived] reads off a line of two tokens or more. *)
Lemma comando_of tag verb args :
  (if (1 <? length (tag :: verb :: args))%nat
   then upper (default EmptyString ((tag :: verb :: args) !! 1%nat))
   else EmptyString) = upper verb.
Proof. reflexivity. Qed.

Lemma handle_noop_run tag w :
  handle_noop tag w = (Ret tt, wrote (tag +:+ " OK NOOP completed" +:+ crlf) w).
Proof. reflexivity. Qed.

Lemma dataReceived_noop data tag verb args w :
  split (strip data) = tag :: verb :: args ->
  upper verb = "NOOP" ->
  dataReceived data w = (Ret tt, wrote (tag +:+ " OK NOOP completed" +:+ crlf) w).
Proof.
  intros Hs Hv. unfold dataReceived. rewrite Hs. cbv zeta.
  rewrite comando_of, Hv. reflexivity.
Qed.
End Dispatch.

(** ** What was written before does not matter *)

Lemma framed_ret {A} (a : A) : framed (ret a).
Proof. intros w pre. reflexivity. Qed.

Lemma framed_raise {A} (e : exn) : framed (@raise A e).
Proof. intros w pre. reflexivity. Qed.

Lemma framed_bind {A B} (m : M A) (k : A -> M B) :
  framed m -> (forall a, framed (k a)) -> framed (bind m k).
Proof.
  intros Hm Hk w pre. unfold bind. rewrite Hm.
  destruct (m w) as [[a|e] w']; simpl; [apply Hk | reflexivity].
Qed.

Lemma framed_write s : framed (write s).
Proof.
  intros w pre. unfold write, set_wire. simpl. by rewrite (assoc_L (++)).
Qed.

Lemma framed_get_sess : framed get_sess.
Proof. intros w pre. reflexivity. Qed.

Lemma framed_get_disk : framed get_disk.
Proof. intros w pre. reflexivity. Qed.

Lemma framed_get_clock : framed get_clock.
Proof. intros w pre. reflexivity. Qed.

Lemma framed_get_storage : framed get_storage.
Proof. intros w pre. reflexivity. Qed.

Lemma framed_modify_sess f : framed (modify_sess f).
Proof. intros w pre. reflexivity. Qed.

Lemma framed_put_disk d : framed (put_disk d).
Proof. intros w pre. reflexivity. Qed.

Lemma framed_loseConnection : framed loseConnection.
Proof. intros w pre. reflexivity. Qed.

Lemma framed_expect {A} e (o : option A) : framed (expect e o).
Proof. destruct o; [apply framed_ret | apply framed_raise]. Qed.

Lemma framed_for_each {A} (l : list A) body :
  (forall x, framed (body x)) -> framed (for_each l body).
Proof.
  intros Hb. induction l as [|x l IH]; simpl.
  - apply framed_ret.
  - apply framed_bind; [apply Hb | intros _; apply IH].
Qed.

Lemma framed_fold_each {A S} (l : list A) (acc : S) body :
  (forall acc x, framed (body acc x)) -> framed (fold_each l acc body).
Proof.
  intros Hb. revert acc. induction l as [|x l IH]; intros acc; simpl.
  - apply framed_ret.
  - apply framed_bind; [apply Hb | intros acc'; apply IH].
Qed.

Create HintDb framed discriminated.
#[local] Hint Resolve framed_ret framed_raise framed_write framed_get_sess
  framed_get_disk framed_get_clock framed_get_storage framed_modify_sess
  framed_put_disk framed_loseConnection framed_expect : framed.

(** Goes through a handler: binds, loops, and the tests of the control flow. *)
Ltac framed_step :=
  match goal with
  | |- framed (bind _ _) => apply framed_bind; [|intros]
  | |- framed (for_each _ _) => apply framed_for_each; intros
  | |- framed (fold_each _ _ _) => apply framed_fold_each; intros
  | |- framed (if ?b then _ else _) => destruct b
  | |- framed (match ?x with _ => _ end) => destruct x
  | |- framed (let '(_, _) := ?x in _) => destruct x
  | |- framed _ => solve [auto with framed]
  end.

Ltac framed_auto := repeat framed_step.

Lemma framed_mail_dir : framed mail_dir.
Proof. unfold mail_dir. framed_auto. Qed.
#[local] Hint Resolve framed_mail_dir : framed.

Section Frame.
Context `{EmailLib}.

Lemma framed_handle_uid_fetch tag command : framed (handle_uid_fetch tag command).
Proof. unfold handle_uid_fetch. framed_auto. unfold uid_fetch_one. framed_auto. Qed.

Lemma framed_handle_store tag num args : framed (handle_store tag num args).
Proof. unfold handle_store, flags_update, flags_at, must_authenticate. framed_auto. Qed.

Lemma framed_handle_expunge tag : framed (handle_expunge tag).
Proof.
  unfold handle_expunge, must_authenticate. framed_auto.
  - unfold expunge_scan. framed_auto.
  - unfold expunge_delete. framed_auto.
Qed.

Lemma framed_handle_fetch tag num args : framed (handle_fetch tag num args).
Proof. unfold handle_fetch, must_authenticate. framed_auto. Qed.

Lemma framed_handle_login tag u p : framed (handle_login tag u p).
Proof. unfold handle_login. framed_auto. Qed.

Lemma framed_dataReceived data : framed (dataReceived data).
Proof.
  unfold dataReceived.
  destruct (split (strip data)) as [|tag tokens]; [apply framed_ret|].
  cbv zeta.
  repeat match goal with
         | |- framed (if ?b then _ else _) => destruct b
         end;
    try apply framed_handle_uid_fetch; try apply framed_handle_store;
    try apply framed_handle_expunge; try apply framed_handle_fetch;
    try apply framed_handle_login;
    unfold handle_capability, handle_select, handle_lsub, handle_list,
      handle_status, handle_logout, handle_noop, handle_search, must_authenticate;
    framed_auto.
Qed.
End Frame.

Lemma set_wire_same w : set_wire (wire w) w = w.
Proof. by destruct w. Qed.

(** A framed computation, seen from the empty wire. *)
Lemma framed_from_empty {A} (m : M A) w :
  framed m ->
  m w = (fst (m (set_wire [] w)),
         set_wire (wire w ++ wire (snd (m (set_wire [] w)))) (snd (m (set_wire [] w)))).
Proof.
  intros Hm. specialize (Hm (set_wire [] w) (wire w)). simpl in Hm.
  rewrite (right_id_L [] (++)) in Hm.
  change (set_wire (wire w) (set_wire [] w)) with (set_wire (wire w) w) in Hm.
  by rewrite set_wire_same in Hm.
Qed.

Lemma response_to_framed (m : M unit) w :
  framed m -> response_to m w = wire (snd (m (set_wire [] w))).
Proof.
  intros Hm. unfold response_to. rewrite (framed_from_empty m w Hm). simpl.
  by rewrite drop_app_length.
Qed.

(** One more line on the wire changes nothing for a framed computation. *)
Lemma framed_after_write (m : M unit) w s :
  framed m ->
  fst (m (wrote s w)) = fst (m w)
  /\ response_to m (wrote s w) = response_to m w
  /\ sess (snd (m (wrote s w))) = sess (snd (m w))
  /\ disk (snd (m (wrote s w))) = disk (snd (m w))
  /\ connected (snd (m (wrote s w))) = connected (snd (m w)).
Proof.
  intros Hm.
  rewrite !(response_to_framed _ _ Hm).
  rewrite (framed_from_empty m (wrote s w) Hm), (framed_from_empty m w Hm).
  done.
Qed.

Section Noop.
Context `{EmailLib}.

(** C8. In every state NOOP writes exactly one tagged OK and leaves the login
    status, the mail directory, the message-file list, the flag mapping and
    the disk as they were, through the handler and through the dispatcher;
    and every command, [UID FETCH 1 (UID)] among them, is answered after a
    NOOP exactly as it is answered without it. *)
Theorem noop_only_answers (w : World) (tag : string) :
  handle_noop tag w = (Ret tt, wrote (tag +:+ " OK NOOP completed" +:+ crlf) w)
  /\ response_to (handle_noop tag) w = [tag +:+ " OK NOOP completed" +:+ crlf]
  /\ sess (snd (handle_noop tag w)) = sess w
  /\ disk (snd (handle_noop tag w)) = disk w
  /\ connected (snd (handle_noop tag w)) = connected w
  /\ (forall data verb args,
        split (strip data) = tag :: verb :: args -> upper verb = "NOOP" ->
        dataReceived data w = handle_noop tag w)
  /\ (forall data,
        let w' := snd (handle_noop tag w) in
        fst (dataReceived data w') = fst (dataReceived data w)
        /\ response_to (dataReceived data) w' = response_to (dataReceived data) w
        /\ sess (snd (dataReceived data w')) = sess (snd (dataReceived data w))
        /\ disk (snd (dataReceived data w')) = disk (snd (dataReceived data w)))
  /\ response_to (dataReceived "a2 UID FETCH 1 (UID)") (snd (handle_noop tag w))
     = response_to (dataReceived "a2 UID FETCH 1 (UID)") w.
Proof.
  assert (Hframe : forall data,
    let w' := snd (handle_noop tag w) in
    fst (dataReceived data w') = fst (dataReceived data w)
    /\ response_to (dataReceived data) w' = response_to (dataReceived data) w
    /\ sess (snd (dataReceived data w')) = sess (snd (dataReceived data w))
    /\ disk (snd (dataReceived data w')) = disk (snd (dataReceived data w))).
  { intros data. simpl.
    destruct (framed_after_write (dataReceived data) w
                (tag +:+ " OK NOOP completed" +:+ crlf) (framed_dataReceived data))
      as (? & ? & ? & ? & _).
    done. }
  split_and!; try done.
  - unfold response_to. simpl. by rewrite drop_app_length.
  - intros data verb args Hs Hv. by apply dataReceived_noop with verb args.
  - apply (Hframe "a2 UID FETCH 1 (UID)").
Qed.
End Noop.

(** The round trip of C8 on the demo mailbox: the same UID before and after
    a NOOP. *)
Example noop_round_trip_demo :
  response_to (@dataReceived Plain.lib "a1 UID FETCH 1 (UID)") demo_world
  = ["* 1 FETCH (UID 1 FLAGS ())" +:+ crlf; "a1 OK UID FETCH completed" +:+ crlf]
  /\ response_to (@dataReceived Plain.lib "a1 UID FETCH 1 (UID)")
       (snd (@dataReceived Plain.lib "a9 NOOP" demo_world))
     = ["* 1 FETCH (UID 1 FLAGS ())" +:+ crlf; "a1 OK UID FETCH completed" +:+ crlf].
Proof. split; vm_compute; reflexivity. Qed.

(** ** Commands before LOGIN *)

Section Gate.
Context `{EmailLib}.

Lemma refused_select tag mailbox w :
  logged_in (sess w) = false ->
  handle_select tag mailbox w
  = (Ret tt, wrote (tag +:+ " NO Debe autenticarse primero" +:+ crlf) w).
Proof. intros Hl. unfold handle_select, bind, get_sess. by rewrite Hl. Qed.

Lemma refused_fetch tag num args w :
  logged_in (sess w) = false ->
  handle_fetch tag num args w
  = (Ret tt, wrote (tag +:+ " NO Debe autenticarse primero" +:+ crlf) w).
Proof. intros Hl. unfold handle_fetch, bind, get_sess. by rewrite Hl. Qed.

Lemma refused_store tag num args w :
  logged_in (sess w) = false ->
  handle_store tag num args w
  = (Ret tt, wrote (tag +:+ " NO Debe autenticarse primero" +:+ crlf) w).
Proof. intros Hl. unfold handle_store, bind, get_sess. by rewrite Hl. Qed.

Lemma refused_expunge tag w :
  logged_in (sess w) = false ->
  handle_expunge tag w
  = (Ret tt, wrote (tag +:+ " NO Debe autenticarse primero" +:+ crlf) w).
Proof. intros Hl. unfold handle_expunge, bind, get_sess. by rewrite Hl. Qed.

Lemma refused_lsub tag w :
  logged_in (sess w) = false ->
  handle_lsub tag w
  = (Ret tt, wrote (tag +:+ " NO Debe autenticarse primero" +:+ crlf) w).
Proof. intros Hl. unfold handle_lsub, bind, get_sess. by rewrite Hl. Qed.

Lemma refused_list tag w :
  logged_in (sess w) = false ->
  handle_list tag w
  = (Ret tt, wrote (tag +:+ " NO Debe autenticarse primero" +:+ crlf) w).
Proof. intros Hl. unfold handle_list, bind, get_sess. by rewrite Hl. Qed.

Lemma refused_search tag args w :
  logged_in (sess w) = false ->
  handle_search tag args w
  = (Ret tt, wrote (tag +:+ " NO Debe autenticarse primero" +:+ crlf) w).
Proof. intros Hl. unfold handle_search, bind, get_sess. by rewrite Hl. Qed.

(** SELECT only writes: the session is the same after it, whatever the
    mailbox name and whether or not the session is logged in. *)
Lemma select_keeps_session tag mailbox w :
  fst (handle_select tag mailbox w) = Ret tt
  /\ sess (snd (handle_select tag mailbox w)) = sess w
  /\ disk (snd (handle_select tag mailbox w)) = disk w.
Proof.
  unfold handle_select, bind, get_sess, must_authenticate.
  destruct (negb (logged_in (sess w))); [done|].
  destruct (String.eqb _ _); done.
Qed.

(** C1, as the code has it.  A session that has not logged in gets the one
    tagged NO [Debe autenticarse primero] for every command that reaches
    SELECT, FETCH, UID STORE, STORE, LSUB, LIST, EXPUNGE or SEARCH, and
    nothing but the wire changes: no file is read or removed, no field of
    the session is touched.  There is no selected state besides: SELECT
    leaves the session as it is, so what a logged-in session is served does
    not depend on a SELECT having been sent. *)
Theorem refused_before_login (w : World) :
  (forall data tag verb args,
     logged_in (sess w) = false ->
     split (strip data) = tag :: verb :: args ->
     needs_login (upper verb) args = true ->
     dataReceived data w
     = (Ret tt, wrote (tag +:+ " NO Debe autenticarse primero" +:+ crlf) w))
  /\ (forall tag mailbox,
        sess (snd (handle_select tag mailbox w)) = sess w
        /\ disk (snd (handle_select tag mailbox w)) = disk w).
Proof.
  split; [|intros; apply select_keeps_session].
  intros data tag verb args Hl Hs Hn.
  unfold dataReceived. rewrite Hs. cbv zeta. rewrite comando_of.
  unfold needs_login in Hn.
  repeat (apply orb_true_iff in Hn as [Hn|Hn]);
    repeat (apply andb_true_iff in Hn as [Hn ?]);
    apply String.eqb_eq in Hn; rewrite Hn; simpl.
  - destruct args as [|a1 args]; [done|]. simpl. by apply refused_select.
  - destruct args as [|a1 [|a2 args]]; [done..|]. simpl. by apply refused_fetch.
  - destruct args as [|a1 [|a2 args]]; [done..|]. simpl in *.
    match goal with E : String.eqb (upper a1) _ = true |- _ =>
      apply String.eqb_eq in E; rewrite E end.
    simpl. by apply refused_store.
  - by apply refused_lsub.
  - by apply refused_list.
  - by apply refused_expunge.
  - destruct args as [|a1 [|a2 args]]; [done..|]. simpl. by apply refused_store.
  - by apply refused_search.
Qed.
End Gate.

(** C1 at work: FETCH on a connection that has not logged in. *)
Lemma refused_before_login_witness :
  @dataReceived Plain.lib "a1 FETCH 1 RFC822" demo_start
  = (Ret tt, wrote ("a1" +:+ " NO Debe autenticarse primero" +:+ crlf) demo_start).
Proof.
  apply (proj1 (@refused_before_login Plain.lib demo_start))
    with (verb := "FETCH") (args := ["1"; "RFC822"]); reflexivity.
Defined.

(** C1 as the specification words it fails: the demo connection logs in and
    sends FETCH without any SELECT, and gets the message, not a NO. *)
Lemma fetch_served_without_select :
  let w1 := snd (@dataReceived Plain.lib "a0 LOGIN santa@example.com password123"
                   demo_start) in
  response_to (@dataReceived Plain.lib "a1 FETCH 2 RFC822") w1
  = ["* 2 FETCH (RFC822 {3}" +:+ crlf +:+ "two" +:+ crlf +:+ ")" +:+ crlf;
     "a1 OK FETCH completed" +:+ crlf]
  /\ response_to (@dataReceived Plain.lib "a1 FETCH 2 RFC822") w1
     <> ["a1 NO Debe autenticarse primero" +:+ crlf].
Proof.
  assert (E : response_to (@dataReceived Plain.lib "a1 FETCH 2 RFC822")
                (snd (@dataReceived Plain.lib "a0 LOGIN santa@example.com password123"
                        demo_start))
              = ["* 2 FETCH (RFC822 {3}" +:+ crlf +:+ "two" +:+ crlf +:+ ")" +:+ crlf;
                 "a1 OK FETCH completed" +:+ crlf]).
  { vm_compute. reflexivity. }
  cbv zeta. rewrite E. split; [reflexivity | discriminate].
Qed.

(** STATUS and UID FETCH have no [logged_in] test: before any LOGIN they are
    answered as for an empty mailbox. *)
Example status_and_uid_fetch_before_login :
  response_to (@dataReceived Plain.lib "a1 STATUS INBOX (MESSAGES)") demo_start
  = ["* STATUS " +:+ dquote +:+ "INBOX" +:+ dquote
       +:+ " (MESSAGES 0 UIDNEXT 1 UNSEEN 0 RECENT 0)" +:+ crlf
       +:+ "a1 OK STATUS completed" +:+ crlf]
  /\ response_to (@dataReceived Plain.lib "a1 UID FETCH 1 (UID)") demo_start
     = ["a1 OK UID FETCH completed" +:+ crlf].
Proof. split; vm_compute; reflexivity. Qed.

(** ** LOGIN *)

Lemma split_on_length c s : length (split_on c s) = S (count_char c s).
Proof.
  induction s as [|a s IH]; [done|]. simpl.
  destruct (Ascii.eqb a c); simpl; [by rewrite IH|].
  destruct (split_on c s) as [|hd tl]; simpl in *; lia.
Qed.

(** Every account name has exactly one [@]. *)
Lemma USUARIOS_one_at username password :
  USUARIOS !! username = Some password -> count_char "@" username = 1%nat.
Proof.
  unfold USUARIOS. intros Hu.
  repeat (apply lookup_insert_Some in Hu as [[<- _]|[_ Hu]]; [reflexivity|]).
  by rewrite lookup_empty in Hu.
Qed.

Lemma handle_login_mismatch tag username password w :
  USUARIOS !! username <> Some password ->
  handle_login tag username password w
  = (Ret tt, wrote (tag +:+ " NO LOGIN fallido" +:+ crlf) w).
Proof. intros Hu. unfold handle_login. by rewrite bool_decide_eq_false_2. Qed.

(** The answer for a malformed name is never sent: LOGIN answers OK when the
    credentials match and [LOGIN fallido] when they do not. *)
Lemma handle_login_answers tag username password w :
  response_to (handle_login tag username password) w
  = [tag +:+ (if bool_decide (USUARIOS !! username = Some password)
              then " OK LOGIN completado" else " NO LOGIN fallido") +:+ crlf].
Proof.
  unfold handle_login. case_bool_decide as Hu.
  - pose proof (split_on_length "@" username) as Hlen.
    rewrite (USUARIOS_one_at _ _ Hu) in Hlen.
    destruct (split_on "@" username) as [|local_part [|domain [|? ?]]]; try done.
    unfold response_to, bind, modify_sess, get_storage, get_disk. simpl.
    destruct (isdir _ _); simpl; by rewrite drop_app_length.
  - unfold response_to. simpl. by rewrite drop_app_length.
Qed.

(** C5, as the code has it.  A LOGIN whose user name does not contain
    exactly one [@] is answered with the credential-mismatch NO,
    [LOGIN fallido]: no account has such a name, and the form of the name is
    looked at only once the credentials have matched.  Nothing but the wire
    changes, so a session that was not logged in is still not logged in. *)
Theorem login_malformed_name_is_mismatch
    (w : World) (tag username password : string) :
  count_char "@" username <> 1%nat ->
  handle_login tag username password w
  = (Ret tt, wrote (tag +:+ " NO LOGIN fallido" +:+ crlf) w).
Proof.
  intros Hn. apply handle_login_mismatch. intros Hu.
  by apply Hn, USUARIOS_one_at with password.
Qed.

Lemma login_malformed_name_is_mismatch_witness :
  count_char "@" "bob" <> 1%nat
  /\ handle_login "a1" "bob" "secret" demo_start
     = (Ret tt, wrote ("a1" +:+ " NO LOGIN fallido" +:+ crlf) demo_start).
Proof.
  split; [vm_compute; lia|].
  apply (login_malformed_name_is_mismatch demo_start "a1" "bob" "secret").
  vm_compute. lia.
Defined.

(** C5 as the specification words it fails: a name with no [@] gets the
    answer of a credential mismatch, not the one for a malformed name. *)
Lemma login_without_at_not_distinct :
  response_to (@dataReceived Plain.lib "a1 LOGIN bob secret") demo_start
  = ["a1 NO LOGIN fallido" +:+ crlf]
  /\ response_to (@dataReceived Plain.lib "a1 LOGIN bob secret") demo_start
     <> ["a1 NO Formato de usuario incorrecto" +:+ crlf].
Proof.
  assert (E : response_to (@dataReceived Plain.lib "a1 LOGIN bob secret") demo_start
              = ["a1 NO LOGIN fallido" +:+ crlf]) by (vm_compute; reflexivity).
  rewrite E. split; [reflexivity | discriminate].
Qed.

(** ** Addresses and envelopes *)

Lemma app_empty_inv (a b : string) : a +:+ b = EmptyString -> a = EmptyString.
Proof. by destruct a. Qed.

Lemma str_app_assoc (a b c : string) : (a +:+ b) +:+ c = a +:+ b +:+ c.
Proof.
  induction a as [|x a IH]; [done|].
  change (String x ((a +:+ b) +:+ c) = String x (a +:+ b +:+ c)). by rewrite IH.
Qed.

Section Envelopes.
Context `{EmailLib}.

Lemma format_address_not_empty entry : format_address entry <> EmptyString.
Proof.
  destruct entry as [display_name email_addr]. unfold format_address.
  destruct (split_first "@" (strip email_addr)) as [[local domain]|]; discriminate.
Qed.

Lemma join_not_empty sep x l : x <> EmptyString -> join sep (x :: l) <> EmptyString.
Proof.
  intros Hx. destruct l as [|y l]; simpl; [done|].
  intros E. by apply app_empty_inv in E.
Qed.

(** The address list of a header value, for every implementation of
    [getaddresses].  A value that holds the single address [a@b.com] with no
    display name is formatted as [(("a" NIL "a" "b.com"))], and in general a
    single address [local@domain] with no display name gets its local part,
    stripped of quotes and spaces, as display name.  An absent header and an
    empty one are formatted as [NIL].  A value that is not empty, for which
    [getaddresses] returns one pair whose address has no [@], is formatted
    as [(NIL)], a list that holds the element [NIL] for that pair, and
    whenever [getaddresses] returns a pair at all the result is not the bare
    [NIL].  No header value is formatted as [()]. *)
Theorem address_list_format :
  (forall v,
     v <> EmptyString ->
     getaddresses [v] = [(EmptyString, "a@b.com")] ->
     parse_address_list (Some v)
     = "((" +:+ dquote +:+ "a" +:+ dquote +:+ " NIL " +:+ dquote +:+ "a" +:+ dquote
            +:+ " " +:+ dquote +:+ "b.com" +:+ dquote +:+ "))")
  /\ (forall v addr local domain,
        v <> EmptyString ->
        getaddresses [v] = [(EmptyString, addr)] ->
        split_first "@" (strip addr) = Some (local, domain) ->
        parse_address_list (Some v)
        = "((" +:+ dquote +:+ strip_chars (dquote +:+ " ") local +:+ dquote +:+ " NIL "
               +:+ dquote +:+ local +:+ dquote +:+ " " +:+ dquote +:+ domain +:+ dquote
               +:+ "))")
  /\ parse_address_list None = "NIL"
  /\ parse_address_list (Some EmptyString) = "NIL"
  /\ (forall v name addr,
        v <> EmptyString ->
        getaddresses [v] = [(name, addr)] ->
        split_first "@" (strip addr) = None ->
        parse_address_list (Some v) = "(NIL)")
  /\ (forall v,
        v <> EmptyString ->
        getaddresses [v] <> [] ->
        parse_address_list (Some v) <> "NIL")
  /\ (forall header_value, parse_address_list header_value = "()" -> False).
Proof.
  assert (Hone : forall v addr local domain,
    v <> EmptyString ->
    getaddresses [v] = [(EmptyString, addr)] ->
    split_first "@" (strip addr) = Some (local, domain) ->
    parse_address_list (Some v)
    = "((" +:+ dquote +:+ strip_chars (dquote +:+ " ") local +:+ dquote +:+ " NIL "
           +:+ dquote +:+ local +:+ dquote +:+ " " +:+ dquote +:+ domain +:+ dquote
           +:+ "))").
  { intros v addr local domain Hv Hg Hs. unfold parse_address_list.
    destruct v as [|c v]; [done|]. simpl. rewrite Hg. simpl.
    unfold format_address. rewrite Hs. simpl. by rewrite !str_app_assoc. }
  split_and!.
  - intros v Hv Hg. by rewrite (Hone v "a@b.com" "a" "b.com").
  - exact Hone.
  - reflexivity.
  - reflexivity.
  - intros v name addr Hv Hg Hs. unfold parse_address_list.
    destruct v as [|c v]; [done|]. simpl. rewrite Hg. simpl.
    unfold format_address. by rewrite Hs.
  - intros v Hv Hg. unfold parse_address_list.
    destruct v as [|c v]; [done|]. simpl.
    destruct (getaddresses [String c v]) as [|entry addresses]; [done|].
    discriminate.
  - intros header_value. unfold parse_address_list.
    destruct (truthy header_value) as [v|]; [|discriminate].
    destruct (getaddresses [v]) as [|entry addresses]; [discriminate|].
    rewrite fmap_cons.
    pose proof (join_not_empty " " (format_address entry)
                  (format_address <$> addresses) (format_address_not_empty entry)) as Hj.
    destruct (join " " _) as [|c rest]; [done|].
    intros E. simpl in E. injection E as E.
    destruct rest; discriminate.
Qed.
End Envelopes.

Lemma address_list_format_witness :
  @parse_address_list Plain.lib (Some "a@b.com")
  = "((" +:+ dquote +:+ "a" +:+ dquote +:+ " NIL " +:+ dquote +:+ "a" +:+ dquote
         +:+ " " +:+ dquote +:+ "b.com" +:+ dquote +:+ "))"
  /\ @parse_address_list Plain.lib (Some "undisclosed") = "(NIL)".
Proof.
  destruct (@address_list_format Plain.lib) as (Hone & _ & _ & _ & Hnone & _).
  split.
  - apply Hone; [discriminate | reflexivity].
  - apply (Hnone _ EmptyString "undisclosed"); [discriminate | reflexivity | reflexivity].
Defined.

(** C7, at the input where the code departs from it and from the docstring
    of [parse_address_list] (NIL when there are no addresses): in the header
    value [undisclosed] no address is found, [getaddresses] returns for it
    the one pair of an empty name and the word itself, and the value is
    formatted as [(NIL)], a list that holds the element [NIL], not as
    [NIL]. *)
Lemma no_address_is_not_NIL :
  Plain.addresses ["undisclosed"] = [(EmptyString, "undisclosed")]
  /\ @parse_address_list Plain.lib (Some "undisclosed") = "(NIL)"
  /\ @parse_address_list Plain.lib (Some "undisclosed") <> "NIL".
Proof.
  assert (E : @parse_address_list Plain.lib (Some "undisclosed") = "(NIL)")
    by (vm_compute; reflexivity).
  rewrite E. split_and!; [vm_compute; reflexivity | reflexivity | discriminate].
Qed.

Section EnvelopeFields.
Context `{EmailLib}.

(** An entry of [getaddresses] whose address has no [@] is formatted as the
    element [NIL] of the list: a value holding one such entry gives [(NIL)]. *)
Lemma address_without_at v name addr :
  v <> EmptyString ->
  getaddresses [v] = [(name, addr)] ->
  split_first "@" (strip addr) = None ->
  parse_address_list (Some v) = "(NIL)".
Proof.
  intros Hv Hg Hs. unfold parse_address_list.
  destruct v as [|c v]; [done|]. simpl. rewrite Hg. simpl.
  unfold format_address. by rewrite Hs.
Qed.

Lemma quoted_not_NIL (s : string) : dquote +:+ s <> "NIL".
Proof. discriminate. Qed.

(** C10. The date and the message-id of an envelope are never [NIL]: both
    are quoted strings.  Without a Date header the date is the current time
    as [formatdate] prints it, and without a Message-ID header the
    message-id is [<msg{uid}@example.com>], both in quotes.  Sender, cc, bcc
    and in-reply-to are the constant [NIL], reply-to is the from list, and
    subject, from, reply-to and to are [NIL] when their header is absent. *)
Theorem envelope_date_and_id_never_NIL (msg : Message) (uid : Z) (now : string) :
  let e := envelope_fields msg uid now in
  _build_envelope msg uid now = render_envelope e
  /\ (date_value e = "NIL" -> False)
  /\ (msg_id e = "NIL" -> False)
  /\ (msg_get msg "Date" = None -> date_value e = dquote +:+ now +:+ dquote)
  /\ (msg_get msg "Message-ID" = None ->
      msg_id e = dquote +:+ "<msg" +:+ str_of_Z uid +:+ "@example.com>" +:+ dquote)
  /\ sender_list e = "NIL" /\ cc_list e = "NIL" /\ bcc_list e = "NIL"
  /\ in_reply_to_value e = "NIL"
  /\ reply_to_list e = from_list e
  /\ (msg_get msg "Subject" = None -> subject_value e = "NIL")
  /\ (msg_get msg "From" = None -> from_list e = "NIL" /\ reply_to_list e = "NIL")
  /\ (msg_get msg "To" = None -> to_list e = "NIL").
Proof.
  cbv zeta. unfold envelope_fields. simpl. split_and!; try reflexivity.
  - destruct (truthy (msg_get msg "Date")); apply quoted_not_NIL.
  - destruct (truthy (msg_get msg "Message-ID")); apply quoted_not_NIL.
  - by intros ->.
  - by intros ->.
  - by intros ->.
  - by intros ->.
  - by intros ->.
Qed.
End EnvelopeFields.

(** The envelope of a message with no header at all. *)
Example envelope_of_bare_message :
  @_build_envelope Plain.lib (Plain.parse "three") 3 "Wed, 04 Nov 2026 12:00:00 +0000"
  = "(" +:+ dquote +:+ "Wed, 04 Nov 2026 12:00:00 +0000" +:+ dquote
        +:+ " NIL NIL NIL NIL NIL NIL NIL NIL "
        +:+ dquote +:+ "<msg3@example.com>" +:+ dquote +:+ ")".
Proof. vm_compute. reflexivity. Qed.

(** ** Running a handler step by step *)

Lemma bind_Ret {A B} (m : M A) (k : A -> M B) w a w' :
  m w = (Ret a, w') -> bind m k w = k a w'.
Proof. intros E. unfold bind. by rewrite E. Qed.

Lemma bind_Raise {A B} (m : M A) (k : A -> M B) w e w' :
  m w = (Raise e, w') -> bind m k w = (Raise e, w').
Proof. intros E. unfold bind. by rewrite E. Qed.

Lemma bind_assoc {A B C} (m : M A) (f : A -> M B) (g : B -> M C) w :
  bind (bind m f) g w = bind m (fun a => bind (f a) g) w.
Proof. unfold bind. by destruct (m w) as [[a|e] w']. Qed.

Lemma flags_at_run n w fl :
  msg_flags (sess w) !! n = Some fl -> flags_at n w = (Ret fl, w).
Proof. intros E. unfold flags_at, bind, get_sess, expect. by rewrite E. Qed.

Lemma flags_update_run n f w fl :
  msg_flags (sess w) !! n = Some fl ->
  flags_update n f w
  = (Ret tt, set_sess (set_msg_flags (<[n := f fl]> (msg_flags (sess w))) (sess w)) w).
Proof.
  intros E. unfold flags_update. by rewrite (bind_Ret _ _ _ _ _ (flags_at_run _ _ _ E)).
Qed.

Lemma set_flags_same w : set_sess (set_msg_flags (msg_flags (sess w)) (sess w)) w = w.
Proof. by destruct w as [[]]. Qed.

(** ** STORE *)

(** The first part of [handle_store]: the entry is made if it is missing and
    the flags are added or taken away. *)
Lemma store_flag_phase n store_args w :
  ((if bool_decide (msg_flags (sess w) !! n = None)
    then modify_sess (fun s => set_msg_flags (<[n:=∅]> (msg_flags s)) s)
    else ret tt) ;;
   (if contains "+FLAGS" (upper store_args) then
      match re_paren_group store_args with
      | Some flags_str =>
          flags_update n (fun fl => fl ∪ list_to_set (split flags_str))
      | None => ret tt
      end
    else if contains "-FLAGS" (upper store_args) then
      match re_paren_group store_args with
      | Some flags_str =>
          flags_update n (fun fl => fl ∖ list_to_set (split flags_str))
      | None => ret tt
      end
    else ret tt)) w
  = (Ret tt, set_sess (set_msg_flags (<[n := stored_flags n store_args (sess w)]>
                                        (msg_flags (sess w))) (sess w)) w).
Proof.
  unfold stored_flags, store_change.
  set (w0 := if bool_decide (msg_flags (sess w) !! n = None)
             then set_sess (set_msg_flags (<[n:=∅]> (msg_flags (sess w))) (sess w)) w
             else w).
  assert (E0 : (if bool_decide (msg_flags (sess w) !! n = None)
    then modify_sess (fun s => set_msg_flags (<[n:=∅]> (msg_flags s)) s)
    else ret tt) w = (Ret tt, w0)).
  { subst w0. by case_bool_decide. }
  rewrite (bind_Ret _ _ _ _ _ E0).
  assert (E1 : msg_flags (sess w0) !! n = Some (default ∅ (msg_flags (sess w) !! n))).
  { subst w0. case_bool_decide as Hk.
    - rewrite Hk. simpl. by rewrite lookup_insert_eq.
    - by destruct (msg_flags (sess w) !! n). }
  assert (E2 : forall fl,
    set_sess (set_msg_flags (<[n := fl]> (msg_flags (sess w0))) (sess w0)) w0
    = set_sess (set_msg_flags (<[n := fl]> (msg_flags (sess w))) (sess w)) w).
  { intros fl. subst w0. case_bool_decide; [|done]. simpl.
    unfold set_sess, set_msg_flags. simpl. by rewrite insert_insert_eq. }
  assert (E3 : w0 = set_sess (set_msg_flags
                      (<[n := default ∅ (msg_flags (sess w) !! n)]> (msg_flags (sess w)))
                      (sess w)) w).
  { rewrite <- E2. rewrite insert_id by done. by rewrite set_flags_same. }
  destruct (contains "+FLAGS" (upper store_args)).
  { destruct (re_paren_group store_args) as [flags_str|].
    - rewrite (flags_update_run _ _ _ _ E1). by rewrite E2.
    - unfold ret. by rewrite E3 at 1. }
  destruct (contains "-FLAGS" (upper store_args)).
  { destruct (re_paren_group store_args) as [flags_str|].
    - rewrite (flags_update_run _ _ _ _ E1). by rewrite E2.
    - unfold ret. by rewrite E3 at 1. }
  unfold ret. by rewrite E3 at 1.
Qed.

Lemma store_flag_phase_then {B} (k : M B) n store_args w :
  ((if bool_decide (msg_flags (sess w) !! n = None)
    then modify_sess (fun s => set_msg_flags (<[n:=∅]> (msg_flags s)) s)
    else ret tt) ;;
   (if contains "+FLAGS" (upper store_args) then
      match re_paren_group store_args with
      | Some flags_str =>
          flags_update n (fun fl => fl ∪ list_to_set (split flags_str))
      | None => ret tt
      end
    else if contains "-FLAGS" (upper store_args) then
      match re_paren_group store_args with
      | Some flags_str =>
          flags_update n (fun fl => fl ∖ list_to_set (split flags_str))
      | None => ret tt
      end
    else ret tt) ;; k) w
  = k (set_sess (set_msg_flags (<[n := stored_flags n store_args (sess w)]>
                                  (msg_flags (sess w))) (sess w)) w).
Proof.
  etrans; [symmetry; apply bind_assoc|].
  apply (bind_Ret _ (fun _ => k) _ tt _ (store_flag_phase n store_args w)).
Qed.

(** [handle_store] on a logged-in session and a numeric argument, whole. *)
Lemma handle_store_numeric tag num store_args n w :
  logged_in (sess w) = true ->
  py_int num = Some n ->
  handle_store tag num store_args w
  = let w1 := store_answered tag n store_args w in
    if bool_decide ("\Deleted" ∈ stored_flags n store_args (sess w)) then
      match py_index (msg_files (sess w)) (n - 1) with
      | None => (Raise IndexError, w1)
      | Some idx =>
          match msg_files (sess w) !! idx with
          | None => (Raise IndexError, w1)
          | Some msg_filename =>
              match user_mail_dir (sess w) with
              | None => (Raise TypeError, w1)
              | Some dir => (Ret tt, store_deleted tag n store_args idx dir msg_filename w)
              end
          end
      end
    else (Ret tt, w1).
Proof.
  intros Hl Hn. unfold handle_store. unfold bind at 1. unfold get_sess at 1.
  rewrite Hl, Hn. cbn [negb].
  etrans; [apply store_flag_phase_then|].
  set (fl := stored_flags n store_args (sess w)).
  set (w0 := set_sess _ w).
  assert (E : msg_flags (sess w0) !! n = Some fl).
  { subst w0. simpl. by rewrite lookup_insert_eq. }
  rewrite (bind_Ret _ _ _ _ _ (flags_at_run _ _ _ E)).
  unfold bind at 1. unfold write at 1. unfold bind at 1. unfold write at 1.
  set (w1 := set_wire _ (set_wire _ w0)).
  assert (E1 : w1 = store_answered tag n store_args w) by reflexivity.
  assert (E' : msg_flags (sess w1) !! n = Some fl) by exact E.
  rewrite (bind_Ret _ _ _ _ _ (flags_at_run _ _ _ E')).
  case_bool_decide as Hd; [|by rewrite <- E1].
  unfold bind at 1. unfold get_sess at 1.
  change (msg_files (sess w1)) with (msg_files (sess w)).
  destruct (py_index (msg_files (sess w)) (n - 1)) as [idx|]; [|by rewrite <- E1].
  cbn [expect]. unfold bind at 1. unfold ret at 1.
  destruct (msg_files (sess w) !! idx) as [msg_filename|]; [|by rewrite <- E1].
  cbn [expect]. unfold bind at 1. unfold ret at 1.
  unfold bind at 1. unfold mail_dir at 1. unfold bind at 1. unfold get_sess at 1.
  change (user_mail_dir (sess w1)) with (user_mail_dir (sess w)).
  destruct (user_mail_dir (sess w)) as [dir|] eqn:Hdir; [|by rewrite <- E1].
  cbn [expect]. unfold ret at 1.
  unfold bind at 1. unfold get_disk at 1.
  change (disk w1) with (disk w).
  assert (Ek : forall w2, msg_flags (sess w2) !! n = Some fl ->
    (modify_sess (fun s => set_msg_files (delete idx (msg_files s)) s) ;;
     flags_at n ;;
     modify_sess (fun s => set_msg_flags (delete n (msg_flags s)) s) ;;
     modify_sess (fun s => set_msg_flags (fresh_flags (length (msg_files s))) s)) w2
    = (Ret tt,
       set_sess {| logged_in := logged_in (sess w2);
                   user_mail_dir := user_mail_dir (sess w2);
                   msg_files := delete idx (msg_files (sess w2));
                   msg_flags := fresh_flags (length (delete idx (msg_files (sess w2)))) |}
         w2)).
  { intros w2 E2. unfold bind at 1. unfold modify_sess at 1.
    set (w3 := set_sess _ w2).
    assert (E3 : msg_flags (sess w3) !! n = Some fl) by exact E2.
    by rewrite (bind_Ret _ _ _ _ _ (flags_at_run _ _ _ E3)). }
  unfold store_deleted. rewrite <- E1.
  destruct (os_remove (disk w) dir msg_filename) as [d|].
  - unfold bind at 1. unfold put_disk at 1. by rewrite Ek.
  - unfold bind at 1. unfold ret at 1. by rewrite Ek.
Qed.

Lemma handle_store_not_numeric tag num store_args w :
  logged_in (sess w) = true ->
  py_int num = None ->
  handle_store tag num store_args w
  = (Ret tt, wrote (tag +:+ " BAD Número de mensaje inválido" +:+ crlf) w).
Proof. intros Hl Hn. unfold handle_store, bind, get_sess. by rewrite Hl, Hn. Qed.

(** What STORE writes for a numeric argument, whatever the number. *)
Lemma handle_store_wire tag num store_args n w :
  logged_in (sess w) = true ->
  py_int num = Some n ->
  wire (snd (handle_store tag num store_args w))
  = wire w ++ [store_flags_line n (stored_flags n store_args (sess w));
               tag +:+ " OK STORE completed" +:+ crlf].
Proof.
  intros Hl Hn. rewrite (handle_store_numeric _ _ _ _ _ Hl Hn). cbv zeta.
  assert (E : wire (store_answered tag n store_args w)
              = wire w ++ [store_flags_line n (stored_flags n store_args (sess w));
                           tag +:+ " OK STORE completed" +:+ crlf]).
  { unfold store_answered. simpl. by rewrite <- (assoc_L (++)). }
  case_bool_decide; [|done].
  destruct (py_index _ _) as [idx|]; [|done].
  destruct (msg_files (sess w) !! idx); [|done].
  destruct (user_mail_dir (sess w)); done.
Qed.

(** ** Flags, indices and files *)

Lemma fresh_flags_keys n :
  ((fun i : Z => (i, (∅ : gset string))) <$> seqZ 1 (Z.of_nat n)).*1
  = seqZ 1 (Z.of_nat n).
Proof.
  rewrite <- list_fmap_compose. rewrite <- (list_fmap_id (seqZ 1 _)) at 2.
  by apply list_fmap_ext.
Qed.

Lemma fresh_flags_lookup n i :
  fresh_flags n !! i = if bool_decide (1 <= i <= Z.of_nat n) then Some ∅ else None.
Proof.
  unfold fresh_flags. case_bool_decide as Hi.
  - apply elem_of_list_to_map_1.
    + rewrite fresh_flags_keys. apply NoDup_seqZ.
    + apply list_elem_of_fmap. exists i. split; [done|]. apply elem_of_seqZ. lia.
  - apply not_elem_of_list_to_map_1. rewrite fresh_flags_keys.
    rewrite elem_of_seqZ. lia.
Qed.


Lemma fresh_flags_empty n i fl : fresh_flags n !! i = Some fl -> fl = ∅.
Proof. rewrite fresh_flags_lookup. case_bool_decide; congruence. Qed.

Lemma py_index_in_range {A} (l : list A) n :
  1 <= n <= Z.of_nat (length l) ->
  py_index l (n - 1) = Some (Z.to_nat (n - 1))
  /\ is_Some (l !! Z.to_nat (n - 1)).
Proof.
  intros Hn. unfold py_index. rewrite bool_decide_eq_true_2 by lia.
  split; [done|]. apply lookup_lt_is_Some. lia.
Qed.

Lemma py_index_beyond {A} (l : list A) n :
  Z.of_nat (length l) < n -> py_index l (n - 1) = None.
Proof.
  intros Hn. unfold py_index.
  rewrite bool_decide_eq_false_2 by lia. by rewrite bool_decide_eq_false_2 by lia.
Qed.

Lemma read_after_remove fs dir name fs' :
  os_remove fs dir name = Some fs' ->
  read_file fs' dir name = None
  /\ (forall d f, (d, f) <> (dir, name) -> read_file fs' d f = read_file fs d f).
Proof.
  unfold os_remove, read_file. intros E.
  destruct (fs !! dir) as [files|] eqn:Ed; [|done].
  destruct (files !! name) eqn:Ef; [|done]. injection E as <-. split.
  - rewrite lookup_insert_eq. simpl. by rewrite lookup_delete_eq.
  - intros d f Hne. destruct (decide (d = dir)) as [->|Hd].
    + rewrite lookup_insert_eq, Ed. simpl. apply lookup_delete_ne. congruence.
    + by rewrite lookup_insert_ne.
Qed.

Lemma read_when_remove_fails fs dir name :
  os_remove fs dir name = None -> read_file fs dir name = None.
Proof.
  unfold os_remove, read_file. intros E.
  destruct (fs !! dir) as [files|] eqn:Ed; [|done]. simpl.
  by destruct (files !! name).
Qed.

Lemma handle_status_run tag mailbox items w :
  handle_status tag mailbox items w
  = (Ret tt, wrote (status_answer tag mailbox (Z.of_nat (length (msg_files (sess w))))) w).
Proof. reflexivity. Qed.

Lemma plus_flags_stored n store_args flags_str flag s :
  contains "+FLAGS" (upper store_args) = true ->
  re_paren_group store_args = Some flags_str ->
  flag ∈ split flags_str ->
  flag ∈ stored_flags n store_args s.
Proof.
  intros Hc Hr Hf. unfold stored_flags, store_change. rewrite Hc, Hr.
  apply elem_of_union_r. by apply elem_of_list_to_set.
Qed.

(** C3. On a logged-in session, STORE on a sequence number [n] between 1 and
    the message count, with [+FLAGS] and a flag list that holds [\Deleted],
    returns normally and at once: the [n]th file is no longer on the disk
    (and no other file changed), the [n]th entry is out of the message list,
    which is one shorter, so that STATUS reports one message less, and
    the flag mapping is the fresh one: every remaining entry has the empty
    flag set. *)
Theorem store_deleted_removes_message
    (w : World) (tag num store_args flags_str dir : string) (n : Z) :
  logged_in (sess w) = true ->
  user_mail_dir (sess w) = Some dir ->
  py_int num = Some n ->
  1 <= n <= Z.of_nat (length (msg_files (sess w))) ->
  contains "+FLAGS" (upper store_args) = true ->
  re_paren_group store_args = Some flags_str ->
  "\Deleted" ∈ split flags_str ->
  exists msg_filename,
    msg_files (sess w) !! Z.to_nat (n - 1) = Some msg_filename
    /\ fst (handle_store tag num store_args w) = Ret tt
    /\ let w' := snd (handle_store tag num store_args w) in
       read_file (disk w') dir msg_filename = None
       /\ (forall d f, (d, f) <> (dir, msg_filename) ->
                       read_file (disk w') d f = read_file (disk w) d f)
       /\ msg_files (sess w') = delete (Z.to_nat (n - 1)) (msg_files (sess w))
       /\ S (length (msg_files (sess w'))) = length (msg_files (sess w))
       /\ (forall t mailbox items,
             handle_status t mailbox items w'
             = (Ret tt, wrote (status_answer t mailbox
                                 (Z.of_nat (length (msg_files (sess w))) - 1)) w'))
       /\ msg_flags (sess w') = fresh_flags (length (msg_files (sess w')))
       /\ (forall i, msg_flags (sess w') !! i
                     = if bool_decide (1 <= i <= Z.of_nat (length (msg_files (sess w'))))
                       then Some ∅ else None)
       /\ logged_in (sess w') = true
       /\ user_mail_dir (sess w') = Some dir.
Proof.
  intros Hl Hdir Hn Hr Hc Hg Hf.
  destruct (py_index_in_range (msg_files (sess w)) n Hr) as [Hi [msg_filename Hm]].
  exists msg_filename. split; [done|].
  rewrite (handle_store_numeric _ _ _ _ _ Hl Hn). cbv zeta.
  rewrite bool_decide_eq_true_2 by (by eapply plus_flags_stored).
  rewrite Hi, Hm, Hdir. split; [done|].
  unfold store_deleted. cbn [snd sess disk set_sess set_disk msg_files msg_flags
                             logged_in user_mail_dir].
  assert (Hlen : S (length (delete (Z.to_nat (n - 1)) (msg_files (sess w))))
                 = length (msg_files (sess w))).
  { rewrite length_delete by (by eexists). destruct (length (msg_files (sess w))); lia. }
  split_and!; try done.
  - change (disk (store_answered tag n store_args w)) with (disk w).
    destruct (os_remove (disk w) dir msg_filename) as [fs'|] eqn:Er; simpl.
    + by apply (read_after_remove _ _ _ _ Er).
    + by apply read_when_remove_fails.
  - intros d f Hne.
    change (disk (store_answered tag n store_args w)) with (disk w).
    destruct (os_remove (disk w) dir msg_filename) as [fs'|] eqn:Er; simpl; [|done].
    by apply (read_after_remove _ _ _ _ Er).
  - intros t mailbox items. rewrite handle_status_run. simpl.
    do 3 f_equal. lia.
  - intros i. apply fresh_flags_lookup.
Qed.

Lemma store_deleted_removes_message_witness :
  exists msg_filename,
    msg_files (sess demo_world) !! Z.to_nat (2 - 1) = Some msg_filename
    /\ fst (handle_store "a1" "2" "+FLAGS (\Deleted)" demo_world) = Ret tt.
Proof.
  destruct (store_deleted_removes_message demo_world "a1" "2" "+FLAGS (\Deleted)"
              "\Deleted" demo_dir 2)
    as (msg_filename & Hm & Hr & _);
    [reflexivity | reflexivity | reflexivity | simpl; lia | reflexivity | reflexivity
     | by constructor | ].
  exists msg_filename. by split.
Defined.

(** STORE 2 with the deletion flag on the demo mailbox. *)
Example store_deleted_demo :
  let w' := snd (@dataReceived Plain.lib "a1 STORE 2 +FLAGS (\Deleted)" demo_world) in
  msg_files (sess w') = ["1.eml"; "3.eml"]
  /\ msg_flags (sess w') = fresh_flags 2
  /\ read_file (disk w') demo_dir "2.eml" = None
  /\ read_file (disk w') demo_dir "3.eml" = Some "three"
  /\ response_to (@dataReceived Plain.lib "a1 STORE 2 +FLAGS (\Deleted)") demo_world
     = ["* 2 FETCH (FLAGS (\Deleted))" +:+ crlf; "a1 OK STORE completed" +:+ crlf].
Proof. cbv zeta. split_and!; vm_compute; reflexivity. Qed.

(** ** Sequence numbers that are not numbers, or not in range *)

Section Ranges.
Context `{EmailLib}.

Lemma handle_fetch_not_numeric tag num fetch_args w :
  logged_in (sess w) = true ->
  py_int num = None ->
  handle_fetch tag num fetch_args w
  = (Ret tt, wrote (tag +:+ " BAD Número de mensaje inválido" +:+ crlf) w).
Proof. intros Hl Hn. unfold handle_fetch, bind, get_sess. by rewrite Hl, Hn. Qed.

Lemma handle_fetch_out_of_range tag num fetch_args n w :
  logged_in (sess w) = true ->
  py_int num = Some n ->
  ~ (1 <= n <= Z.of_nat (length (msg_files (sess w)))) ->
  handle_fetch tag num fetch_args w
  = (Ret tt, wrote (tag +:+ " NO Mensaje no encontrado" +:+ crlf) w).
Proof.
  intros Hl Hn Hr. unfold handle_fetch, bind, get_sess. rewrite Hl, Hn. simpl.
  destruct (decide (n - 1 < 0)) as [Hlt|Hge].
  - by rewrite (bool_decide_eq_true_2 _ Hlt).
  - rewrite (bool_decide_eq_false_2 _ Hge). simpl.
    by rewrite bool_decide_eq_true_2 by lia.
Qed.

(** C4, as the code has it.  On a logged-in session FETCH and STORE answer
    a sequence argument that is not a number with the tagged BAD; FETCH
    answers a number outside 1..message count with the tagged NO; STORE has
    no range test: for every number, in the range or not, it writes the
    untagged FETCH line with the flags of that number after the change and
    then the tagged OK, and nothing else; and unless those flags hold the
    deletion flag, it returns normally and leaves them under that number in
    the flag mapping. *)
Theorem sequence_number_errors (w : World) (tag num args : string) :
  logged_in (sess w) = true ->
  (py_int num = None ->
   handle_fetch tag num args w
   = (Ret tt, wrote (tag +:+ " BAD Número de mensaje inválido" +:+ crlf) w)
   /\ handle_store tag num args w
      = (Ret tt, wrote (tag +:+ " BAD Número de mensaje inválido" +:+ crlf) w))
  /\ (forall n,
        py_int num = Some n ->
        ~ (1 <= n <= Z.of_nat (length (msg_files (sess w)))) ->
        handle_fetch tag num args w
        = (Ret tt, wrote (tag +:+ " NO Mensaje no encontrado" +:+ crlf) w))
  /\ (forall n,
        py_int num = Some n ->
        let flags := store_change args (default ∅ (msg_flags (sess w) !! n)) in
        wire (snd (handle_store tag num args w))
        = wire w ++ ["* " +:+ str_of_Z n +:+ " FETCH (FLAGS ("
                          +:+ join " " (sorted (elements flags)) +:+ "))" +:+ crlf;
                     tag +:+ " OK STORE completed" +:+ crlf]
        /\ ("\Deleted" ∉ flags ->
            fst (handle_store tag num args w) = Ret tt
            /\ msg_flags (sess (snd (handle_store tag num args w))) !! n = Some flags)).
Proof.
  intros Hl. split_and!.
  - intros Hn. split;
      [by apply handle_fetch_not_numeric | by apply handle_store_not_numeric].
  - intros n Hn Hr. by apply handle_fetch_out_of_range with n.
  - intros n Hn flags. split; [by apply handle_store_wire|].
    intros Hd. rewrite (handle_store_numeric _ _ _ _ _ Hl Hn). cbv zeta.
    rewrite bool_decide_eq_false_2 by exact Hd. split; [done|].
    unfold store_answered. simpl. by rewrite lookup_insert_eq.
Qed.
End Ranges.

Lemma sequence_number_errors_witness :
  @handle_fetch Plain.lib "a1" "7" "RFC822" demo_world
  = (Ret tt, wrote ("a1" +:+ " NO Mensaje no encontrado" +:+ crlf) demo_world)
  /\ fst (handle_store "a1" "5" "+FLAGS (\Seen)" demo_world) = Ret tt
  /\ msg_flags (sess (snd (handle_store "a1" "5" "+FLAGS (\Seen)" demo_world))) !! 5
     = Some (store_change "+FLAGS (\Seen)" (default ∅ (msg_flags (sess demo_world) !! 5))).
Proof.
  split.
  - apply (proj1 (proj2 (@sequence_number_errors Plain.lib demo_world "a1" "7" "RFC822"
                           eq_refl)) 7); [reflexivity | simpl; lia].
  - destruct (proj2 (proj2 (@sequence_number_errors Plain.lib demo_world "a1" "5"
                              "+FLAGS (\Seen)" eq_refl)) 5 eq_refl) as [_ Hkept].
    cbv zeta in Hkept. apply Hkept.
    apply (proj1 (bool_decide_eq_false _)). vm_compute. reflexivity.
Defined.

(** C4 as the specification words it fails: STORE on a number beyond the
    message count is answered with the flags and a tagged OK, not with NO. *)
Lemma store_out_of_range_not_refused :
  response_to (@dataReceived Plain.lib "a1 STORE 5 +FLAGS (\Seen)") demo_world
  = ["* 5 FETCH (FLAGS (\Seen))" +:+ crlf; "a1 OK STORE completed" +:+ crlf]
  /\ fst (@dataReceived Plain.lib "a1 STORE 5 +FLAGS (\Seen)" demo_world) = Ret tt
  /\ length (msg_files (sess demo_world)) = 3%nat.
Proof. split_and!; vm_compute; reflexivity. Qed.

(** ** STORE with the deletion flag beyond the message count *)

(** On a logged-in session, STORE with the deletion flag on a number above
    the message count writes its two answers and then fails on
    [self.msg_files[n - 1]]. *)
Lemma handle_store_deleted_beyond tag num store_args flags_str n w :
  logged_in (sess w) = true ->
  py_int num = Some n ->
  Z.of_nat (length (msg_files (sess w))) < n ->
  contains "+FLAGS" (upper store_args) = true ->
  re_paren_group store_args = Some flags_str ->
  "\Deleted" ∈ split flags_str ->
  handle_store tag num store_args w
  = (Raise IndexError, store_answered tag n store_args w).
Proof.
  intros Hl Hn Hr Hc Hg Hf.
  rewrite (handle_store_numeric _ _ _ _ _ Hl Hn). cbv zeta.
  rewrite bool_decide_eq_true_2 by (by eapply plus_flags_stored).
  by rewrite py_index_beyond.
Qed.

(** C9. There are a logged-in session and a number above its message count
    for which STORE with [+FLAGS (\Deleted)] writes the untagged FETCH line
    of the flags and the tagged OK, and then lets the [IndexError] of
    [self.msg_files[n - 1]] escape: nothing was removed, and the flag stays
    recorded under that number. *)
Theorem store_deleted_index_error :
  exists (w : World) (num : string) (n : Z),
    logged_in (sess w) = true
    /\ py_int num = Some n
    /\ Z.of_nat (length (msg_files (sess w))) < n
    /\ py_index (msg_files (sess w)) (n - 1) = None
    /\ fst (handle_store "a1" num "+FLAGS (\Deleted)" w) = Raise IndexError
    /\ response_to (handle_store "a1" num "+FLAGS (\Deleted)") w
       = ["* " +:+ num +:+ " FETCH (FLAGS (\Deleted))" +:+ crlf;
          "a1 OK STORE completed" +:+ crlf]
    /\ msg_files (sess (snd (handle_store "a1" num "+FLAGS (\Deleted)" w)))
       = msg_files (sess w)
    /\ disk (snd (handle_store "a1" num "+FLAGS (\Deleted)" w)) = disk w.
Proof.
  exists demo_world, "5", 5.
  assert (E : handle_store "a1" "5" "+FLAGS (\Deleted)" demo_world
              = (Raise IndexError, store_answered "a1" 5 "+FLAGS (\Deleted)" demo_world)).
  { apply handle_store_deleted_beyond with "\Deleted";
      [reflexivity | reflexivity | simpl; lia | reflexivity | reflexivity | by constructor]. }
  split_and!; try reflexivity; try (simpl; lia); try (by rewrite E).
  all: unfold response_to; rewrite E; vm_compute; reflexivity.
Qed.

(** ** UID FETCH *)

Section UidFetch.
Context `{EmailLib}.

(** The loop of [handle_uid_fetch] over the messages after [pre]: one answer
    for each UID asked for, in order, and nothing else changes. *)
Lemma uid_fetch_loop command uids w dir :
  user_mail_dir (sess w) = Some dir ->
  forall l pre o,
    msg_files (sess w) = pre ++ l ->
    for_each (enumerate (Z.of_nat (length pre)) l) (uid_fetch_one (upper command) uids)
      (set_wire o w)
    = (Ret tt,
       set_wire (o ++ ((fun uid => uid_fetch_response (upper command) (clock w) uid
                                     (uid_fetch_text w uid))
                       <$> filter (fun uid => uid_in uid uids)
                             (seqZ (Z.of_nat (length pre) + 1) (Z.of_nat (length l))))) w).
Proof.
  intros Hdir l. induction l as [|f l IH]; intros pre o Hfiles.
  - simpl. unfold ret. by rewrite (right_id_L [] (++)).
  - cbn [enumerate for_each].
    rewrite seqZ_cons by (simpl; lia).
    assert (Hf : msg_files (sess w) !! length pre = Some f).
    { rewrite Hfiles. by apply list_lookup_middle. }
    assert (Hnext : Z.of_nat (length pre) + 1 = Z.of_nat (length (pre ++ [f]))).
    { rewrite length_app. simpl. lia. }
    assert (Hlen : Z.pred (Z.of_nat (length (f :: l))) = Z.of_nat (length l)).
    { simpl. lia. }
    assert (Hfiles' : msg_files (sess w) = (pre ++ [f]) ++ l).
    { by rewrite <- (assoc_L (++)). }
    assert (Htext : uid_fetch_text w (Z.of_nat (length pre) + 1)
                    = text_or_empty (open_read (disk w) dir f)).
    { unfold uid_fetch_text.
      replace (Z.to_nat (Z.of_nat (length pre) + 1 - 1)) with (length pre) by lia.
      rewrite Hf. simpl. by rewrite Hdir. }
    rewrite Hlen, filter_cons.
    unfold bind at 1. unfold uid_fetch_one at 1. cbv zeta.
    destruct (uid_in (Z.of_nat (length pre) + 1) uids) eqn:Hin; cbn [negb].
    + rewrite decide_True by done.
      unfold bind at 1. unfold mail_dir at 1. unfold bind at 1. unfold get_sess at 1.
      cbn [sess set_wire]. rewrite Hdir. cbn [expect]. unfold ret at 1.
      unfold bind at 1. unfold get_disk at 1. unfold bind at 1. unfold get_clock at 1.
      unfold write at 1. cbn [disk clock wire set_wire].
      rewrite fmap_cons, Htext.
      unfold Z.succ. rewrite Hnext.
      change (set_wire ?a (set_wire o w)) with (set_wire a w).
      etrans; [exact (IH (pre ++ [f]) _ Hfiles')|].
      by rewrite <- (assoc_L (++)).
    + rewrite decide_False by (by intros []).
      unfold ret at 1. unfold Z.succ. rewrite Hnext.
      exact (IH (pre ++ [f]) _ Hfiles').
Qed.

(** [handle_uid_fetch], whole: an answer for each emitted UID, then the
    tagged OK. *)
Lemma handle_uid_fetch_run tag command w :
  has_mail_dir (sess w) ->
  handle_uid_fetch tag command w
  = (Ret tt,
     set_wire (wire w
               ++ ((fun uid => uid_fetch_response (upper command) (clock w) uid
                                 (uid_fetch_text w uid))
                   <$> emitted_uids command (length (msg_files (sess w))))
               ++ [tag +:+ " OK UID FETCH completed" +:+ crlf]) w).
Proof.
  intros Hd. unfold handle_uid_fetch. unfold bind at 1. unfold get_sess at 1. cbv zeta.
  unfold emitted_uids.
  destruct Hd as [Hnil|[dir Hdir]].
  - rewrite Hnil. simpl. unfold bind, ret, write. simpl. done.
  - pose proof (uid_fetch_loop command
                  (uid_fetch_uids command (Z.of_nat (length (msg_files (sess w)))))
                  w dir Hdir (msg_files (sess w)) [] (wire w) eq_refl) as Hloop.
    rewrite set_wire_same in Hloop. simpl in Hloop.
    rewrite (bind_Ret _ _ _ _ _ Hloop).
    unfold write. simpl. by rewrite <- (assoc_L (++)).
Qed.

(** Every answer of UID FETCH names its UID, twice. *)
Lemma uid_fetch_response_uid command_upper now uid raw :
  exists rest,
    uid_fetch_response command_upper now uid raw
    = "* " +:+ str_of_Z uid +:+ " FETCH (UID " +:+ str_of_Z uid +:+ rest.
Proof.
  unfold uid_fetch_response.
  destruct (contains "BODY.PEEK[HEADER.FIELDS" command_upper); [by eexists|].
  destruct (contains "RFC822" command_upper); by eexists.
Qed.
End UidFetch.

Lemma elem_of_emitted_uids command n uid :
  uid ∈ emitted_uids command n
  <-> 1 <= uid <= Z.of_nat n /\ uid_in uid (uid_fetch_uids command (Z.of_nat n)) = true.
Proof.
  unfold emitted_uids. rewrite list_elem_of_filter, elem_of_seqZ.
  rewrite Is_true_true. intuition lia.
Qed.

Lemma filter_all {A} (P : A -> Prop) `{!forall x, Decision (P x)} (l : list A) :
  (forall x, x ∈ l -> P x) -> filter P l = l.
Proof.
  induction l as [|x l IH]; intros Hl; [done|].
  rewrite filter_cons_True by (apply Hl; left).
  f_equal. apply IH. intros y Hy. apply Hl. by right.
Qed.

Lemma emitted_uids_all command n :
  uid_fetch_uids command (Z.of_nat n) = UidRange 1 (Z.of_nat n + 1) ->
  emitted_uids command n = seqZ 1 (Z.of_nat n).
Proof.
  intros E. unfold emitted_uids. rewrite E.
  apply filter_all. intros uid Hu. apply elem_of_seqZ in Hu.
  simpl. apply Is_true_true, bool_decide_eq_true. lia.
Qed.

Lemma emitted_uids_NoDup command n : NoDup (emitted_uids command n).
Proof. apply NoDup_filter, NoDup_seqZ. Qed.

(** *** The sequence set of a command in its usual form

    In [tag UID FETCH seq_set (items)], with single spaces, the search finds
    [seq_set]: no match starts inside the tag or at the space after it. *)

Lemma lower_char_space c : lower_char c = " "%char -> py_isspace c = true.
Proof. by destruct c as [[] [] [] [] [] [] [] []]. Qed.

Lemma startswith_app p s : startswith p s = true -> exists r, s = p +:+ r.
Proof.
  revert s. induction p as [|a p IH]; intros s Hs; [by exists s|].
  destruct s as [|b s]; [done|]. simpl in Hs.
  destruct (Ascii.eqb a b) eqn:E; [|done].
  apply Ascii.eqb_eq in E as ->. destruct (IH s Hs) as [r ->]. by exists r.
Qed.

Lemma substring_all s : String.substring 0 (String.length s) s = s.
Proof. induction s as [|c s IH]; [done|]. simpl. by rewrite IH. Qed.

Lemma span_by_token p s r :
  str_all p s = true ->
  (match r with EmptyString => true | String c _ => negb (p c) end) = true ->
  span_by p (s +:+ r) = (s, r).
Proof.
  intros Hs Hr. induction s as [|c s IH].
  - destruct r as [|c r]; [done|]. simpl in *.
    change (EmptyString +:+ String c r) with (String c r). simpl.
    by destruct (p c).
  - simpl in Hs. apply andb_true_iff in Hs as [Hc Hs].
    change (String c s +:+ r) with (String c (s +:+ r)). simpl.
    by rewrite Hc, (IH Hs).
Qed.

Lemma uid_fetch_match_canonical seq_set rest :
  is_token seq_set = true ->
  seq_set <> EmptyString ->
  uid_fetch_match_here ("UID FETCH " +:+ seq_set +:+ " (" +:+ rest) = Some seq_set.
Proof.
  intros Ht Hne. unfold uid_fetch_match_here.
  change ("UID FETCH " +:+ seq_set +:+ " (" +:+ rest)
    with (String "U" (String "I" (String "D" (String " " (String "F" (String "E"
          (String "T" (String "C" (String "H" (String " "
          (seq_set +:+ " (" +:+ rest))))))))))).
  cbn [String.substring String.length lower str_map startswith].
  simpl Nat.sub. rewrite Nat.sub_0_r, substring_all.
  rewrite (span_by_token _ seq_set (" (" +:+ rest) Ht eq_refl).
  destruct seq_set; [done|]. reflexivity.
Qed.

Lemma uid_fetch_no_match_in_tag r rest :
  is_token r = true ->
  r <> EmptyString ->
  uid_fetch_match_here (r +:+ " UID FETCH " +:+ rest) = None.
Proof.
  intros Ht Hne. unfold uid_fetch_match_here.
  assert (E : startswith "uid fetch "
                (lower (String.substring 0 10 (r +:+ " UID FETCH " +:+ rest))) = false);
    [|by rewrite E].
  apply not_true_is_false. intros [r' Hs]%startswith_app.
  change ("uid fetch " +:+ r')
    with (String "u" (String "i" (String "d" (String " " (String "f" (String "e"
          (String "t" (String "c" (String "h" (String " " r')))))))))) in Hs.
  destruct r as [|c1 [|c2 [|c3 [|c4 r]]]]; [done|..].
  - change (String c1 EmptyString +:+ " UID FETCH " +:+ rest)
      with (String c1 (String " " (String "U" (String "I" (String "D" (String " "
            (String "F" (String "E" (String "T" (String "C" (String "H" (String " "
            rest)))))))))))) in Hs.
    simpl in Hs. simplify_eq.
  - change (String c1 (String c2 EmptyString) +:+ " UID FETCH " +:+ rest)
      with (String c1 (String c2 (String " " (String "U" (String "I" (String "D"
            (String " " (String "F" (String "E" (String "T" (String "C" (String "H"
            (String " " rest))))))))))))) in Hs.
    simpl in Hs. simplify_eq.
  - change (String c1 (String c2 (String c3 EmptyString)) +:+ " UID FETCH " +:+ rest)
      with (String c1 (String c2 (String c3 (String " " (String "U" (String "I"
            (String "D" (String " " (String "F" (String "E" (String "T" (String "C"
            (String "H" (String " " rest)))))))))))))) in Hs.
    simpl in Hs. simplify_eq.
  - change (String c1 (String c2 (String c3 (String c4 r))) +:+ " UID FETCH " +:+ rest)
      with (String c1 (String c2 (String c3 (String c4 (r +:+ " UID FETCH " +:+ rest)))))
      in Hs.
    simpl in Hs. injection Hs as _ _ _ Hc4 _.
    apply lower_char_space in Hc4.
    unfold is_token in Ht. simpl in Ht.
    repeat (apply andb_true_iff in Ht as [? Ht]).
    destruct (py_isspace c4); done.
Qed.

Lemma re_uid_fetch_group_here s g :
  uid_fetch_match_here s = Some g -> re_uid_fetch_group s = Some g.
Proof.
  intros E. destruct s as [|c s]; [discriminate E|].
  cbn [re_uid_fetch_group]. by rewrite E.
Qed.

Lemma re_uid_fetch_group_next c s :
  uid_fetch_match_here (String c s) = None ->
  re_uid_fetch_group (String c s) = re_uid_fetch_group s.
Proof. intros E. cbn [re_uid_fetch_group]. by rewrite E. Qed.

Lemma re_uid_fetch_group_canonical tag seq_set rest :
  is_token tag = true ->
  is_token seq_set = true ->
  seq_set <> EmptyString ->
  re_uid_fetch_group (tag +:+ " UID FETCH " +:+ seq_set +:+ " (" +:+ rest) = Some seq_set.
Proof.
  intros Htag Ht Hne. induction tag as [|c tag IH].
  - change (EmptyString +:+ " UID FETCH " +:+ seq_set +:+ " (" +:+ rest)
      with (String " " ("UID FETCH " +:+ seq_set +:+ " (" +:+ rest)).
    rewrite re_uid_fetch_group_next by reflexivity.
    by apply re_uid_fetch_group_here, uid_fetch_match_canonical.
  - pose proof (uid_fetch_no_match_in_tag (String c tag) (seq_set +:+ " (" +:+ rest) Htag)
      as Hno.
    change (String c tag +:+ " UID FETCH " +:+ seq_set +:+ " (" +:+ rest)
      with (String c (tag +:+ " UID FETCH " +:+ seq_set +:+ " (" +:+ rest)) in *.
    rewrite re_uid_fetch_group_next by (by apply Hno).
    apply IH. unfold is_token in *. simpl in Htag. by apply andb_true_iff in Htag as [_ ?].
Qed.

Section UidFetchAnswers.
Context `{EmailLib}.

(** C6, as the code has it.  UID FETCH answers for the UIDs of its sequence
    set that lie in 1..message count, once each and in order, every answer
    naming its UID, and then writes exactly one tagged OK, whatever the
    number of answers.  The sequence set is what the search for
    [UID fetch (\S+)\s+\(] finds in the command.  For a single number [N]
    the UIDs are those of [{N}] in the mailbox; for [N:M] those of [N..M] in
    the mailbox; for [N:*] those from [N] to the last message; and when
    nothing is found or a number does not parse, all of 1..message count. *)
Theorem uid_fetch_answers (w : World) (tag command : string) :
  has_mail_dir (sess w) ->
  let n := length (msg_files (sess w)) in
  handle_uid_fetch tag command w
  = (Ret tt,
     set_wire (wire w
               ++ ((fun uid => uid_fetch_response (upper command) (clock w) uid
                                 (uid_fetch_text w uid))
                   <$> emitted_uids command n)
               ++ [tag +:+ " OK UID FETCH completed" +:+ crlf]) w)
  /\ (forall uid, exists rest,
        uid_fetch_response (upper command) (clock w) uid (uid_fetch_text w uid)
        = "* " +:+ str_of_Z uid +:+ " FETCH (UID " +:+ str_of_Z uid +:+ rest)
  /\ NoDup (emitted_uids command n)
  /\ (forall tag0 seq_set items,
        is_token tag0 = true -> is_token seq_set = true -> seq_set <> EmptyString ->
        command = tag0 +:+ " UID FETCH " +:+ seq_set +:+ " (" +:+ items ->
        re_uid_fetch_group command = Some seq_set)
  /\ (forall seq_set N,
        re_uid_fetch_group command = Some seq_set ->
        split_first ":" seq_set = None ->
        py_int seq_set = Some N ->
        forall uid, uid ∈ emitted_uids command n
                    <-> uid = N /\ 1 <= uid <= Z.of_nat n)
  /\ (forall seq_set start_str end_str N M,
        re_uid_fetch_group command = Some seq_set ->
        split_first ":" seq_set = Some (start_str, end_str) ->
        py_int start_str = Some N ->
        end_str <> "*" ->
        py_int end_str = Some M ->
        forall uid, uid ∈ emitted_uids command n
                    <-> N <= uid <= M /\ 1 <= uid <= Z.of_nat n)
  /\ (forall seq_set start_str N,
        re_uid_fetch_group command = Some seq_set ->
        split_first ":" seq_set = Some (start_str, "*") ->
        py_int start_str = Some N ->
        forall uid, uid ∈ emitted_uids command n
                    <-> N <= uid /\ 1 <= uid <= Z.of_nat n)
  /\ (re_uid_fetch_group command = None ->
      emitted_uids command n = seqZ 1 (Z.of_nat n))
  /\ (forall seq_set,
        re_uid_fetch_group command = Some seq_set ->
        split_first ":" seq_set = None ->
        py_int seq_set = None ->
        emitted_uids command n = seqZ 1 (Z.of_nat n))
  /\ (forall seq_set start_str end_str,
        re_uid_fetch_group command = Some seq_set ->
        split_first ":" seq_set = Some (start_str, end_str) ->
        py_int start_str = None \/ (end_str <> "*" /\ py_int end_str = None) ->
        emitted_uids command n = seqZ 1 (Z.of_nat n)).
Proof.
  intros Hd n. split_and!.
  - by apply handle_uid_fetch_run.
  - intros uid. apply uid_fetch_response_uid.
  - apply emitted_uids_NoDup.
  - intros tag0 seq_set items Htag Hseq Hne ->.
    by apply re_uid_fetch_group_canonical.
  - intros seq_set N Hg Hs Hi uid. rewrite elem_of_emitted_uids.
    unfold uid_fetch_uids. rewrite Hg, Hs, Hi. simpl.
    rewrite bool_decide_eq_true, list_elem_of_singleton. intuition lia.
  - intros seq_set start_str end_str N M Hg Hs Hi Hne Hj uid.
    rewrite elem_of_emitted_uids. unfold uid_fetch_uids. rewrite Hg, Hs, Hi.
    apply String.eqb_neq in Hne. rewrite Hne, Hj. simpl.
    rewrite bool_decide_eq_true. intuition lia.
  - intros seq_set start_str N Hg Hs Hi uid.
    rewrite elem_of_emitted_uids. unfold uid_fetch_uids. rewrite Hg, Hs, Hi.
    simpl. rewrite bool_decide_eq_true. intuition lia.
  - intros Hg. apply emitted_uids_all. unfold uid_fetch_uids. by rewrite Hg.
  - intros seq_set Hg Hs Hi. apply emitted_uids_all. unfold uid_fetch_uids.
    by rewrite Hg, Hs, Hi.
  - intros seq_set start_str end_str Hg Hs Hbad. apply emitted_uids_all.
    unfold uid_fetch_uids. rewrite Hg, Hs.
    destruct Hbad as [Hi|[Hne Hj]].
    + by rewrite Hi.
    + apply String.eqb_neq in Hne. rewrite Hne, Hj.
      by destruct (py_int start_str).
Qed.
End UidFetchAnswers.

Lemma uid_fetch_answers_witness :
  has_mail_dir (sess demo_world)
  /\ response_to (@handle_uid_fetch Plain.lib "a1" "a1 UID FETCH 2:* (UID)") demo_world
     = ["* 2 FETCH (UID 2 FLAGS ())" +:+ crlf; "* 3 FETCH (UID 3 FLAGS ())" +:+ crlf;
        "a1 OK UID FETCH completed" +:+ crlf].
Proof.
  assert (Hd : has_mail_dir (sess demo_world)) by (right; by eexists).
  split; [exact Hd|].
  unfold response_to.
  rewrite (proj1 (@uid_fetch_answers Plain.lib demo_world "a1"
                    "a1 UID FETCH 2:* (UID)" Hd)).
  vm_compute. reflexivity.
Defined.

(** C6 as the specification words it fails: a single number beyond the
    message count is well formed, and no answer is written for it. *)
Lemma uid_fetch_beyond_count_is_silent :
  re_uid_fetch_group "a1 UID FETCH 5 (UID)" = Some "5"
  /\ py_int "5" = Some 5
  /\ length (msg_files (sess demo_world)) = 3%nat
  /\ response_to (@dataReceived Plain.lib "a1 UID FETCH 5 (UID)") demo_world
     = ["a1 OK UID FETCH completed" +:+ crlf]
  /\ emitted_uids "a1 UID FETCH 5 (UID)" 3 = [].
Proof. split_and!; vm_compute; reflexivity. Qed.

(** Sequence sets on the demo mailbox of three messages. *)
Example emitted_uids_demo :
  emitted_uids "a1 UID FETCH 2 (UID)" 3 = [2]
  /\ emitted_uids "a1 UID FETCH 2:3 (UID)" 3 = [2; 3]
  /\ emitted_uids "a1 UID FETCH 0:9 (UID)" 3 = [1; 2; 3]
  /\ emitted_uids "a1 UID FETCH 2:* (UID)" 3 = [2; 3]
  /\ emitted_uids "a1 UID FETCH 2: (UID)" 3 = [1; 2; 3]
  /\ emitted_uids "a1 UID FETCH 1,3 (UID)" 3 = [1; 2; 3]
  /\ emitted_uids "a1 UID FETCH 2 UID" 3 = [1; 2; 3].
Proof. split_and!; vm_compute; reflexivity. Qed.

(** ** Commands that leave the session alone *)

Lemma keeps_ret {A} (a : A) : keeps_sess (ret a).
Proof. by intros w. Qed.

Lemma keeps_raise {A} (e : exn) : keeps_sess (@raise A e).
Proof. by intros w. Qed.

Lemma keeps_bind {A B} (m : M A) (k : A -> M B) :
  keeps_sess m -> (forall a, keeps_sess (k a)) -> keeps_sess (bind m k).
Proof.
  intros Hm Hk w. unfold bind. specialize (Hm w).
  destruct (m w) as [[a|e] w']; simpl in *; [|done].
  by rewrite Hk.
Qed.

Lemma keeps_write s : keeps_sess (write s).
Proof. by intros w. Qed.

Lemma keeps_get_sess : keeps_sess get_sess.
Proof. by intros w. Qed.

Lemma keeps_get_disk : keeps_sess get_disk.
Proof. by intros w. Qed.

Lemma keeps_get_clock : keeps_sess get_clock.
Proof. by intros w. Qed.

Lemma keeps_get_storage : keeps_sess get_storage.
Proof. by intros w. Qed.

Lemma keeps_put_disk d : keeps_sess (put_disk d).
Proof. by intros w. Qed.

Lemma keeps_loseConnection : keeps_sess loseConnection.
Proof. by intros w. Qed.

Lemma keeps_expect {A} e (o : option A) : keeps_sess (expect e o).
Proof. destruct o; [apply keeps_ret | apply keeps_raise]. Qed.

Lemma keeps_for_each {A} (l : list A) body :
  (forall x, keeps_sess (body x)) -> keeps_sess (for_each l body).
Proof.
  intros Hb. induction l as [|x l IH]; simpl.
  - apply keeps_ret.
  - apply keeps_bind; [apply Hb | intros _; apply IH].
Qed.

Create HintDb keeps discriminated.
#[local] Hint Resolve keeps_ret keeps_raise keeps_write keeps_get_sess keeps_get_disk
  keeps_get_clock keeps_get_storage keeps_put_disk keeps_loseConnection
  keeps_expect : keeps.

Ltac keeps_step :=
  match goal with
  | |- keeps_sess (bind _ _) => apply keeps_bind; [|intros]
  | |- keeps_sess (for_each _ _) => apply keeps_for_each; intros
  | |- keeps_sess (if ?b then _ else _) => destruct b
  | |- keeps_sess (match ?x with _ => _ end) => destruct x
  | |- keeps_sess (let '(_, _) := ?x in _) => destruct x
  | |- keeps_sess _ => solve [auto with keeps]
  end.

Ltac keeps_auto := repeat keeps_step.

Lemma keeps_mail_dir : keeps_sess mail_dir.
Proof. unfold mail_dir. keeps_auto. Qed.
#[local] Hint Resolve keeps_mail_dir : keeps.

Lemma keeps_tidy (m : M unit) : keeps_sess m -> tidy m.
Proof. intros Hm w Hi. rewrite Hm. split; [done | by left]. Qed.

Section Keeps.
Context `{EmailLib}.

Lemma keeps_handle_fetch tag num args : keeps_sess (handle_fetch tag num args).
Proof. unfold handle_fetch, must_authenticate. keeps_auto. Qed.

Lemma keeps_handle_uid_fetch tag command : keeps_sess (handle_uid_fetch tag command).
Proof. unfold handle_uid_fetch. keeps_auto. unfold uid_fetch_one. keeps_auto. Qed.

Lemma keeps_handle_select tag mailbox : keeps_sess (handle_select tag mailbox).
Proof. unfold handle_select, must_authenticate. keeps_auto. Qed.

Lemma keeps_handle_status tag mailbox items : keeps_sess (handle_status tag mailbox items).
Proof. unfold handle_status. keeps_auto. Qed.

Lemma keeps_handle_lsub tag : keeps_sess (handle_lsub tag).
Proof. unfold handle_lsub, must_authenticate. keeps_auto. Qed.

Lemma keeps_handle_list tag : keeps_sess (handle_list tag).
Proof. unfold handle_list, must_authenticate. keeps_auto. Qed.

Lemma keeps_handle_search tag args : keeps_sess (handle_search tag args).
Proof. unfold handle_search, must_authenticate. keeps_auto. Qed.

Lemma keeps_handle_logout tag : keeps_sess (handle_logout tag).
Proof. unfold handle_logout. keeps_auto. Qed.

Lemma keeps_handle_capability tag : keeps_sess (handle_capability tag).
Proof. unfold handle_capability. keeps_auto. Qed.

Lemma keeps_handle_noop tag : keeps_sess (handle_noop tag).
Proof. unfold handle_noop. keeps_auto. Qed.
End Keeps.

(** ** What holds on every session of a connection *)

Lemma no_pending_fresh s k : msg_flags s = fresh_flags k -> no_pending_delete s.
Proof.
  intros E i fl Hi _. rewrite E in Hi. apply fresh_flags_empty in Hi as ->.
  set_solver.
Qed.

(** LOGIN: the session is untouched on a mismatch, and has a mail directory
    and fresh flags on success. *)
Lemma tidy_handle_login tag username password : tidy (handle_login tag username password).
Proof.
  intros w Hinv. unfold handle_login. case_bool_decide as Hu; [|by split; [|left]].
  pose proof (split_on_length "@" username) as Hlen.
  rewrite (USUARIOS_one_at _ _ Hu) in Hlen.
  destruct (split_on "@" username) as [|local_part [|domain [|? ?]]]; try done.
  unfold bind, modify_sess, get_storage, get_disk. simpl.
  destruct (isdir _ _); simpl.
  - split; [split_and!|right; done].
    + right. by eexists.
    + by eexists.
    + by eapply no_pending_fresh.
  - split; [split_and!|right; done].
    + by left.
    + by eexists.
    + by apply (no_pending_fresh _ 0%nat).
Qed.

Lemma py_index_lt {A} (l : list A) i idx :
  py_index l i = Some idx -> (idx < length l)%nat.
Proof.
  unfold py_index. repeat case_bool_decide; intros [= <-]; lia.
Qed.

Lemma py_index_None_range {A} (l : list A) n :
  py_index l (n - 1) = None -> ~ (1 <= n <= Z.of_nat (length l)).
Proof.
  unfold py_index. repeat case_bool_decide; intros [=]; lia.
Qed.

(** STORE: either the flag set of [n] is changed and does not hold the
    deletion flag, or [n] is no position of the list, or the message is
    removed and the flags are fresh. *)
Lemma tidy_handle_store tag num store_args : tidy (handle_store tag num store_args).
Proof.
  intros w Hinv.
  destruct (decide (logged_in (sess w) = true)) as [Hl|Hl];
    [|apply not_true_is_false in Hl; rewrite refused_store by done; by split; [|left]].
  destruct (py_int num) as [n|] eqn:Hn;
    [|rewrite handle_store_not_numeric by done; by split; [|left]].
  destruct Hinv as (Hdir & Hlog & Hpend).
  rewrite (handle_store_numeric _ _ _ _ _ Hl Hn). cbv zeta.
  assert (Hans : msg_files (sess (store_answered tag n store_args w)) = msg_files (sess w)
                 /\ user_mail_dir (sess (store_answered tag n store_args w))
                    = user_mail_dir (sess w)
                 /\ msg_flags (sess (store_answered tag n store_args w))
                    = <[n := stored_flags n store_args (sess w)]> (msg_flags (sess w)))
    by done.
  destruct Hans as (Hf & Hd & Hfl).
  assert (Hkeep : "\Deleted" ∉ stored_flags n store_args (sess w)
                  \/ ~ (1 <= n <= Z.of_nat (length (msg_files (sess w)))) ->
                  session_inv (sess (store_answered tag n store_args w))).
  { intros Hcase. split_and!.
    - unfold has_mail_dir. by rewrite Hf, Hd.
    - by rewrite Hd.
    - intros i fl Hi Hr. rewrite Hfl in Hi. rewrite Hf in Hr.
      apply lookup_insert_Some in Hi as [[<- <-]|[Hne Hi]].
      + destruct Hcase; [done | lia].
      + by apply (Hpend i). }
  case_bool_decide as Hdel; [|split; [apply Hkeep; by left | by left]].
  destruct (py_index (msg_files (sess w)) (n - 1)) as [idx|] eqn:Hidx;
    [|split; [apply Hkeep; right; by apply py_index_None_range | by left]].
  pose proof (py_index_lt _ _ _ Hidx) as Hlt.
  destruct (msg_files (sess w) !! idx) as [msg_filename|] eqn:Hm;
    [|apply lookup_ge_None in Hm; lia].
  destruct Hdir as [Hnil|[dir Hdir]]; [rewrite Hnil in Hlt; simpl in Hlt; lia|].
  rewrite Hdir. unfold store_deleted. simpl. split; [split_and!|by right].
  - right. by eexists.
  - by eexists.
  - by eapply no_pending_fresh.
Qed.

Lemma enumerate_range {A} (l : list A) s i x :
  (i, x) ∈ enumerate s l -> s <= i < s + Z.of_nat (length l).
Proof.
  revert s. induction l as [|y l IH]; intros s Hin; simpl in *.
  - by apply elem_of_nil in Hin.
  - apply elem_of_cons in Hin as [[= -> ->]|Hin]; [lia|].
    apply IH in Hin. lia.
Qed.

Lemma expunge_scan_skip flags acc i msg_filename w :
  (forall fl, flags !! i = Some fl -> "\Deleted" ∉ fl) ->
  expunge_scan flags acc (i, msg_filename) w = (Ret acc, w).
Proof.
  intros Hno. unfold expunge_scan.
  destruct (flags !! i) as [fl|]; [|done].
  rewrite (bool_decide_eq_false_2 ("\Deleted" ∈ fl)) by (by apply Hno).
  by rewrite andb_false_r.
Qed.

Lemma expunge_scan_nothing flags l acc w :
  (forall i msg_filename fl,
     (i, msg_filename) ∈ l -> flags !! i = Some fl -> "\Deleted" ∉ fl) ->
  fold_each l acc (expunge_scan flags) w = (Ret acc, w).
Proof.
  induction l as [|[i msg_filename] l IH]; intros Hno; [done|].
  cbn [fold_each]. unfold bind.
  rewrite expunge_scan_skip by (intros fl; apply (Hno i msg_filename); left).
  apply IH. intros j f fl Hin. apply (Hno j f). by right.
Qed.

(** With no deletion flag pending, EXPUNGE removes nothing. *)
Lemma handle_expunge_nothing tag w :
  logged_in (sess w) = true ->
  no_pending_delete (sess w) ->
  handle_expunge tag w = (Ret tt, wrote (tag +:+ " OK EXPUNGE completed" +:+ crlf) w).
Proof.
  intros Hl Hpend. unfold handle_expunge. unfold bind at 1. unfold get_sess at 1.
  rewrite Hl. cbn [negb].
  unfold bind at 1. rewrite expunge_scan_nothing; [done|].
  intros i f fl Hin Hi. apply (Hpend i fl Hi).
  apply enumerate_range in Hin. lia.
Qed.

Lemma tidy_handle_expunge tag : tidy (handle_expunge tag).
Proof.
  intros w Hinv.
  destruct (decide (logged_in (sess w) = true)) as [Hl|Hl].
  - rewrite handle_expunge_nothing by (done || apply Hinv). by split; [|left].
  - apply not_true_is_false in Hl. rewrite refused_expunge by done. by split; [|left].
Qed.

Section Invariant.
Context `{EmailLib}.

Lemma tidy_dataReceived data : tidy (dataReceived data).
Proof.
  unfold dataReceived.
  destruct (split (strip data)) as [|tag tokens]; [by apply keeps_tidy|].
  cbv zeta.
  repeat match goal with
         | |- tidy (if ?b then _ else _) => destruct b
         end;
    try apply tidy_handle_login; try apply tidy_handle_store;
    try apply tidy_handle_expunge;
    apply keeps_tidy;
    auto using keeps_handle_fetch, keeps_handle_uid_fetch, keeps_handle_select,
      keeps_handle_status, keeps_handle_lsub, keeps_handle_list, keeps_handle_search,
      keeps_handle_logout, keeps_handle_capability, keeps_handle_noop, keeps_write.
Qed.

Lemma reachable_inv w : reachable w -> session_inv (sess w).
Proof.
  induction 1 as [storage fs now|w data _ IH|w fs now _ IH].
  - split_and!; [by left|done|].
    intros i fl Hi. simpl in Hi. by rewrite lookup_empty in Hi.
  - by apply tidy_dataReceived.
  - exact IH.
Qed.

(** A logged-in session of a connection has its mail directory. *)
Lemma logged_in_has_dir w :
  reachable w -> logged_in (sess w) = true -> is_Some (user_mail_dir (sess w)).
Proof. intros Hr. by apply (reachable_inv w Hr). Qed.
End Invariant.

Lemma reachable_demo_world : @reachable Plain.lib demo_world.
Proof.
  change demo_world
    with (snd (Ret tt : result unit, demo_world)).
  rewrite <- demo_login. apply reach_command, reach_start.
Qed.

Section Renumbering.
Context `{EmailLib}.

(** EXPUNGE on a session of a connection removes nothing: STORE removes a
    message as soon as it gets the deletion flag, so none is left to find. *)
Lemma handle_expunge_reachable tag w :
  reachable w -> sess (snd (handle_expunge tag w)) = sess w.
Proof.
  intros Hr. destruct (reachable_inv w Hr) as (_ & _ & Hpend).
  destruct (logged_in (sess w)) eqn:Hl.
  - by rewrite handle_expunge_nothing.
  - by rewrite refused_expunge.
Qed.

End Renumbering.


(** STORE with the deletion flag, then EXPUNGE, on the demo mailbox: the
    message is gone after the STORE, EXPUNGE only answers, STATUS counts two
    messages and FETCH 2 reads what was the third file. *)
Example store_then_expunge_demo :
  let w1 := snd (@dataReceived Plain.lib "a1 STORE 2 +FLAGS (\Deleted)" demo_world) in
  let w2 := snd (@dataReceived Plain.lib "a2 EXPUNGE" w1) in
  sess w2 = sess w1
  /\ response_to (@dataReceived Plain.lib "a2 EXPUNGE") w1
     = ["a2 OK EXPUNGE completed" +:+ crlf]
  /\ response_to (@dataReceived Plain.lib "a3 STATUS INBOX (MESSAGES)") w2
     = [status_answer "a3" "INBOX" 2]
  /\ response_to (@dataReceived Plain.lib "a4 FETCH 2 RFC822") w2
     = ["* 2 FETCH (RFC822 {5}" +:+ crlf +:+ "three" +:+ crlf +:+ ")" +:+ crlf;
        "a4 OK FETCH completed" +:+ crlf].
Proof. cbv zeta. split_and!; vm_compute; reflexivity. Qed.

(** * More of the server

    What the dispatcher and the handlers do beyond the properties above. *)

(** ** Blank lines, and the tokens of a line *)

Lemma str_all_lstrip p s : str_all p (lstrip_by p s) = true -> str_all p s = true.
Proof.
  induction s as [|c s IH]; [done|]. simpl.
  destruct (p c) eqn:Hc; simpl; [exact IH|]. by rewrite Hc.
Qed.

Lemma rstrip_empty p s : rstrip_by p s = EmptyString -> str_all p s = true.
Proof.
  induction s as [|c s IH]; [done|]. simpl.
  destruct (rstrip_by p s) as [|a r]; simpl; [|done].
  destruct (p c); [auto|done].
Qed.

Lemma str_all_rstrip p s : str_all p (rstrip_by p s) = true -> str_all p s = true.
Proof.
  induction s as [|c s IH]; [done|]. simpl.
  destruct (rstrip_by p s) as [|a r] eqn:Hr; simpl.
  - destruct (p c) eqn:Hc; simpl.
    + intros _. by apply rstrip_empty.
    + by rewrite Hc.
  - intros [Hc Hs]%andb_true_iff. rewrite Hc. simpl. by apply IH.
Qed.

Lemma split_go_token cur s : split_go (Some cur) s <> [].
Proof.
  revert cur. induction s as [|c s IH]; intros cur; simpl; [done|].
  destruct (py_isspace c); [done|apply IH].
Qed.

Lemma split_blank s : str_all py_isspace s = true -> split s = [].
Proof.
  unfold split. induction s as [|c s IH]; [done|]. simpl.
  intros [Hc Hs]%andb_true_iff. rewrite Hc. simpl. by apply IH.
Qed.

Lemma split_nil_blank s : split s = [] -> str_all py_isspace s = true.
Proof.
  unfold split. induction s as [|c s IH]; [done|]. simpl.
  destruct (py_isspace c); simpl; [done|].
  intros E. by apply split_go_token in E.
Qed.

Lemma lstrip_blank p s : str_all p s = true -> lstrip_by p s = EmptyString.
Proof.
  induction s as [|c s IH]; [done|]. simpl. intros [Hc Hs]%andb_true_iff.
  rewrite Hc. by apply IH.
Qed.

Lemma split_lstrip s : split (lstrip_by py_isspace s) = split s.
Proof.
  unfold split. induction s as [|c s IH]; [done|]. simpl.
  destruct (py_isspace c) eqn:Hc; [done|]. simpl. by rewrite Hc.
Qed.

Lemma split_go_rstrip cur s :
  split_go cur (rstrip_by py_isspace s) = split_go cur s.
Proof.
  revert cur. induction s as [|c s IH]; intros cur; [done|]. simpl.
  destruct (rstrip_by py_isspace s) as [|a r] eqn:Hr; simpl.
  - destruct (py_isspace c) eqn:Hc; simpl.
    + apply rstrip_empty, split_blank in Hr. unfold split in Hr. rewrite Hr.
      by rewrite app_nil_r.
    + rewrite Hc. by rewrite <- IH.
  - destruct (py_isspace c) eqn:Hc; by rewrite <- IH.
Qed.

(** [split()] does not see the whitespace that [strip()] removes. *)
Lemma split_strip s : split (strip s) = split s.
Proof. unfold strip, strip_by, split. rewrite split_go_rstrip. apply split_lstrip. Qed.

Lemma split_strip_blank data :
  split (strip data) = [] <-> str_all py_isspace data = true.
Proof.
  rewrite split_strip. split; [apply split_nil_blank | apply split_blank].
Qed.

Section Lines.
Context `{EmailLib}.

Lemma dataReceived_handled data : handled (comando data) (dataReceived data).
Proof.
  unfold dataReceived, comando.
  destruct (split (strip data)) as [|tag [|verb args]]; [constructor|constructor|].
  cbv zeta. rewrite comando_of.
  repeat match goal with
         | |- handled _ (if String.eqb ?c ?v && _ then _ else _) =>
             destruct (String.eqb_spec c v) as [->|?]; cbn [andb]
         | |- handled _ (if String.eqb ?c ?v then _ else _) =>
             destruct (String.eqb_spec c v) as [->|?]
         | |- handled _ (if ?b then _ else _) => destruct b
         end; try constructor.
Qed.

(** X1. A line of nothing but whitespace (the empty line among them) is
    ignored: nothing is written and nothing changes. *)
Theorem blank_line_ignored (data : string) (w : World) :
  str_all py_isspace data = true ->
  dataReceived data w = (Ret tt, w).
Proof.
  intros Hb. apply split_strip_blank in Hb. unfold dataReceived. by rewrite Hb.
Qed.
End Lines.

Lemma blank_line_ignored_witness :
  str_all py_isspace (" " +:+ crlf) = true
  /\ @dataReceived Plain.lib (" " +:+ crlf) demo_world = (Ret tt, demo_world).
Proof.
  split; [reflexivity|].
  apply (@blank_line_ignored Plain.lib (" " +:+ crlf) demo_world). reflexivity.
Defined.

(** ** Lines that are not served *)

Section NotServed.
Context `{EmailLib}.

(** X2. A line whose second token is, in upper case, none of the fourteen
    verbs of the server, or that has a tag and nothing else, is answered with
    one tagged [BAD Comando no reconocido], and nothing else changes. *)
Theorem unknown_verb_is_BAD (data tag : string) (rest : list string) (w : World) :
  split data = tag :: rest ->
  comando data ∉ verbs ->
  dataReceived data w
  = (Ret tt, wrote (tag +:+ " BAD Comando no reconocido" +:+ crlf) w).
Proof.
  unfold dataReceived, comando. rewrite split_strip. intros -> Hv.
  destruct rest as [|verb args]; [reflexivity|].
  cbv zeta. rewrite comando_of.
  assert (Hne : forall v, v ∈ verbs -> String.eqb (upper verb) v = false).
  { intros v Hin. apply String.eqb_neq. by intros <-. }
  repeat match goal with
         | |- context [String.eqb (upper verb) ?v] =>
             rewrite (Hne v) by (unfold verbs; set_solver); cbn [andb]
         end.
  reflexivity.
Qed.

(** X3. LOGIN, SELECT, FETCH, UID, STATUS and STORE with fewer tokens on the
    line than they need (four, three for SELECT, the tag and the verb
    counted), and AUTHENTICATE with fewer than three, are answered like an
    unknown verb. *)
Theorem missing_arguments_is_BAD (data tag : string) (rest : list string) (w : World) :
  split data = tag :: rest ->
  (length (tag :: rest) < min_tokens (comando data))%nat ->
  dataReceived data w
  = (Ret tt, wrote (tag +:+ " BAD Comando no reconocido" +:+ crlf) w).
Proof.
  unfold dataReceived, comando. rewrite split_strip. intros -> Hlt.
  destruct rest as [|verb args]; [reflexivity|].
  cbv zeta. rewrite comando_of. unfold min_tokens in Hlt.
  repeat match type of Hlt with
         | context [String.eqb (upper verb) ?v] =>
             destruct (String.eqb_spec (upper verb) v) as [E|?]
         end;
    try (simpl in Hlt; lia);
    rewrite E;
    match type of Hlt with
    | (?n < ?k)%nat => assert (Hk : (k <=? n)%nat = false) by (apply Nat.leb_gt; exact Hlt)
    end;
    cbn [String.eqb Ascii.eqb Bool.eqb andb]; rewrite ?Hk; reflexivity.
Qed.

(** X4. Only the tokens of a line matter: two lines with the same tokens,
    whatever the whitespace around and between them, are handled alike,
    unless the verb is UID (UID FETCH reads the line itself again). *)
Theorem only_tokens_matter (d1 d2 : string) (w : World) :
  split d1 = split d2 ->
  comando d1 <> "UID" ->
  dataReceived d1 w = dataReceived d2 w.
Proof.
  unfold dataReceived, comando. rewrite !split_strip. intros <- Hv.
  destruct (split d1) as [|tag [|verb args]]; [reflexivity|reflexivity|].
  cbv zeta. rewrite comando_of.
  apply String.eqb_neq in Hv. rewrite Hv. reflexivity.
Qed.

(** X5. UID STORE is STORE: the number after it is used as a sequence
    number, and the line is handled as the same line without the UID token. *)
Theorem uid_store_is_store
    (d1 d2 tag uid store num arg : string) (args : list string) (w : World) :
  split d1 = tag :: uid :: store :: num :: arg :: args ->
  split d2 = tag :: store :: num :: arg :: args ->
  upper uid = "UID" ->
  upper store = "STORE" ->
  dataReceived d1 w = handle_store tag num (join " " (arg :: args)) w
  /\ dataReceived d2 w = handle_store tag num (join " " (arg :: args)) w.
Proof.
  unfold dataReceived. rewrite !split_strip. intros -> -> Hu Hs.
  cbv zeta. rewrite !comando_of. rewrite Hu, Hs.
  split; [|reflexivity].
  cbn [String.eqb Ascii.eqb Bool.eqb andb length Nat.leb lookup list_lookup default id].
  rewrite Hs. reflexivity.
Qed.
End NotServed.

Lemma unknown_verb_is_BAD_witness :
  @dataReceived Plain.lib "a1 COPY 1 INBOX" demo_world
  = (Ret tt, wrote ("a1" +:+ " BAD Comando no reconocido" +:+ crlf) demo_world).
Proof.
  apply (@unknown_verb_is_BAD Plain.lib "a1 COPY 1 INBOX" "a1" ["COPY"; "1"; "INBOX"]).
  - reflexivity.
  - change (comando "a1 COPY 1 INBOX") with "COPY". unfold verbs.
    rewrite !not_elem_of_cons. split_and!; try discriminate. apply not_elem_of_nil.
Defined.

Lemma missing_arguments_is_BAD_witness :
  @dataReceived Plain.lib "a1 login santa@example.com" demo_start
  = (Ret tt, wrote ("a1" +:+ " BAD Comando no reconocido" +:+ crlf) demo_start).
Proof.
  apply (@missing_arguments_is_BAD Plain.lib "a1 login santa@example.com" "a1"
           ["login"; "santa@example.com"]).
  - reflexivity.
  - vm_compute. lia.
Defined.

Lemma only_tokens_matter_witness :
  @dataReceived Plain.lib ("  a1   noop " +:+ crlf) demo_world
  = @dataReceived Plain.lib "a1 noop" demo_world.
Proof.
  apply (@only_tokens_matter Plain.lib ("  a1   noop " +:+ crlf) "a1 noop").
  - reflexivity.
  - vm_compute. discriminate.
Defined.

Lemma uid_store_is_store_witness :
  @dataReceived Plain.lib "a1 uid store 2 +FLAGS (\Seen)" demo_world
  = handle_store "a1" "2" (join " " ["+FLAGS"; "(\Seen)"]) demo_world
  /\ @dataReceived Plain.lib "a1 store 2 +FLAGS (\Seen)" demo_world
     = handle_store "a1" "2" (join " " ["+FLAGS"; "(\Seen)"]) demo_world.
Proof.
  apply (@uid_store_is_store Plain.lib "a1 uid store 2 +FLAGS (\Seen)"
           "a1 store 2 +FLAGS (\Seen)" "a1" "uid" "store" "2" "+FLAGS" ["(\Seen)"]);
    reflexivity.
Defined.

(** ** What a command may change *)

Lemma field_bind {A B C} (f : World -> C) (m : M A) (k : A -> M B) :
  keeps_field f m -> (forall a, keeps_field f (k a)) -> keeps_field f (bind m k).
Proof.
  intros Hm Hk w. unfold bind. specialize (Hm w).
  destruct (m w) as [[a|e] w']; simpl in *; [|done].
  by rewrite Hk.
Qed.

Lemma field_for_each {A C} (f : World -> C) (l : list A) body :
  (forall x, keeps_field f (body x)) -> keeps_field f (for_each l body).
Proof.
  intros Hb. induction l as [|x l IH]; simpl; [done|].
  apply field_bind; [apply Hb | intros _; apply IH].
Qed.

Lemma field_fold_each {A S C} (f : World -> C) (l : list A) (acc : S) body :
  (forall acc x, keeps_field f (body acc x)) -> keeps_field f (fold_each l acc body).
Proof.
  intros Hb. revert acc. induction l as [|x l IH]; intros acc; simpl; [done|].
  apply field_bind; [apply Hb | intros acc'; apply IH].
Qed.

Lemma field_expect {A C} (f : World -> C) e (o : option A) : keeps_field f (expect e o).
Proof. by destruct o. Qed.

(** Goes through a handler, down to the steps that touch the world. *)
Ltac field_step :=
  match goal with
  | |- keeps_field _ (bind _ _) => apply field_bind; [|intros]
  | |- keeps_field _ (for_each _ _) => apply field_for_each; intros
  | |- keeps_field _ (fold_each _ _ _) => apply field_fold_each; intros
  | |- keeps_field _ (expect _ _) => apply field_expect
  | |- keeps_field _ (if ?b then _ else _) => destruct b
  | |- keeps_field _ (match ?x with _ => _ end) => destruct x
  | |- keeps_field _ (let '(_, _) := ?x in _) => destruct x
  | |- keeps_field _ _ => by intros ?
  end.

Ltac field_unfold :=
  unfold handle_capability, handle_status, handle_login, handle_select, handle_fetch,
    handle_uid_fetch, handle_lsub, handle_list, handle_logout, handle_noop,
    handle_expunge, handle_store, handle_search, must_authenticate, flags_update,
    flags_at, mail_dir, uid_fetch_one, expunge_scan, expunge_delete.

Ltac field_auto := repeat (field_unfold; field_step).

(** A goal on one field of the world after a handler. *)
Ltac by_field :=
  match goal with
  | |- ?f (snd (?m ?w)) = ?f ?w =>
      let Hk := fresh in
      assert (Hk : keeps_field f m) by field_auto; apply Hk
  | |- ?g (sess (snd (?m ?w))) = ?g (sess ?w) =>
      let Hk := fresh in
      assert (Hk : keeps_field (fun w => g (sess w)) m) by field_auto; apply Hk
  end.

Section Fields.
Context `{EmailLib}.

(** X6. No command changes the mail storage path or the clock; the
    connection is closed by LOGOUT only; the session changes by LOGIN, STORE,
    UID STORE and EXPUNGE only, and the disk by the last three only. *)
Theorem commands_change_little (data : string) (w : World) :
  mail_storage (snd (dataReceived data w)) = mail_storage w
  /\ clock (snd (dataReceived data w)) = clock w
  /\ (connected (snd (dataReceived data w)) = connected w
      \/ comando data = "LOGOUT" /\ connected (snd (dataReceived data w)) = false)
  /\ (sess (snd (dataReceived data w)) = sess w
      \/ comando data ∈ ["LOGIN"; "UID"; "EXPUNGE"; "STORE"])
  /\ (disk (snd (dataReceived data w)) = disk w
      \/ comando data ∈ ["UID"; "EXPUNGE"; "STORE"]).
Proof.
  pose proof (dataReceived_handled data) as Hh.
  revert Hh. generalize (comando data) (dataReceived data). intros verb m Hh.
  assert (Hs : keeps_field mail_storage m) by (destruct Hh; field_auto).
  assert (Hc : keeps_field clock m) by (destruct Hh; field_auto).
  split; [apply Hs|]. split; [apply Hc|]. split_and!.
  - destruct Hh; try (left; by_field). by right.
  - destruct Hh; try (left; by_field); right; set_solver.
  - destruct Hh; try (left; by_field); right; set_solver.
Qed.

End Fields.

(** ** LOGIN takes a snapshot of the mailbox *)

Lemma elem_of_listdir fs dir f : f ∈ listdir fs dir <-> is_Some (read_file fs dir f).
Proof.
  unfold listdir, read_file. destruct (fs !! dir) as [files|]; simpl.
  - rewrite list_elem_of_fmap. split.
    + intros [[k v] [-> Hin]]. apply elem_of_map_to_list in Hin. by eexists.
    + intros [v Hv]. exists (f, v). split; [done|]. by apply elem_of_map_to_list.
  - split; [by intros ?%elem_of_nil | by intros [? ?]].
Qed.

Lemma NoDup_listdir fs dir : NoDup (listdir fs dir).
Proof.
  unfold listdir. destruct (fs !! dir); [apply NoDup_fst_map_to_list | constructor].
Qed.

Lemma sorted_Permutation l : sorted l ≡ₚ l.
Proof. apply merge_sort_Permutation. Qed.

Lemma sorted_StronglySorted l : StronglySorted String.le (sorted l).
Proof. apply (StronglySorted_merge_sort _). Qed.

Lemma sorted_length l : length (sorted l) = length l.
Proof. by rewrite sorted_Permutation. Qed.

(** The message list that LOGIN makes of a directory. *)
Lemma snapshot_elem_of fs dir f :
  f ∈ sorted (filter (fun f => endswith ".eml" (lower f)) (listdir fs dir))
  <-> is_Some (read_file fs dir f) /\ endswith ".eml" (lower f) = true.
Proof.
  rewrite sorted_Permutation, list_elem_of_filter, elem_of_listdir.
  rewrite Is_true_true. tauto.
Qed.

Lemma snapshot_NoDup fs dir :
  NoDup (sorted (filter (fun f => endswith ".eml" (lower f)) (listdir fs dir))).
Proof. rewrite sorted_Permutation. apply NoDup_filter, NoDup_listdir. Qed.

Lemma USUARIOS_split username password :
  USUARIOS !! username = Some password ->
  exists local_part domain, split_on "@" username = [local_part; domain].
Proof.
  intros Hu. pose proof (split_on_length "@" username) as Hlen.
  rewrite (USUARIOS_one_at _ _ Hu) in Hlen.
  destruct (split_on "@" username) as [|local_part [|domain [|? ?]]]; try done.
  by exists local_part, domain.
Qed.

(** [handle_login] when the credentials match, whole. *)
Lemma handle_login_match tag username password local_part domain w :
  USUARIOS !! username = Some password ->
  split_on "@" username = [local_part; domain] ->
  handle_login tag username password w
  = let dir := path_join (path_join (mail_storage w) domain) local_part in
    let files :=
      if isdir (disk w) dir
      then sorted (filter (fun f => endswith ".eml" (lower f)) (listdir (disk w) dir))
      else [] in
    (Ret tt,
     wrote (tag +:+ " OK LOGIN completado" +:+ crlf)
       (set_sess {| logged_in := true; user_mail_dir := Some dir; msg_files := files;
                    msg_flags := fresh_flags (length files) |} w)).
Proof.
  intros Hu Hs. unfold handle_login. rewrite bool_decide_eq_true_2 by done. rewrite Hs.
  unfold bind, modify_sess, get_storage, get_disk. simpl.
  by destruct (isdir _ _).
Qed.

(** X7. A LOGIN with the name and password of an account returns normally and
    leaves a logged-in session on the directory of the account, under the
    mail storage, the domain first.  Its message list holds exactly the names
    of that directory that end in [.eml], whatever the case of the letters,
    each once and in ascending order, whatever the order the directory is
    listed in; it is empty when the directory does not exist.  Every message
    starts with the empty flag set.  The disk is not touched. *)
Theorem login_takes_snapshot (w : World) (tag username password : string) :
  USUARIOS !! username = Some password ->
  exists local_part domain,
    split_on "@" username = [local_part; domain]
    /\ fst (handle_login tag username password w) = Ret tt
    /\ response_to (handle_login tag username password) w
       = [tag +:+ " OK LOGIN completado" +:+ crlf]
    /\ disk (snd (handle_login tag username password w)) = disk w
    /\ let dir := path_join (path_join (mail_storage w) domain) local_part in
       let s' := sess (snd (handle_login tag username password w)) in
       logged_in s' = true
       /\ user_mail_dir s' = Some dir
       /\ (forall f, f ∈ msg_files s'
                     <-> is_Some (read_file (disk w) dir f)
                         /\ endswith ".eml" (lower f) = true)
       /\ NoDup (msg_files s')
       /\ StronglySorted String.le (msg_files s')
       /\ (forall i, msg_flags s' !! i
                     = if bool_decide (1 <= i <= Z.of_nat (length (msg_files s')))
                       then Some ∅ else None).
Proof.
  intros Hu. destruct (USUARIOS_split _ _ Hu) as (local_part & domain & Hs).
  exists local_part, domain. split; [done|].
  rewrite handle_login_answers. rewrite bool_decide_eq_true_2 by done.
  rewrite (handle_login_match _ _ _ _ _ _ Hu Hs). cbv zeta.
  split_and!; try done.
  - intros f. simpl. destruct (isdir _ _) eqn:Hd.
    + apply snapshot_elem_of.
    + split; [by intros ?%elem_of_nil|]. intros [[v Hv] _].
      unfold isdir in Hd. apply bool_decide_eq_false in Hd.
      unfold read_file in Hv. destruct (disk w !! _); [|done]. by destruct Hd.
  - simpl. destruct (isdir _ _); [apply snapshot_NoDup | constructor].
  - simpl. destruct (isdir _ _); [apply sorted_StronglySorted | constructor].
  - intros i. simpl. apply fresh_flags_lookup.
Qed.

Lemma login_takes_snapshot_witness :
  exists local_part domain,
    split_on "@" "santa@example.com" = [local_part; domain]
    /\ fst (handle_login "a0" "santa@example.com" "password123" demo_start) = Ret tt.
Proof.
  destruct (login_takes_snapshot demo_start "a0" "santa@example.com" "password123")
    as (local_part & domain & Hs & Hr & _); [reflexivity|].
  exists local_part, domain. by split.
Defined.

Section Select.
Context `{EmailLib}.

Lemma handle_select_inbox tag mailbox w :
  logged_in (sess w) = true ->
  upper (strip_chars dquote mailbox) = "INBOX" ->
  response_to (handle_select tag mailbox) w
  = ["* FLAGS (\Answered \Flagged \Draft \Deleted \Seen)" +:+ crlf;
     "* " +:+ str_of_Z (Z.of_nat (length (msg_files (sess w)))) +:+ " EXISTS" +:+ crlf;
     "* OK [UIDVALIDITY 1] UIDs valid" +:+ crlf;
     "* OK [UIDNEXT " +:+ str_of_Z (Z.of_nat (length (msg_files (sess w))) + 1)
       +:+ "] Predicted next UID" +:+ crlf;
     tag +:+ " OK [READ-WRITE] SELECT completed" +:+ crlf].
Proof.
  intros Hl Hm. unfold response_to, handle_select, bind, get_sess. rewrite Hl, Hm.
  simpl. rewrite <- !(assoc_L (++)). by rewrite drop_app_length.
Qed.

(** X8. LOGIN, then SELECT of the inbox (under any case, in double quotes or
    not): the EXISTS line counts the names of the directory of the account
    that end in [.eml], and UIDNEXT is one more; any other mailbox name is
    answered [NO Carpeta no encontrada].  SELECT changes nothing but the
    wire. *)
Theorem login_then_select
    (w : World) (tag1 username password tag2 mailbox : string) :
  USUARIOS !! username = Some password ->
  exists local_part domain,
    split_on "@" username = [local_part; domain]
    /\ let dir := path_join (path_join (mail_storage w) domain) local_part in
       let n := Z.of_nat (length (filter (fun f => endswith ".eml" (lower f))
                                         (listdir (disk w) dir))) in
       let w1 := snd (handle_login tag1 username password w) in
       fst (handle_select tag2 mailbox w1) = Ret tt
       /\ sess (snd (handle_select tag2 mailbox w1)) = sess w1
       /\ disk (snd (handle_select tag2 mailbox w1)) = disk w1
       /\ response_to (handle_select tag2 mailbox) w1
          = if String.eqb (upper (strip_chars dquote mailbox)) "INBOX" then
              ["* FLAGS (\Answered \Flagged \Draft \Deleted \Seen)" +:+ crlf;
               "* " +:+ str_of_Z n +:+ " EXISTS" +:+ crlf;
               "* OK [UIDVALIDITY 1] UIDs valid" +:+ crlf;
               "* OK [UIDNEXT " +:+ str_of_Z (n + 1) +:+ "] Predicted next UID" +:+ crlf;
               tag2 +:+ " OK [READ-WRITE] SELECT completed" +:+ crlf]
            else [tag2 +:+ " NO Carpeta no encontrada" +:+ crlf].
Proof.
  intros Hu. destruct (USUARIOS_split _ _ Hu) as (local_part & domain & Hs).
  exists local_part, domain. split; [done|]. cbv zeta.
  rewrite (handle_login_match _ _ _ _ _ _ Hu Hs). cbv zeta.
  set (dir := path_join (path_join (mail_storage w) domain) local_part).
  set (w1 := snd _).
  assert (Hl : logged_in (sess w1) = true) by done.
  assert (Hn : length (msg_files (sess w1))
               = length (filter (fun f => endswith ".eml" (lower f))
                                (listdir (disk w) dir))).
  { subst w1. simpl. fold dir. destruct (isdir (disk w) dir) eqn:Hd.
    - apply sorted_length.
    - unfold isdir in Hd. apply bool_decide_eq_false in Hd.
      unfold listdir. destruct (disk w !! dir); [|done]. by destruct Hd. }
  split_and!.
  - unfold handle_select, bind, get_sess. rewrite Hl. simpl.
    by destruct (String.eqb _ _).
  - apply keeps_handle_select.
  - by_field.
  - destruct (String.eqb_spec (upper (strip_chars dquote mailbox)) "INBOX") as [Hm|Hm].
    + rewrite (handle_select_inbox _ _ _ Hl Hm). by rewrite Hn.
    + unfold response_to, handle_select, bind, get_sess. rewrite Hl.
      apply String.eqb_neq in Hm. rewrite Hm. simpl. by rewrite drop_app_length.
Qed.
End Select.

Lemma login_then_select_witness :
  exists local_part domain,
    split_on "@" "santa@example.com" = [local_part; domain]
    /\ response_to (handle_select "a1" "inbox")
         (snd (handle_login "a0" "santa@example.com" "password123" demo_start))
       = ["* FLAGS (\Answered \Flagged \Draft \Deleted \Seen)" +:+ crlf;
          "* 3 EXISTS" +:+ crlf;
          "* OK [UIDVALIDITY 1] UIDs valid" +:+ crlf;
          "* OK [UIDNEXT 4] Predicted next UID" +:+ crlf;
          "a1 OK [READ-WRITE] SELECT completed" +:+ crlf].
Proof.
  destruct (login_then_select demo_start "a0" "santa@example.com" "password123"
              "a1" "inbox")
    as (local_part & domain & Hs & _ & _ & _ & Hr); [reflexivity|].
  exists local_part, domain. split; [done|].
  rewrite Hr. injection Hs as <- <-. vm_compute. reflexivity.
Defined.

(** ** Logging in is for good *)

Section LoggedIn.
Context `{EmailLib}.

Lemma logged_in_stays data w :
  logged_in (sess w) = true -> logged_in (sess (snd (dataReceived data w))) = true.
Proof.
  intros Hl.
  pose proof (dataReceived_handled data) as Hh.
  revert Hh. generalize (comando data) (dataReceived data). intros verb m Hh.
  destruct Hh;
    try (match goal with
         | |- logged_in (sess (snd (?m w))) = true =>
             let Hk := fresh in
             assert (Hk : keeps_field (fun w => logged_in (sess w)) m) by field_auto;
             by rewrite Hk
         end).
  destruct (decide (USUARIOS !! u = Some p)) as [Hu|Hu].
  - destruct (USUARIOS_split _ _ Hu) as (l & d & Hs).
    by rewrite (handle_login_match _ _ _ _ _ _ Hu Hs).
  - by rewrite handle_login_mismatch.
Qed.

(** X9. Whether the session is logged in, and its mail directory, change by
    LOGIN only; and a session that is logged in stays so, whatever comes:
    a LOGIN that fails, a LOGOUT, a command that raises. *)
Theorem login_state_changes_by_LOGIN_only (data : string) (w : World) :
  (comando data = "LOGIN"
   \/ logged_in (sess (snd (dataReceived data w))) = logged_in (sess w)
      /\ user_mail_dir (sess (snd (dataReceived data w))) = user_mail_dir (sess w))
  /\ (logged_in (sess w) = true ->
      logged_in (sess (snd (dataReceived data w))) = true).
Proof.
  split; [|apply logged_in_stays].
  pose proof (dataReceived_handled data) as Hh.
  revert Hh. generalize (comando data) (dataReceived data). intros verb m Hh.
  destruct Hh; try (by left); right; split; by_field.
Qed.
End LoggedIn.

(** ** STORE: numbers from the end, the answer, and repetition *)

Lemma py_index_from_end {A} (l : list A) n :
  - Z.of_nat (length l) < n <= 0 ->
  py_index l (n - 1) = Some (Z.to_nat (Z.of_nat (length l) + n - 1))
  /\ is_Some (l !! Z.to_nat (Z.of_nat (length l) + n - 1)).
Proof.
  intros Hn. unfold py_index.
  rewrite bool_decide_eq_false_2 by lia. rewrite bool_decide_eq_true_2 by lia.
  split; [f_equal; lia|]. apply lookup_lt_is_Some. lia.
Qed.

(** X10. STORE does not refuse a sequence number that is zero or negative:
    with the deletion flag it removes a message counted from the end of the
    list, as Python indexes a list.  [STORE 0] removes the last message,
    [STORE -1] the one before it, down to minus the message count, excluded;
    the file is removed from the disk and the command returns normally. *)
Theorem store_counts_from_the_end
    (w : World) (tag num store_args flags_str dir : string) (n : Z) :
  logged_in (sess w) = true ->
  user_mail_dir (sess w) = Some dir ->
  py_int num = Some n ->
  - Z.of_nat (length (msg_files (sess w))) < n <= 0 ->
  contains "+FLAGS" (upper store_args) = true ->
  re_paren_group store_args = Some flags_str ->
  "\Deleted" ∈ split flags_str ->
  exists msg_filename,
    msg_files (sess w) !! Z.to_nat (Z.of_nat (length (msg_files (sess w))) + n - 1)
    = Some msg_filename
    /\ fst (handle_store tag num store_args w) = Ret tt
    /\ read_file (disk (snd (handle_store tag num store_args w))) dir msg_filename = None
    /\ (forall d f, (d, f) <> (dir, msg_filename) ->
          read_file (disk (snd (handle_store tag num store_args w))) d f
          = read_file (disk w) d f)
    /\ msg_files (sess (snd (handle_store tag num store_args w)))
       = delete (Z.to_nat (Z.of_nat (length (msg_files (sess w))) + n - 1))
                (msg_files (sess w))
    /\ msg_flags (sess (snd (handle_store tag num store_args w)))
       = fresh_flags (length (msg_files (sess w)) - 1).
Proof.
  intros Hl Hdir Hn Hr Hc Hg Hf.
  destruct (py_index_from_end (msg_files (sess w)) n Hr) as [Hi [msg_filename Hm]].
  exists msg_filename. split; [done|].
  rewrite (handle_store_numeric _ _ _ _ _ Hl Hn). cbv zeta.
  rewrite bool_decide_eq_true_2 by (by eapply plus_flags_stored).
  rewrite Hi, Hm, Hdir. split; [done|].
  unfold store_deleted. cbn [snd sess disk set_sess set_disk msg_files msg_flags].
  change (disk (store_answered tag n store_args w)) with (disk w).
  split_and!.
  - destruct (os_remove (disk w) dir msg_filename) as [fs'|] eqn:Er; simpl.
    + by apply (read_after_remove _ _ _ _ Er).
    + by apply read_when_remove_fails.
  - intros d f Hne.
    destruct (os_remove (disk w) dir msg_filename) as [fs'|] eqn:Er; simpl; [|done].
    by apply (read_after_remove _ _ _ _ Er).
  - done.
  - f_equal. rewrite length_delete by (by eexists). done.
Qed.

Lemma store_counts_from_the_end_witness :
  exists msg_filename,
    msg_files (sess demo_world) !! Z.to_nat (Z.of_nat 3 + 0 - 1) = Some msg_filename
    /\ fst (handle_store "a1" "0" "+FLAGS (\Deleted)" demo_world) = Ret tt
    /\ msg_files (sess (snd (handle_store "a1" "0" "+FLAGS (\Deleted)" demo_world)))
       = ["1.eml"; "2.eml"].
Proof.
  destruct (store_counts_from_the_end demo_world "a1" "0" "+FLAGS (\Deleted)"
              "\Deleted" demo_dir 0)
    as (msg_filename & Hm & Hr & _ & _ & Hf & _);
    [reflexivity | reflexivity | reflexivity | simpl; lia | reflexivity | reflexivity
     | by constructor | ].
  exists msg_filename. split; [exact Hm|]. split; [exact Hr|]. exact Hf.
Defined.

Lemma store_change_again store_args fl :
  store_change store_args (store_change store_args fl) = store_change store_args fl.
Proof.
  unfold store_change.
  destruct (contains "+FLAGS" (upper store_args)).
  { destruct (re_paren_group store_args); [|done].
    by rewrite <- (assoc_L (∪)), (idemp_L (∪)). }
  destruct (contains "-FLAGS" (upper store_args)); [|done].
  destruct (re_paren_group store_args); [|done].
  apply set_eq. intros x. rewrite !elem_of_difference. tauto.
Qed.

(** X11. STORE on a number, logged in: the untagged answer lists the flags of
    the message after the change, each once and in ascending order, and the
    tagged OK follows, whether or not the number is one of a message. *)
Theorem store_answer_lists_flags (w : World) (tag num store_args : string) (n : Z) :
  logged_in (sess w) = true ->
  py_int num = Some n ->
  exists flags_list,
    response_to (handle_store tag num store_args) w
    = ["* " +:+ str_of_Z n +:+ " FETCH (FLAGS (" +:+ join " " flags_list +:+ "))" +:+ crlf;
       tag +:+ " OK STORE completed" +:+ crlf]
    /\ StronglySorted String.le flags_list
    /\ NoDup flags_list
    /\ (forall flag, flag ∈ flags_list
                     <-> flag ∈ store_change store_args
                                  (default ∅ (msg_flags (sess w) !! n))).
Proof.
  intros Hl Hn.
  exists (sorted (elements (stored_flags n store_args (sess w)))). split_and!.
  - unfold response_to. rewrite (handle_store_wire _ _ _ _ _ Hl Hn).
    by rewrite drop_app_length.
  - apply sorted_StronglySorted.
  - rewrite sorted_Permutation. apply NoDup_elements.
  - intros flag. rewrite sorted_Permutation. apply elem_of_elements.
Qed.

Lemma store_answer_lists_flags_witness :
  exists flags_list,
    response_to (handle_store "a1" "2" "+FLAGS (\Seen \Answered \Seen)") demo_world
    = ["* " +:+ str_of_Z 2 +:+ " FETCH (FLAGS (" +:+ join " " flags_list +:+ "))" +:+ crlf;
       "a1" +:+ " OK STORE completed" +:+ crlf]
    /\ StronglySorted String.le flags_list.
Proof.
  destruct (store_answer_lists_flags demo_world "a1" "2" "+FLAGS (\Seen \Answered \Seen)" 2)
    as (flags_list & Hr & Hs & _); [reflexivity | reflexivity |].
  exists flags_list. by split.
Defined.

(** X12. STORE on a number, logged in, when the flags of the message do not
    come to hold the deletion flag: the command returns normally, the flag
    set of that number is the changed one and no other flag set, the message
    list and the disk are as before; and the same STORE once more changes
    nothing further. *)
Theorem store_without_deletion (w : World) (tag tag' num store_args : string) (n : Z) :
  logged_in (sess w) = true ->
  py_int num = Some n ->
  "\Deleted" ∉ store_change store_args (default ∅ (msg_flags (sess w) !! n)) ->
  fst (handle_store tag num store_args w) = Ret tt
  /\ msg_flags (sess (snd (handle_store tag num store_args w))) !! n
     = Some (store_change store_args (default ∅ (msg_flags (sess w) !! n)))
  /\ (forall i, i <> n ->
        msg_flags (sess (snd (handle_store tag num store_args w))) !! i
        = msg_flags (sess w) !! i)
  /\ msg_files (sess (snd (handle_store tag num store_args w))) = msg_files (sess w)
  /\ disk (snd (handle_store tag num store_args w)) = disk w
  /\ sess (snd (handle_store tag' num store_args (snd (handle_store tag num store_args w))))
     = sess (snd (handle_store tag num store_args w)).
Proof.
  intros Hl Hn Hd.
  assert (E : forall t w0,
    logged_in (sess w0) = true ->
    "\Deleted" ∉ stored_flags n store_args (sess w0) ->
    handle_store t num store_args w0 = (Ret tt, store_answered t n store_args w0)).
  { intros t w0 Hl0 Hd0. rewrite (handle_store_numeric _ _ _ _ _ Hl0 Hn). cbv zeta.
    by rewrite bool_decide_eq_false_2. }
  rewrite (E tag w Hl Hd).
  set (w1 := store_answered tag n store_args w).
  assert (Hfl : msg_flags (sess w1)
                = <[n := stored_flags n store_args (sess w)]> (msg_flags (sess w)))
    by done.
  assert (Hst : stored_flags n store_args (sess w1) = stored_flags n store_args (sess w)).
  { unfold stored_flags at 1. rewrite Hfl, lookup_insert_eq. simpl.
    apply store_change_again. }
  split_and!; try done.
  - cbn [snd]. rewrite Hfl. by rewrite lookup_insert_eq.
  - intros i Hi. cbn [snd]. rewrite Hfl. by rewrite lookup_insert_ne.
  - cbn [snd]. rewrite (E tag' w1); [|done|by rewrite Hst].
    cbn [snd]. unfold store_answered at 1. cbn [sess wrote set_wire set_sess].
    rewrite Hst. rewrite Hfl at 1. rewrite insert_insert_eq.
    destruct w as [[] ? ? ? ? ?]. reflexivity.
Qed.

Lemma store_without_deletion_witness :
  fst (handle_store "a1" "2" "+FLAGS (\Seen)" demo_world) = Ret tt
  /\ msg_flags (sess (snd (handle_store "a1" "2" "+FLAGS (\Seen)" demo_world))) !! 2
     = Some (store_change "+FLAGS (\Seen)" (default ∅ (msg_flags (sess demo_world) !! 2))).
Proof.
  destruct (store_without_deletion demo_world "a1" "a2" "2" "+FLAGS (\Seen)" 2)
    as (Hr & Hf & _); [reflexivity | reflexivity | | by split].
  change (store_change "+FLAGS (\Seen)" (default ∅ (msg_flags (sess demo_world) !! 2)))
    with ((∅ : gset string) ∪ list_to_set ["\Seen"]).
  rewrite elem_of_union, elem_of_list_to_set, list_elem_of_singleton.
  intros [?%elem_of_empty|?]; done.
Defined.

(** ** Files are only ever removed, and only messages of the session *)

Lemma enumerate_elem {A} (l : list A) s i x : (i, x) ∈ enumerate s l -> x ∈ l.
Proof.
  revert s. induction l as [|y l IH]; intros s Hin; simpl in *.
  - by apply elem_of_nil in Hin.
  - apply elem_of_cons in Hin as [[= -> ->]|Hin]; [left|right; by eapply IH].
Qed.

Lemma read_after_os_remove fs dir name fs' d f :
  os_remove fs dir name = Some fs' ->
  read_file fs' d f = if decide ((d, f) = (dir, name)) then None else read_file fs d f.
Proof.
  intros Er. destruct (read_after_remove _ _ _ _ Er) as [Hgone Hrest].
  case_decide as Hd; [by injection Hd as -> ->|by apply Hrest].
Qed.

Lemma keeps_disk_safe (m : M unit) : keeps_field disk m -> disk_safe m.
Proof. intros Hm w dir name. left. by rewrite Hm. Qed.

(** One step of the first loop of EXPUNGE: the session stays, and the disk
    stays or loses the file of the step. *)
Lemma expunge_scan_step flags acc i name w :
  sess (snd (expunge_scan flags acc (i, name) w)) = sess w
  /\ (disk (snd (expunge_scan flags acc (i, name) w)) = disk w
      \/ exists dir,
           user_mail_dir (sess w) = Some dir
           /\ os_remove (disk w) dir name
              = Some (disk (snd (expunge_scan flags acc (i, name) w)))).
Proof.
  unfold expunge_scan. destruct (flags !! i) as [fl|]; [|by split; [|left]].
  destruct (negb _ && _); [|by split; [|left]].
  unfold mail_dir. unfold bind, get_sess, get_disk, expect.
  destruct (user_mail_dir (sess w)) as [dir|] eqn:Hdir; simpl; [|by split; [|left]].
  destruct (os_remove (disk w) dir name) as [d|] eqn:Er; simpl; [|by split; [|left]].
  split; [done|]. right. by exists dir.
Qed.

Lemma expunge_scan_disk flags l acc w dir name :
  sess (snd (fold_each l acc (expunge_scan flags) w)) = sess w
  /\ (read_file (disk (snd (fold_each l acc (expunge_scan flags) w))) dir name
      = read_file (disk w) dir name
      \/ (read_file (disk (snd (fold_each l acc (expunge_scan flags) w))) dir name = None
          /\ user_mail_dir (sess w) = Some dir
          /\ exists i, (i, name) ∈ l)).
Proof.
  revert acc w. induction l as [|[i f] l IH]; intros acc w; [by split; [|left]|].
  cbn [fold_each]. unfold bind.
  destruct (expunge_scan_step flags acc i f w) as [Hs Hd].
  destruct (expunge_scan flags acc (i, f) w) as [[acc'|e] w1]; cbn [snd] in *.
  - destruct (IH acc' w1) as [IHs IHd]. split; [by rewrite IHs|].
    destruct Hd as [Hd|(d & Hdir & Er)].
    + rewrite Hd, Hs in IHd. destruct IHd as [?|(? & ? & j & ?)]; [by left|right].
      split_and!; try done. exists j. by right.
    + rewrite (read_after_os_remove _ _ _ _ dir name Er) in IHd. rewrite Hs in IHd.
      case_decide as Hc.
      * injection Hc as -> ->. right. split_and!; [|done|exists i; by left].
        by destruct IHd as [?|[? _]].
      * destruct IHd as [?|(? & ? & j & ?)]; [by left|right].
        split_and!; try done. exists j. by right.
  - split; [done|]. destruct Hd as [Hd|(d & Hdir & Er)]; [left; by rewrite Hd|].
    rewrite (read_after_os_remove _ _ _ _ dir name Er).
    case_decide as Hc; [|by left].
    injection Hc as -> ->. right. split_and!; [done|done|exists i; by left].
Qed.

Lemma disk_safe_handle_expunge tag : disk_safe (handle_expunge tag).
Proof.
  intros w dir name. remember (handle_expunge tag w) as r eqn:E.
  unfold handle_expunge in E. unfold bind at 1 in E. unfold get_sess at 1 in E.
  destruct (logged_in (sess w)) eqn:Hl; cbn [negb] in E; [|subst r; by left].
  unfold bind at 1 in E.
  destruct (expunge_scan_disk (msg_flags (sess w)) (enumerate 1 (msg_files (sess w)))
              [] w dir name) as [_ Hd].
  destruct (fold_each _ _ _ w) as [[acc|e] w1]; cbn [snd] in *; subst r.
  - assert (Hk : keeps_field disk
              (for_each (merge_sort (flip Z.le) acc) expunge_delete ;;
               write (tag +:+ " OK EXPUNGE completed" +:+ crlf))) by field_auto.
    rewrite Hk. destruct Hd as [?|(? & ? & i & Hin)]; [by left|right].
    split_and!; try done. by eapply enumerate_elem.
  - cbn [snd]. destruct Hd as [?|(? & ? & i & Hin)]; [by left|right].
    split_and!; try done. by eapply enumerate_elem.
Qed.

Lemma disk_safe_handle_store tag num store_args : disk_safe (handle_store tag num store_args).
Proof.
  intros w dir name.
  destruct (logged_in (sess w)) eqn:Hl; [|left; by rewrite refused_store].
  destruct (py_int num) as [n|] eqn:Hn; [|left; by rewrite handle_store_not_numeric].
  rewrite (handle_store_numeric _ _ _ _ _ Hl Hn). cbv zeta.
  case_bool_decide; [|by left].
  destruct (py_index _ _) as [idx|]; [|by left].
  destruct (msg_files (sess w) !! idx) as [msg_filename|] eqn:Hm; [|by left].
  destruct (user_mail_dir (sess w)) as [d|] eqn:Hdir; [|by left].
  unfold store_deleted. cbn [snd disk set_sess set_disk].
  change (disk (store_answered tag n store_args w)) with (disk w).
  destruct (os_remove (disk w) d msg_filename) as [fs'|] eqn:Er; simpl; [|by left].
  rewrite (read_after_os_remove _ _ _ _ dir name Er).
  case_decide as Hc; [|by left].
  injection Hc as -> ->. right. split_and!; try done.
  by eapply list_elem_of_lookup_2.
Qed.

Section Disk.
Context `{EmailLib}.

(** X13. The server never writes a file and never alters one.  After any
    line, on any world, a file reads as it did before, or it is gone; and it
    is gone only if the line was a STORE, UID or EXPUNGE on a logged-in
    session, the file was in the mail directory of the session and its name
    in the message list. *)
Theorem files_only_removed (data : string) (w : World) (dir name : string) :
  read_file (disk (snd (dataReceived data w))) dir name = read_file (disk w) dir name
  \/ (read_file (disk (snd (dataReceived data w))) dir name = None
      /\ comando data ∈ ["UID"; "EXPUNGE"; "STORE"]
      /\ logged_in (sess w) = true
      /\ user_mail_dir (sess w) = Some dir
      /\ name ∈ msg_files (sess w)).
Proof.
  pose proof (dataReceived_handled data) as Hh.
  revert Hh. generalize (comando data) (dataReceived data). intros verb m Hh.
  assert (Hv : keeps_field disk m \/ (disk_safe m /\ verb ∈ ["UID"; "EXPUNGE"; "STORE"])).
  { destruct Hh; try (left; by field_auto); right;
      (split; [apply disk_safe_handle_store || apply disk_safe_handle_expunge
              | set_solver]). }
  destruct Hv as [Hk|[Hd Hv]]; [left; by rewrite Hk|].
  destruct (Hd w dir name) as [?|(? & ? & ? & ?)]; [by left|by right].
Qed.
End Disk.

(** ** FETCH *)

Section Fetch.
Context `{EmailLib}.

(** [handle_fetch] on a logged-in session and the number of a message,
    whole. *)
Lemma handle_fetch_in_range tag num fetch_args n dir msg_filename w :
  logged_in (sess w) = true ->
  py_int num = Some n ->
  user_mail_dir (sess w) = Some dir ->
  1 <= n ->
  msg_files (sess w) !! Z.to_nat (n - 1) = Some msg_filename ->
  handle_fetch tag num fetch_args w
  = match open_read (disk w) dir msg_filename with
    | inl e =>
        (Ret tt, wrote (tag +:+ " NO Error al leer el mensaje: " +:+ e +:+ crlf) w)
    | inr raw_content =>
        let msg := message_from_string raw_content in
        let done := wrote (tag +:+ " OK FETCH completed" +:+ crlf) in
        if contains "RFC822" (upper fetch_args) || contains "BODY[]" (upper fetch_args)
        then (Ret tt, done (wrote (fetch_literal n "RFC822" raw_content) w))
        else if contains "BODY[HEADER]" (upper fetch_args)
        then (Ret tt, done (wrote (fetch_literal n "BODY[HEADER]" (_extract_headers msg)) w))
        else if contains "BODY[TEXT]" (upper fetch_args)
        then match _extract_text msg with
             | PayloadText body =>
                 (Ret tt, done (wrote (fetch_literal n "BODY[TEXT]" body) w))
             | PayloadNone => (Raise AttributeError, w)
             | PayloadRaises error => (Raise (CodecError error), w)
             end
        else (Ret tt, done (wrote (fetch_literal n "RFC822" raw_content) w))
    end.
Proof.
  intros Hl Hn Hdir H1 Hm.
  assert (Hlt : n - 1 < Z.of_nat (length (msg_files (sess w)))).
  { apply lookup_lt_Some in Hm. lia. }
  unfold handle_fetch. unfold bind at 1. unfold get_sess at 1. rewrite Hl, Hn.
  cbn [negb]. rewrite bool_decide_eq_false_2 by lia.
  rewrite bool_decide_eq_false_2 by lia. cbn [orb]. rewrite Hm. cbn [expect].
  unfold bind at 1. unfold ret at 1.
  unfold bind at 1. unfold mail_dir at 1. unfold bind at 1. unfold get_sess at 1.
  rewrite Hdir. cbn [expect]. unfold ret at 1.
  unfold bind at 1. unfold get_disk at 1.
  destruct (open_read (disk w) dir msg_filename) as [e|raw_content]; [done|].
  cbv zeta.
  destruct (contains "RFC822" (upper fetch_args) || contains "BODY[]" (upper fetch_args));
    [done|].
  destruct (contains "BODY[HEADER]" (upper fetch_args)); [done|].
  destruct (contains "BODY[TEXT]" (upper fetch_args)); [|done].
  by destruct (_extract_text (message_from_string raw_content)).
Qed.

(** X14. FETCH of a message whose file is there and holds UTF-8, with an item
    list that names RFC822 or BODY[] anywhere in it (RFC822.SIZE and
    RFC822.HEADER among them, and whatever else the list names), or that
    names none of the items the server knows: the answer is the whole text
    of the file as text mode reads it, every line end as one [LF], as a
    literal under the name RFC822, with the length in bytes of that text
    (not of the file), then the tagged OK.  Nothing but the wire changes. *)
Theorem fetch_whole_message
    (w : World) (tag num fetch_args dir msg_filename file_bytes : string) (n : Z) :
  logged_in (sess w) = true ->
  py_int num = Some n ->
  user_mail_dir (sess w) = Some dir ->
  1 <= n ->
  msg_files (sess w) !! Z.to_nat (n - 1) = Some msg_filename ->
  read_file (disk w) dir msg_filename = Some file_bytes ->
  utf8_error 0 file_bytes = None ->
  contains "RFC822" (upper fetch_args) || contains "BODY[]" (upper fetch_args)
  || negb (contains "BODY[HEADER]" (upper fetch_args)
           || contains "BODY[TEXT]" (upper fetch_args)) = true ->
  handle_fetch tag num fetch_args w
  = (Ret tt,
     set_wire (wire w ++
       ["* " +:+ str_of_Z n +:+ " FETCH (RFC822 {"
             +:+ str_of_Z (Z.of_nat (String.length (universal_newlines file_bytes)))
             +:+ "}" +:+ crlf
             +:+ universal_newlines file_bytes +:+ crlf +:+ ")" +:+ crlf;
        tag +:+ " OK FETCH completed" +:+ crlf]) w).
Proof.
  intros Hl Hn Hdir H1 Hm Hr Hu Hitem.
  rewrite (handle_fetch_in_range _ _ _ _ _ _ _ Hl Hn Hdir H1 Hm).
  unfold open_read. rewrite Hr, Hu. cbv zeta.
  set (raw_content := universal_newlines file_bytes).
  assert (E : wrote (tag +:+ " OK FETCH completed" +:+ crlf)
                (wrote (fetch_literal n "RFC822" raw_content) w)
              = set_wire (wire w ++
                  ["* " +:+ str_of_Z n +:+ " FETCH (RFC822 {"
                        +:+ str_of_Z (Z.of_nat (String.length raw_content)) +:+ "}" +:+ crlf
                        +:+ raw_content +:+ crlf +:+ ")" +:+ crlf;
                   tag +:+ " OK FETCH completed" +:+ crlf]) w).
  { unfold wrote, set_wire. simpl. by rewrite <- (assoc_L (++)). }
  destruct (contains "RFC822" (upper fetch_args) || contains "BODY[]" (upper fetch_args));
    [by rewrite E|].
  destruct (contains "BODY[HEADER]" (upper fetch_args)); [done|].
  destruct (contains "BODY[TEXT]" (upper fetch_args)); [done|].
  by rewrite E.
Qed.

End Fetch.

Lemma fetch_whole_message_witness :
  @handle_fetch Plain.lib "a1" "1" "(RFC822.SIZE)" demo_world
  = (Ret tt,
     set_wire (wire demo_world ++
       ["* " +:+ str_of_Z 1 +:+ " FETCH (RFC822 {"
             +:+ str_of_Z (Z.of_nat (String.length (universal_newlines demo_mail)))
             +:+ "}" +:+ crlf
             +:+ universal_newlines demo_mail +:+ crlf +:+ ")" +:+ crlf;
        "a1" +:+ " OK FETCH completed" +:+ crlf]) demo_world).
Proof.
  apply (@fetch_whole_message Plain.lib demo_world "a1" "1" "(RFC822.SIZE)" demo_dir
           "1.eml" demo_mail 1); first [reflexivity | lia].
Defined.


(** ** The exceptions that escape on the sessions of a connection *)

Section Exceptions.
Context `{EmailLib}.

Lemma handle_fetch_raises tag num fetch_args w :
  session_inv (sess w) ->
  fst (handle_fetch tag num fetch_args w) = Ret tt
  \/ fst (handle_fetch tag num fetch_args w) = Raise AttributeError
  \/ exists error, fst (handle_fetch tag num fetch_args w) = Raise (CodecError error).
Proof.
  intros (Hdir & Hlog & _).
  destruct (logged_in (sess w)) eqn:Hl; [|left; by rewrite refused_fetch].
  destruct (py_int num) as [n|] eqn:Hn; [|left; by rewrite handle_fetch_not_numeric].
  destruct (decide (1 <= n <= Z.of_nat (length (msg_files (sess w))))) as [Hr|Hr];
    [|left; by rewrite (handle_fetch_out_of_range _ _ _ n)].
  destruct (lookup_lt_is_Some_2 (msg_files (sess w)) (Z.to_nat (n - 1)))
    as [msg_filename Hm]; [lia|].
  destruct Hlog as [dir Hd]; [done|].
  rewrite (handle_fetch_in_range _ _ _ _ _ _ _ Hl Hn Hd (proj1 Hr) Hm). cbv zeta.
  repeat case_match; try (by left); try (by right; left).
  right; right. by eexists.
Qed.

Lemma handle_store_raises tag num store_args w :
  session_inv (sess w) ->
  fst (handle_store tag num store_args w) = Ret tt
  \/ fst (handle_store tag num store_args w) = Raise IndexError.
Proof.
  intros (Hdir & Hlog & _).
  destruct (logged_in (sess w)) eqn:Hl; [|left; by rewrite refused_store].
  destruct (py_int num) as [n|] eqn:Hn; [|left; by rewrite handle_store_not_numeric].
  rewrite (handle_store_numeric _ _ _ _ _ Hl Hn). cbv zeta.
  destruct Hlog as [dir Hd]; [done|]. rewrite Hd.
  repeat case_match; by auto.
Qed.

(** X16. On the sessions of a connection, a line is handled to the end, or
    STORE or UID STORE raises [IndexError], or FETCH raises on the payload
    of the message: [AttributeError] when there is none to decode, or what
    the codecs raise on it.  The mail directory is never found unset and no
    flag entry is ever found missing: no [TypeError] and no [KeyError]. *)
Theorem exceptions_on_a_connection (data : string) (w : World) :
  reachable w ->
  fst (dataReceived data w) = Ret tt
  \/ (fst (dataReceived data w) = Raise IndexError /\ comando data ∈ ["UID"; "STORE"])
  \/ (comando data = "FETCH"
      /\ (fst (dataReceived data w) = Raise AttributeError
          \/ exists error, fst (dataReceived data w) = Raise (CodecError error))).
Proof.
  intros Hr. apply reachable_inv in Hr as Hinv.
  pose proof (dataReceived_handled data) as Hh.
  revert Hh. generalize (comando data) (dataReceived data). intros verb m Hh.
  destruct Hh.
  - by left.
  - by left.
  - by left.
  - left. destruct (decide (USUARIOS !! u = Some p)) as [Hu|Hu].
    + destruct (USUARIOS_split _ _ Hu) as (l & d & Hs).
      by rewrite (handle_login_match _ _ _ _ _ _ Hu Hs).
    + by rewrite handle_login_mismatch.
  - left. unfold handle_select, must_authenticate, bind, get_sess.
    repeat case_match; done.
  - destruct (handle_fetch_raises tag num args w Hinv) as [?|[?|?]];
      [by left | right; right; split; [done|by left] | right; right; split; [done|by right]].
  - left. by rewrite handle_uid_fetch_run by apply Hinv.
  - destruct (handle_store_raises tag num args w Hinv) as [?|?]; [by left|right; left].
    split; [done|set_solver].
  - left. unfold handle_lsub, must_authenticate, bind, get_sess. repeat case_match; done.
  - left. unfold handle_list, must_authenticate, bind, get_sess. repeat case_match; done.
  - by left.
  - by left.
  - by left.
  - left. destruct (logged_in (sess w)) eqn:Hl.
    + by rewrite handle_expunge_nothing by (done || apply Hinv).
    + by rewrite refused_expunge.
  - destruct (handle_store_raises tag num args w Hinv) as [?|?]; [by left|right; left].
    split; [done|set_solver].
  - left. unfold handle_search, must_authenticate, bind, get_sess. repeat case_match; done.
Qed.
End Exceptions.

Lemma exceptions_on_a_connection_witness :
  fst (@dataReceived Plain.lib "a1 STORE 9 +FLAGS (\Deleted)" demo_world) = Ret tt
  \/ (fst (@dataReceived Plain.lib "a1 STORE 9 +FLAGS (\Deleted)" demo_world)
      = Raise IndexError
      /\ comando "a1 STORE 9 +FLAGS (\Deleted)" ∈ ["UID"; "STORE"])
  \/ (comando "a1 STORE 9 +FLAGS (\Deleted)" = "FETCH"
      /\ (fst (@dataReceived Plain.lib "a1 STORE 9 +FLAGS (\Deleted)" demo_world)
          = Raise AttributeError
          \/ exists error,
               fst (@dataReceived Plain.lib "a1 STORE 9 +FLAGS (\Deleted)" demo_world)
               = Raise (CodecError error))).
Proof.
  apply (@exceptions_on_a_connection Plain.lib "a1 STORE 9 +FLAGS (\Deleted)" demo_world).
  apply reachable_demo_world.
Defined.

(** ** The message list on the sessions of a connection *)

Lemma StronglySorted_delete {A} (R : relation A) l i :
  StronglySorted R l -> StronglySorted R (delete i l).
Proof.
  revert i. induction l as [|x l IH]; intros i Hs; [by destruct i|].
  apply StronglySorted_cons in Hs as [Hx Hs]. destruct i as [|i]; simpl; [done|].
  apply StronglySorted_cons. split; [by apply Forall_delete | by apply IH].
Qed.

Lemma snapshot_ok_fresh files s :
  StronglySorted String.le files ->
  NoDup files ->
  Forall (fun f => endswith ".eml" (lower f) = true) files ->
  msg_files s = files ->
  msg_flags s = fresh_flags (length files) ->
  snapshot_ok s.
Proof.
  intros Hs Hn Hf Ef Efl. unfold snapshot_ok. rewrite Ef, Efl. split_and!; try done.
  intros i Hi. rewrite fresh_flags_lookup. by rewrite bool_decide_eq_true_2.
Qed.

Lemma snapshot_ok_login fs dir :
  let files := sorted (filter (fun f => endswith ".eml" (lower f)) (listdir fs dir)) in
  StronglySorted String.le files
  /\ NoDup files
  /\ Forall (fun f => endswith ".eml" (lower f) = true) files.
Proof.
  cbv zeta. split_and!.
  - apply sorted_StronglySorted.
  - apply snapshot_NoDup.
  - apply Forall_forall. intros f Hf. by apply snapshot_elem_of in Hf as [_ ?].
Qed.

Lemma snapshot_handle_login tag username password w :
  snapshot_ok (sess w) -> snapshot_ok (sess (snd (handle_login tag username password w))).
Proof.
  intros Hok. destruct (decide (USUARIOS !! username = Some password)) as [Hu|Hu];
    [|by rewrite handle_login_mismatch].
  destruct (USUARIOS_split _ _ Hu) as (l & d & Hs).
  rewrite (handle_login_match _ _ _ _ _ _ Hu Hs). cbv zeta.
  destruct (isdir _ _).
  - destruct (snapshot_ok_login (disk w) (path_join (path_join (mail_storage w) d) l))
      as (? & ? & ?).
    by eapply snapshot_ok_fresh.
  - eapply snapshot_ok_fresh; try done; constructor.
Qed.

Lemma snapshot_handle_store tag num store_args w :
  snapshot_ok (sess w) -> snapshot_ok (sess (snd (handle_store tag num store_args w))).
Proof.
  intros (Hs & Hn & Hf & Hfl).
  destruct (logged_in (sess w)) eqn:Hl; [|by rewrite refused_store].
  destruct (py_int num) as [n|] eqn:Hn'; [|by rewrite handle_store_not_numeric].
  rewrite (handle_store_numeric _ _ _ _ _ Hl Hn'). cbv zeta.
  assert (Hans : snapshot_ok (sess (store_answered tag n store_args w))).
  { split_and!; try done. intros i Hi. simpl.
    destruct (decide (i = n)) as [->|Hne].
    - rewrite lookup_insert_eq. by eexists.
    - rewrite lookup_insert_ne by done. by apply Hfl. }
  repeat case_match; try done.
  unfold store_deleted. eapply snapshot_ok_fresh; [| | |done|done].
  - by apply StronglySorted_delete.
  - eapply sublist_NoDup; [done|apply sublist_delete].
  - by apply Forall_delete.
Qed.

Section Snapshot.
Context `{EmailLib}.

Lemma snapshot_dataReceived data w :
  session_inv (sess w) ->
  snapshot_ok (sess w) ->
  snapshot_ok (sess (snd (dataReceived data w))).
Proof.
  intros Hinv Hok.
  pose proof (dataReceived_handled data) as Hh.
  revert Hh. generalize (comando data) (dataReceived data). intros verb m Hh.
  destruct Hh;
    try (by apply snapshot_handle_login);
    try (by apply snapshot_handle_store);
    try (match goal with
         | |- snapshot_ok (sess (snd (?m w))) =>
             let Hk := fresh in
             assert (Hk : keeps_field sess m) by field_auto; by rewrite Hk
         end).
  destruct (logged_in (sess w)) eqn:Hl.
  - by rewrite handle_expunge_nothing by (done || apply Hinv).
  - by rewrite refused_expunge.
Qed.

Lemma reachable_snapshot w : reachable w -> snapshot_ok (sess w).
Proof.
  induction 1 as [storage fs now|w data Hr IH|w fs now _ IH].
  - split_and!; try constructor. intros i Hi. simpl in Hi. lia.
  - apply snapshot_dataReceived; [by apply reachable_inv|done].
  - exact IH.
Qed.

(** X17. On every session of a connection the message list is in ascending
    order without repetition, so that a file has one sequence number; every
    name in it ends in [.eml], whatever the case of the letters; and every
    sequence number from 1 to the message count has a flag entry. *)
Theorem message_list_in_order (w : World) :
  reachable w ->
  StronglySorted String.le (msg_files (sess w))
  /\ (forall i j f,
        msg_files (sess w) !! i = Some f -> msg_files (sess w) !! j = Some f -> i = j)
  /\ (forall f, f ∈ msg_files (sess w) -> endswith ".eml" (lower f) = true)
  /\ (forall n, 1 <= n <= Z.of_nat (length (msg_files (sess w))) ->
                is_Some (msg_flags (sess w) !! n)).
Proof.
  intros Hr. destruct (reachable_snapshot w Hr) as (Hs & Hn & Hf & Hfl).
  split_and!; try done.
  - intros i j f. by apply NoDup_lookup.
  - by apply Forall_forall.
Qed.
End Snapshot.

Lemma message_list_in_order_witness :
  StronglySorted String.le (msg_files (sess demo_world))
  /\ (forall n, 1 <= n <= Z.of_nat (length (msg_files (sess demo_world))) ->
                is_Some (msg_flags (sess demo_world) !! n)).
Proof.
  destruct (@message_list_in_order Plain.lib demo_world reachable_demo_world)
    as (Hs & _ & _ & Hfl).
  by split.
Defined.

(** ** Every line that is handled to the end is answered *)

Lemma framed_grows {A} (m : M A) : framed m -> grows m.
Proof.
  intros Hm w. rewrite (framed_from_empty m w Hm). simpl. rewrite length_app. lia.
Qed.

Lemma framed_wire (m : M unit) w :
  framed m -> wire (snd (m w)) = wire w ++ response_to m w.
Proof.
  intros Hm. rewrite (response_to_framed _ _ Hm).
  by rewrite (framed_from_empty m w Hm) at 1.
Qed.

Lemma answers_write s : answers (write s).
Proof. intros w a _. simpl. rewrite length_app. simpl. lia. Qed.

Lemma answers_raise {A} e : answers (@raise A e).
Proof. by intros w a. Qed.

Lemma answers_bind_l {A B} (m : M A) (k : A -> M B) :
  answers m -> (forall a, grows (k a)) -> answers (bind m k).
Proof.
  intros Hm Hk w b. unfold bind. specialize (Hm w).
  destruct (m w) as [[a|e] w'] eqn:E; simpl in *; [|done].
  intros _. specialize (Hm a eq_refl). specialize (Hk a w'). lia.
Qed.

Lemma answers_bind_r {A B} (m : M A) (k : A -> M B) :
  grows m -> (forall a, answers (k a)) -> answers (bind m k).
Proof.
  intros Hm Hk w b. unfold bind. specialize (Hm w).
  destruct (m w) as [[a|e] w'] eqn:E; simpl in *; [|done].
  intros Hr. specialize (Hk a w' b Hr). lia.
Qed.

Ltac grows_auto :=
  apply framed_grows;
  repeat (unfold flags_update, flags_at, mail_dir, uid_fetch_one, expunge_scan,
            expunge_delete, must_authenticate;
          framed_step).

(** Goes to the first [write] on each path of a handler. *)
Ltac answers_step :=
  match goal with
  | |- answers (write _) => apply answers_write
  | |- answers (raise _) => apply answers_raise
  | |- answers (bind (write _) _) =>
      apply answers_bind_l; [apply answers_write | intros; grows_auto]
  | |- answers (bind _ _) => apply answers_bind_r; [grows_auto | intros]
  | |- answers (if ?b then _ else _) => destruct b
  | |- answers (match ?x with _ => _ end) => destruct x
  end.

Ltac answers_auto :=
  unfold handle_capability, handle_status, handle_login, handle_select, handle_fetch,
    handle_uid_fetch, handle_lsub, handle_list, handle_logout, handle_noop,
    handle_expunge, handle_store, handle_search, must_authenticate;
  repeat answers_step.

Section Answers.
Context `{EmailLib}.

Lemma answers_dataReceived data :
  split (strip data) <> [] -> answers (dataReceived data).
Proof.
  unfold dataReceived.
  destruct (split (strip data)) as [|tag tokens]; [done|]. intros _.
  cbv zeta.
  repeat match goal with
         | |- answers (if ?b then _ else _) => destruct b
         end; answers_auto.
Qed.

(** X18. What a line makes the server write is added at the end of what was
    written before, which stays as it was; and a line that is not blank and
    is handled to the end is answered: something is written. *)
Theorem every_line_is_answered (data : string) (w : World) :
  wire (snd (dataReceived data w)) = wire w ++ response_to (dataReceived data) w
  /\ (str_all py_isspace data = false ->
      fst (dataReceived data w) = Ret tt ->
      response_to (dataReceived data) w <> []).
Proof.
  pose proof (framed_wire _ w (framed_dataReceived data)) as Hw.
  split; [done|]. intros Hb Hr Hnil.
  assert (Hs : split (strip data) <> []).
  { intros Hs. apply split_strip_blank in Hs. congruence. }
  pose proof (answers_dataReceived data Hs w tt Hr) as Hlt.
  rewrite Hw, Hnil, length_app in Hlt. simpl in Hlt. lia.
Qed.
End Answers.

(** ** Before LOGIN, and EXPUNGE *)

Section BeforeLogin.
Context `{EmailLib}.

Lemma fresh_until_login data w :
  logged_in (sess w) = false ->
  sess (snd (dataReceived data w)) = sess w
  \/ logged_in (sess (snd (dataReceived data w))) = true.
Proof.
  intros Hl.
  pose proof (dataReceived_handled data) as Hh.
  revert Hh. generalize (comando data) (dataReceived data). intros verb m Hh.
  destruct Hh; try (left; by_field).
  - destruct (decide (USUARIOS !! u = Some p)) as [Hu|Hu].
    + right. destruct (USUARIOS_split _ _ Hu) as (l & d & Hs).
      by rewrite (handle_login_match _ _ _ _ _ _ Hu Hs).
    + left. by rewrite handle_login_mismatch.
  - left. by rewrite refused_store.
  - left. by rewrite refused_expunge.
  - left. by rewrite refused_store.
Qed.

Lemma not_logged_in_is_new w :
  reachable w -> logged_in (sess w) = false -> sess w = new_session.
Proof.
  induction 1 as [storage fs now|w data Hr IH|w fs now _ IH]; intros Hl.
  - done.
  - destruct (logged_in (sess w)) eqn:Hl0.
    + by rewrite logged_in_stays in Hl.
    + destruct (fresh_until_login data w Hl0) as [E|E]; [|congruence].
      rewrite E. by apply IH.
  - by apply IH.
Qed.

(** X19. STATUS and UID FETCH are served without a LOGIN, yet give nothing
    away: on a connection that has not logged in, the session is the one
    the connection started with, with no mail directory and no message, so
    that STATUS reports no message and UID FETCH, whatever it asks for,
    answers with its tagged OK alone. *)
Theorem nothing_to_see_before_login (w : World) :
  reachable w ->
  logged_in (sess w) = false ->
  sess w = new_session
  /\ (forall tag mailbox items,
        response_to (handle_status tag mailbox items) w
        = ["* STATUS " +:+ dquote +:+ mailbox +:+ dquote
             +:+ " (MESSAGES 0 UIDNEXT 1 UNSEEN 0 RECENT 0)" +:+ crlf
             +:+ tag +:+ " OK STATUS completed" +:+ crlf])
  /\ (forall tag command,
        response_to (handle_uid_fetch tag command) w
        = [tag +:+ " OK UID FETCH completed" +:+ crlf]).
Proof.
  intros Hr Hl. pose proof (not_logged_in_is_new w Hr Hl) as Hs.
  split; [done|]. split.
  - intros tag mailbox items. unfold response_to, handle_status, bind, get_sess.
    rewrite Hs. simpl. by rewrite drop_app_length.
  - intros tag command. unfold response_to.
    rewrite handle_uid_fetch_run by (left; by rewrite Hs).
    rewrite Hs. simpl. unfold emitted_uids. simpl. by rewrite drop_app_length.
Qed.

(** X20. On every session of a connection EXPUNGE finds nothing to remove:
    no message carries the deletion flag, as STORE removes a message as
    soon as it gets one.  EXPUNGE answers its tagged OK, or the refusal
    before LOGIN, and changes neither the session nor the disk. *)
Theorem expunge_finds_nothing (w : World) (tag : string) :
  reachable w ->
  (forall n fl,
     msg_flags (sess w) !! n = Some fl ->
     1 <= n <= Z.of_nat (length (msg_files (sess w))) ->
     "\Deleted" ∉ fl)
  /\ handle_expunge tag w
     = (Ret tt,
        wrote (tag +:+ (if logged_in (sess w) then " OK EXPUNGE completed"
                        else " NO Debe autenticarse primero") +:+ crlf) w).
Proof.
  intros Hr. destruct (reachable_inv w Hr) as (_ & _ & Hpend). split; [exact Hpend|].
  destruct (logged_in (sess w)) eqn:Hl.
  - by rewrite handle_expunge_nothing.
  - by rewrite refused_expunge.
Qed.
End BeforeLogin.

Lemma nothing_to_see_before_login_witness :
  sess demo_start = new_session
  /\ response_to (@handle_uid_fetch Plain.lib "a1" "a1 UID FETCH 1:* (RFC822)") demo_start
     = ["a1" +:+ " OK UID FETCH completed" +:+ crlf].
Proof.
  destruct (@nothing_to_see_before_login Plain.lib demo_start) as (Hs & _ & Hu).
  - apply reach_start.
  - reflexivity.
  - split; [exact Hs | apply Hu].
Defined.

Lemma expunge_finds_nothing_witness :
  @handle_expunge "a1" demo_world
  = (Ret tt, wrote ("a1" +:+ " OK EXPUNGE completed" +:+ crlf) demo_world).
Proof.
  destruct (@expunge_finds_nothing Plain.lib demo_world "a1" reachable_demo_world)
    as [_ He].
  exact He.
Defined.

(** ** Numbers, printed and read back *)

Lemma int_digits_acc d acc :
  int_digits (NilEmpty.string_of_uint d) (Z.pos acc) true
  = Some (Z.pos (Pos.of_uint_acc d acc)).
Proof.
  revert acc. induction d as [|d IH|d IH|d IH|d IH|d IH|d IH|d IH|d IH|d IH|d IH];
    intros acc; [done|..];
    cbn [NilEmpty.string_of_uint int_digits Pos.of_uint_acc];
    match goal with
    | |- context [is_digit ?c] => change (is_digit c) with true; cbn iota
    end;
    rewrite <- IH; f_equal; unfold digit_val; simpl; lia.
Qed.

Lemma int_digits_uint d b :
  d <> Decimal.Nil \/ b = true ->
  int_digits (NilEmpty.string_of_uint d) 0 b = Some (Z.of_N (Pos.of_uint d)).
Proof.
  revert b. induction d as [|d IH|d IH|d IH|d IH|d IH|d IH|d IH|d IH|d IH|d IH];
    intros b Hb.
  - by destruct Hb as [?| ->].
  - cbn [NilEmpty.string_of_uint int_digits Pos.of_uint].
    change (is_digit "0") with true. cbn iota. apply IH. by right.
  - apply (int_digits_acc d 1).
  - apply (int_digits_acc d 2).
  - apply (int_digits_acc d 3).
  - apply (int_digits_acc d 4).
  - apply (int_digits_acc d 5).
  - apply (int_digits_acc d 6).
  - apply (int_digits_acc d 7).
  - apply (int_digits_acc d 8).
  - apply (int_digits_acc d 9).
Qed.

Lemma digits_token d : is_token (NilEmpty.string_of_uint d) = true.
Proof. unfold is_token. induction d; simpl; done. Qed.

Lemma rstrip_token s : is_token s = true -> rstrip_by py_isspace s = s.
Proof.
  unfold is_token. induction s as [|c s IH]; [done|]. simpl.
  intros [Hc Hs]%andb_true_iff. rewrite (IH Hs).
  apply negb_true_iff in Hc. rewrite Hc. by rewrite andb_false_r.
Qed.

Lemma strip_token s : is_token s = true -> strip s = s.
Proof.
  intros Ht. unfold strip, strip_by.
  assert (E : lstrip_by py_isspace s = s).
  { destruct s as [|c s]; [done|]. unfold is_token in Ht. simpl in Ht.
    apply andb_true_iff in Ht as [Hc _]. apply negb_true_iff in Hc. simpl.
    by rewrite Hc. }
  rewrite E. by apply rstrip_token.
Qed.

Lemma py_int_digits d :
  d <> Decimal.Nil ->
  py_int (NilEmpty.string_of_uint d) = Some (Z.of_N (Pos.of_uint d)).
Proof.
  intros Hd. unfold py_int. rewrite strip_token by apply digits_token.
  rewrite <- (int_digits_uint d false) by (by left).
  by destruct d.
Qed.

(** X21. A number that the server prints, as in the EXISTS line of SELECT,
    the counts of STATUS and the answers of FETCH and STORE, is read back as
    itself when a command carries it as a message number. *)
Theorem printed_number_reads_back (n : Z) : py_int (str_of_Z n) = Some n.
Proof.
  unfold str_of_Z. destruct n as [|p|p]; [done|..]; cbn [Z.to_int NilZero.string_of_int].
  - pose proof (Unsigned.to_uint_nonnil p) as Hd.
    assert (E : NilZero.string_of_uint (Pos.to_uint p)
                = NilEmpty.string_of_uint (Pos.to_uint p)).
    { by destruct (Pos.to_uint p). }
    rewrite E, py_int_digits by done. by rewrite DecimalPos.Unsigned.of_to.
  - pose proof (Unsigned.to_uint_nonnil p) as Hd.
    assert (E : NilZero.string_of_uint (Pos.to_uint p)
                = NilEmpty.string_of_uint (Pos.to_uint p)).
    { by destruct (Pos.to_uint p). }
    rewrite E. unfold py_int. rewrite strip_token.
    + rewrite int_digits_uint by (by left). by rewrite DecimalPos.Unsigned.of_to.
    + unfold is_token. simpl. apply digits_token.
Qed.

(** ** UID FETCH and the flags *)

Section UidFetchFlags.
Context `{EmailLib}.

Lemma uid_fetch_response_flags command_upper now uid raw :
  exists pre post,
    uid_fetch_response command_upper now uid raw = pre +:+ " FLAGS ()" +:+ post.
Proof.
  unfold uid_fetch_response.
  destruct (contains "BODY.PEEK[HEADER.FIELDS" command_upper).
  { exists ("* " +:+ str_of_Z uid +:+ " FETCH (UID " +:+ str_of_Z uid +:+ " RFC822.SIZE "
            +:+ str_of_Z (byte_len raw)).
    eexists. rewrite !str_app_assoc. reflexivity. }
  destruct (contains "RFC822" command_upper).
  { exists ("* " +:+ str_of_Z uid +:+ " FETCH (UID " +:+ str_of_Z uid +:+ " RFC822.SIZE "
            +:+ str_of_Z (byte_len raw)).
    eexists. rewrite !str_app_assoc. reflexivity. }
  exists ("* " +:+ str_of_Z uid +:+ " FETCH (UID " +:+ str_of_Z uid), (")" +:+ crlf).
  by rewrite !str_app_assoc.
Qed.

(** X22. UID FETCH never reports a flag.  Every answer it writes for a
    message says [FLAGS ()], and what it writes is the same whatever the
    flag mapping of the session holds, so that flags set by STORE do not
    show. *)
Theorem uid_fetch_never_reports_flags
    (w : World) (tag command : string) (flags : gmap Z (gset string)) :
  has_mail_dir (sess w) ->
  response_to (handle_uid_fetch tag command) (set_sess (set_msg_flags flags (sess w)) w)
  = response_to (handle_uid_fetch tag command) w
  /\ (forall line,
        line ∈ response_to (handle_uid_fetch tag command) w ->
        line = tag +:+ " OK UID FETCH completed" +:+ crlf
        \/ exists pre post, line = pre +:+ " FLAGS ()" +:+ post).
Proof.
  intros Hd.
  assert (Hd' : has_mail_dir (sess (set_sess (set_msg_flags flags (sess w)) w))) by done.
  unfold response_to.
  rewrite (handle_uid_fetch_run _ _ _ Hd), (handle_uid_fetch_run _ _ _ Hd').
  cbn [snd wire set_wire set_sess]. rewrite !drop_app_length. split; [done|].
  intros line [Hin|Hin]%elem_of_app.
  - right. apply list_elem_of_fmap in Hin as (uid & -> & _).
    apply uid_fetch_response_flags.
  - left. by apply list_elem_of_singleton in Hin.
Qed.
End UidFetchFlags.

Lemma uid_fetch_never_reports_flags_witness :
  response_to (@handle_uid_fetch Plain.lib "a1" "a1 UID FETCH 2 (FLAGS)")
    (set_sess (set_msg_flags (<[2 := {["\Seen"]}]> (fresh_flags 3)) (sess demo_world))
       demo_world)
  = response_to (@handle_uid_fetch Plain.lib "a1" "a1 UID FETCH 2 (FLAGS)") demo_world.
Proof.
  apply (@uid_fetch_never_reports_flags Plain.lib demo_world "a1"
           "a1 UID FETCH 2 (FLAGS)" (<[2 := {["\Seen"]}]> (fresh_flags 3))).
  right. by eexists.
Defined.

(** ** The text of a message *)

Section ExtractText.
Context `{EmailLib}.

(** X23. The text that FETCH BODY[TEXT] sends.  For a message that is not
    multipart it is the payload of the message.  For a multipart message it
    is the payload of the first part, in the order of [walk], that is
    [text/plain] and has no file name, an empty file name counting as none:
    parts of other types and attachments before it are passed over; and
    when no part is such, it is the payload of the message itself.  The
    [AttributeError] comes exactly when that payload is not there. *)
Theorem extract_text_first_plain_part (msg : Message) :
  (msg_is_multipart msg = false -> _extract_text msg = msg_payload_text msg)
  /\ (forall pre part post,
        msg_is_multipart msg = true ->
        msg_walk msg = pre ++ part :: post ->
        (forall p, p ∈ pre ->
           msg_get_content_type p <> "text/plain"
           \/ truthy (msg_get_filename p) <> None) ->
        msg_get_content_type part = "text/plain" ->
        truthy (msg_get_filename part) = None ->
        _extract_text msg = msg_payload_text part)
  /\ (msg_is_multipart msg = true ->
      (forall p, p ∈ msg_walk msg ->
         msg_get_content_type p <> "text/plain"
         \/ truthy (msg_get_filename p) <> None) ->
      _extract_text msg = msg_payload_text msg).
Proof.
  assert (Hskip : forall l,
    (forall p, p ∈ l ->
       msg_get_content_type p <> "text/plain" \/ truthy (msg_get_filename p) <> None) ->
    filter (fun part =>
              bool_decide (msg_get_content_type part = "text/plain")
              && negb (bool_decide (is_Some (truthy (msg_get_filename part))))) l = []).
  { induction l as [|p l IH]; intros Hl; [done|].
    rewrite filter_cons_False.
    - apply IH. intros q Hq. apply Hl. by right.
    - intros Hp. apply Is_true_true in Hp. apply andb_true_iff in Hp as [Ht Hf].
      apply bool_decide_eq_true in Ht. apply negb_true_iff, bool_decide_eq_false in Hf.
      destruct (Hl p) as [?|Hn]; [by left|done|].
      apply Hf. destruct (truthy (msg_get_filename p)); [by eexists|done]. }
  unfold _extract_text. split_and!.
  - by intros ->.
  - intros pre part post -> Hw Hpre Ht Hf. rewrite Hw, filter_app, (Hskip pre Hpre).
    rewrite filter_cons_True; [done|].
    apply Is_true_true, andb_true_iff. split; [by apply bool_decide_eq_true|].
    apply negb_true_iff, bool_decide_eq_false. rewrite Hf. by intros [? ?].
  - intros -> Hall. by rewrite (Hskip _ Hall).
Qed.
End ExtractText.

(** ** Quotes around the name and the password *)

Lemma lstrip_by_app p s t :
  lstrip_by p (s +:+ t)
  = if str_all p s then lstrip_by p t else lstrip_by p s +:+ t.
Proof.
  induction s as [|c s IH]; [done|].
  change (String c s +:+ t) with (String c (s +:+ t)). simpl.
  destruct (p c); [exact IH|done].
Qed.

Lemma rstrip_by_snoc p s c :
  p c = true -> rstrip_by p (s +:+ String c EmptyString) = rstrip_by p s.
Proof.
  intros Hc. induction s as [|a s IH]; [simpl; by rewrite Hc|].
  change (String a s +:+ String c EmptyString) with (String a (s +:+ String c EmptyString)).
  simpl. by rewrite IH.
Qed.

(** [strip] does not see one more character of its class at either end. *)
Lemma strip_by_wrapped p c s :
  p c = true ->
  strip_by p (String c (s +:+ String c EmptyString)) = strip_by p s.
Proof.
  intros Hc. unfold strip_by. simpl. rewrite Hc, lstrip_by_app.
  destruct (str_all p s) eqn:Hs.
  - simpl. rewrite Hc. by rewrite lstrip_blank.
  - by apply rstrip_by_snoc.
Qed.

Section Quotes.
Context `{EmailLib}.

(** X24. LOGIN takes the name and the password with or without double quotes
    around them: a line with both in quotes is handled as the line with the
    quotes left out. *)
Theorem login_quotes_are_dropped
    (d1 d2 tag verb username password : string) (rest : list string) (w : World) :
  upper verb = "LOGIN" ->
  split d1 = tag :: verb :: (dquote +:+ username +:+ dquote)
                 :: (dquote +:+ password +:+ dquote) :: rest ->
  split d2 = tag :: verb :: username :: password :: rest ->
  dataReceived d1 w = dataReceived d2 w.
Proof.
  intros Hv H1 H2. unfold dataReceived. rewrite !split_strip, H1, H2. cbv zeta.
  rewrite !comando_of, Hv.
  cbn [String.eqb Ascii.eqb Bool.eqb andb length Nat.leb lookup list_lookup default id].
  unfold strip_chars.
  change (dquote +:+ ?s +:+ dquote)
    with (String "034" (s +:+ String "034" EmptyString)).
  by rewrite !strip_by_wrapped.
Qed.
End Quotes.

Lemma login_quotes_are_dropped_witness :
  @dataReceived Plain.lib
    ("a0 LOGIN " +:+ dquote +:+ "santa@example.com" +:+ dquote +:+ " "
                 +:+ dquote +:+ "password123" +:+ dquote) demo_start
  = @dataReceived Plain.lib "a0 LOGIN santa@example.com password123" demo_start.
Proof.
  apply (@login_quotes_are_dropped Plain.lib _ _ "a0" "LOGIN" "santa@example.com"
           "password123" []); reflexivity.
Defined.

(** ** FETCH after a deletion *)

Section FetchAfterDelete.
Context `{EmailLib}.

(** X25. Sequence numbers move down at once.  On a session of a connection,
    after STORE has removed message [n] (with the deletion flag), FETCH of
    the same number [n] sends the message that was number [n + 1] before. *)
Theorem fetch_after_delete
    (w : World) (tag tag' num store_args flags_str fetch_args dir next raw_content : string)
    (n : Z) :
  reachable w ->
  logged_in (sess w) = true ->
  user_mail_dir (sess w) = Some dir ->
  py_int num = Some n ->
  1 <= n ->
  msg_files (sess w) !! Z.to_nat n = Some next ->
  open_read (disk w) dir next = inr raw_content ->
  contains "+FLAGS" (upper store_args) = true ->
  re_paren_group store_args = Some flags_str ->
  "\Deleted" ∈ split flags_str ->
  contains "RFC822" (upper fetch_args) = true ->
  fst (handle_store tag num store_args w) = Ret tt
  /\ response_to (handle_fetch tag' num fetch_args) (snd (handle_store tag num store_args w))
     = [fetch_literal n "RFC822" raw_content; tag' +:+ " OK FETCH completed" +:+ crlf].
Proof.
  intros Hr Hl Hdir Hn H1 Hnext Hread Hc Hg Hf Hitem.
  destruct (reachable_snapshot w Hr) as (_ & Hnd & _ & _).
  assert (Hlen : n < Z.of_nat (length (msg_files (sess w)))).
  { apply lookup_lt_Some in Hnext. lia. }
  destruct (py_index_in_range (msg_files (sess w)) n) as [Hi [msg_filename Hm]]; [lia|].
  rewrite (handle_store_numeric _ _ _ _ _ Hl Hn). cbv zeta.
  rewrite bool_decide_eq_true_2 by (by eapply plus_flags_stored).
  rewrite Hi, Hm, Hdir. split; [done|]. cbn [snd].
  set (w' := store_deleted tag n store_args (Z.to_nat (n - 1)) dir msg_filename w).
  assert (Hne : msg_filename <> next).
  { intros ->. pose proof (NoDup_lookup _ _ _ _ Hnd Hm Hnext). lia. }
  assert (Hm' : msg_files (sess w') !! Z.to_nat (n - 1) = Some next).
  { subst w'. unfold store_deleted. simpl. rewrite list_lookup_delete_ge by lia.
    by replace (S (Z.to_nat (n - 1))) with (Z.to_nat n) by lia. }
  assert (Hsame : read_file (disk w') dir next = read_file (disk w) dir next).
  { subst w'. unfold store_deleted. simpl.
    change (disk (store_answered tag n store_args w)) with (disk w).
    destruct (os_remove (disk w) dir msg_filename) as [fs'|] eqn:Er; simpl; [|done].
    rewrite (read_after_os_remove _ _ _ _ dir next Er).
    rewrite decide_False by congruence. done. }
  assert (Hread' : open_read (disk w') dir next = inr raw_content).
  { rewrite <- Hread. unfold open_read. by rewrite Hsame. }
  unfold response_to.
  rewrite (handle_fetch_in_range tag' num fetch_args n dir next w'); try done.
  rewrite Hread'. cbv zeta. rewrite Hitem. cbn [orb snd wire wrote set_wire].
  rewrite <- (assoc_L (++)). by rewrite drop_app_length.
Qed.
End FetchAfterDelete.

Lemma fetch_after_delete_witness :
  fst (handle_store "a1" "2" "+FLAGS (\Deleted)" demo_world) = Ret tt
  /\ response_to (@handle_fetch Plain.lib "a2" "2" "RFC822")
       (snd (handle_store "a1" "2" "+FLAGS (\Deleted)" demo_world))
     = [fetch_literal 2 "RFC822" "three"; "a2" +:+ " OK FETCH completed" +:+ crlf].
Proof.
  apply (@fetch_after_delete Plain.lib demo_world "a1" "a2" "2" "+FLAGS (\Deleted)"
           "\Deleted" "RFC822" demo_dir "3.eml" "three" 2);
    try reflexivity.
  - apply reachable_demo_world.
  - lia.
  - by constructor.
Defined.

(** ** Deletion and the flag mapping *)





